(** * Zoiner: the cast-processing pipeline, embedded and verified

    A shallow embedding of the decision pipeline of the Zoiner bot
    (TypeScript): the pattern matchers of [cast-utils.ts] and [ai-agent.ts],
    the image extractor of [image-utils.ts], the minting sequence of
    [ai-agent.ts] and [zora.ts], and the cooldown gate of the AI webhook
    route.

    Text is modelled as [string], the sequence of the bytes of its UTF-8
    encoding. On ASCII text a byte is a UTF-16 code unit, and the JavaScript
    string primitives below are the ECMAScript ones: case mapping touches the
    letters A-Z / a-z, the white space class is TAB, LF, VT, FF, CR and
    SPACE, and lengths and cuts count characters. Outside ASCII the
    ECMAScript primitives differ (U+00A0 is white space, U+212A lower-cases
    to k, a cut counts code units), so every statement that fixes the value
    of a function of text is made for ASCII text ([isAscii]); the statements
    about effects hold whatever the text. *)

From Stdlib Require Import ZArith Ascii String List Lia Bool.
From stdpp Require Import gmap strings list pretty.

Local Open Scope bool_scope.

(* ===================================================================== *)
(** ** JavaScript string primitives *)
(* ===================================================================== *)

Module Js.

(** [\s] on ASCII text. *)
Definition isWhiteSpace (c : ascii) : bool :=
  let n := N_of_ascii c in
  ((9 <=? n)%N && (n <=? 13)%N) || (n =? 32)%N.

(** [\w] = [[A-Za-z0-9_]]. *)
Definition isWordChar (c : ascii) : bool :=
  let n := N_of_ascii c in
  ((65 <=? n)%N && (n <=? 90)%N) || ((97 <=? n)%N && (n <=? 122)%N)
  || ((48 <=? n)%N && (n <=? 57)%N) || (n =? 95)%N.

(** [toLowerCase] and [toUpperCase] on ASCII text: the letters A-Z and a-z
    are mapped, every other character is left as it is. *)
Definition lowerChar (c : ascii) : ascii :=
  let n := N_of_ascii c in
  if (65 <=? n)%N && (n <=? 90)%N then ascii_of_N (n + 32) else c.

Definition upperChar (c : ascii) : ascii :=
  let n := N_of_ascii c in
  if (97 <=? n)%N && (n <=? 122)%N then ascii_of_N (n - 32) else c.

Fixpoint toLowerCase (s : string) : string :=
  match s with
  | EmptyString => EmptyString
  | String c s' => String (lowerChar c) (toLowerCase s')
  end.

Fixpoint toUpperCase (s : string) : string :=
  match s with
  | EmptyString => EmptyString
  | String c s' => String (upperChar c) (toUpperCase s')
  end.

(** [s.startsWith(p)] *)
Definition startsWith (p s : string) : bool := String.prefix p s.

(** [s.includes(p)] *)
Fixpoint includes (p s : string) : bool :=
  String.prefix p s ||
  match s with
  | EmptyString => false
  | String _ s' => includes p s'
  end.

(** [s.endsWith(suf)] *)
Fixpoint endsWith (suf s : string) : bool :=
  String.eqb s suf ||
  match s with
  | EmptyString => false
  | String _ s' => endsWith suf s'
  end.

Fixpoint trimStart (s : string) : string :=
  match s with
  | EmptyString => EmptyString
  | String c s' => if isWhiteSpace c then trimStart s' else s
  end.

Fixpoint trimEnd (s : string) : string :=
  match s with
  | EmptyString => EmptyString
  | String c s' =>
      match trimEnd s' with
      | EmptyString => if isWhiteSpace c then EmptyString else String c EmptyString
      | t => String c t
      end
  end.

(** [s.trim()] *)
Definition trim (s : string) : string := trimEnd (trimStart s).

(** [s.slice(0, n)] and [s.substring(0, n)] for a literal [n >= 0], on ASCII
    text, where an index counts characters. *)
Fixpoint slice0 (n : nat) (s : string) : string :=
  match n, s with
  | S n', String c s' => String c (slice0 n' s')
  | _, _ => EmptyString
  end.

(** [s.slice(n)]: the text from index [n] on. *)
Fixpoint sliceFrom (n : nat) (s : string) : string :=
  match n, s with
  | S n', String _ s' => sliceFrom n' s'
  | _, _ => s
  end.

(** [s.split(/\s+/)]: the pieces between the maximal runs of white space.
    A leading (trailing) run leaves an empty first (last) piece, and the
    empty string splits into one empty piece. *)
Fixpoint split_ws (s : string) : list string :=
  match s with
  | EmptyString => [EmptyString]
  | String c s' =>
      if isWhiteSpace c then
        match s' with
        | String c' _ => if isWhiteSpace c' then split_ws s' else EmptyString :: split_ws s'
        | EmptyString => EmptyString :: split_ws s'
        end
      else
        match split_ws s' with
        | p :: ps => String c p :: ps
        | [] => [String c EmptyString]
        end
  end.

(** [l.join('')] *)
Definition join (l : list string) : string := String.concat EmptyString l.

(** [w[0]] as it is rendered by [join]: [undefined] (the index is out of
    range for the empty string) joins as the empty string. *)
Definition firstChar (w : string) : string :=
  match w with
  | EmptyString => EmptyString
  | String c _ => String c EmptyString
  end.

(** JavaScript truthiness of a [string | undefined] value. *)
Definition truthy (o : option string) : bool :=
  match o with
  | Some (String _ _) => true
  | _ => false
  end.

(** [a || b] on strings: [a] when truthy, else [b]. *)
Definition orElse (a : option string) (b : string) : string :=
  match a with
  | Some (String c s) => String c s
  | _ => b
  end.

End Js.

(** The white-space-delimited tokens of a text: its maximal runs of
    characters that are not white space. This is the reading of "word" and
    "token" used in the statements below; it is independent of [Js.split_ws]. *)
Fixpoint tokens (s : string) : list string :=
  match s with
  | EmptyString => []
  | String c s' =>
      if Js.isWhiteSpace c then tokens s'
      else
        match s' with
        | String c' _ =>
            if Js.isWhiteSpace c' then String c EmptyString :: tokens s'
            else match tokens s' with
                 | w :: ws => String c w :: ws
                 | [] => [String c EmptyString]
                 end
        | EmptyString => [String c EmptyString]
        end
  end.

(** A text with no leading and no trailing white space. *)
Definition trimmed (s : string) : Prop := Js.trim s = s.

(** The text starts with white space. *)
Definition headSpace (s : string) : bool :=
  match s with
  | String c _ => Js.isWhiteSpace c
  | EmptyString => false
  end.


(** The first letters of a list of words, concatenated. *)
Fixpoint initials (ws : list string) : string :=
  match ws with
  | [] => EmptyString
  | EmptyString :: ws' => initials ws'
  | String c _ :: ws' => String c (initials ws')
  end.

(* ===================================================================== *)
(** ** cast-utils.ts *)
(* ===================================================================== *)

Module CastUtils.

Definition patterns : list string :=
  [ "coin this cast"; "coin this post"; "coinify this cast";
    "tokenize this cast"; "token this cast"; "make this a coin";
    "turn this into a coin"; "create coin from this" ].

Definition isRequestToCoinCast (text : string) : bool :=
  let lowerText := Js.toLowerCase text in
  let hasPattern := existsb (fun pattern => Js.includes pattern lowerText) patterns in
  if negb hasPattern && Js.includes "coin this" lowerText then
    let words := Js.split_ws (Js.trim lowerText) in
    if (length words <=? 4)%nat
       && (Js.includes "coin this" lowerText || Js.includes "@zoiner coin this" lowerText)
    then true
    else hasPattern
  else hasPattern.

End CastUtils.

(* ===================================================================== *)
(** ** ai-agent.ts: generateSymbolFromName *)
(* ===================================================================== *)

Definition generateSymbolFromName (name : string) : string :=
  let words := Js.split_ws name in
  if (1 <? length words)%nat then
    Js.slice0 10 (Js.toUpperCase (Js.join (map Js.firstChar words)))
  else Js.slice0 4 (Js.toUpperCase name).

(* ===================================================================== *)
(** ** A backtracking matcher for the regular expressions of the source *)
(* ===================================================================== *)

(** The fragment of ECMAScript regular expressions that the extractors use:
    character classes, sequence, alternation, greedy and lazy repetition,
    one capture group, [$] (no [m] flag) and [\b]. The matcher explores the
    alternatives in the priority order of the ECMAScript backtracking
    semantics, so that the captured text is the one [String.prototype.match]
    reports. *)
Module Regex.

Inductive re : Type :=
| Eps
| Cls (p : ascii -> bool)
| Seq (r1 r2 : re)
| Alt (r1 r2 : re)
| Opt (r : re)
| Star (r : re)
| StarLazy (r : re)
| Group (r : re)
| Eos
| WordB.

Record state : Type := mkState {
  prev : option ascii;      (* the character left of the position *)
  rest : string;            (* the text right of the position *)
  cap : option string       (* capture group 1 *)
}.

Fixpoint run {A : Type} (r : re) (st : state) (k : state -> option A) : option A :=
  match r with
  | Eps => k st
  | Cls p =>
      match rest st with
      | String c s' => if p c then k (mkState (Some c) s' (cap st)) else None
      | EmptyString => None
      end
  | Seq r1 r2 => run r1 st (fun st' => run r2 st' k)
  | Alt r1 r2 =>
      match run r1 st k with
      | Some a => Some a
      | None => run r2 st k
      end
  | Opt r1 =>
      match run r1 st k with
      | Some a => Some a
      | None => k st
      end
  | Star r1 =>
      (fix loop (n : nat) (st : state) {struct n} : option A :=
         match n with
         | O => k st
         | S n' =>
             match run r1 st (fun st' =>
                     if (String.length (rest st') <? String.length (rest st))%nat
                     then loop n' st' else None) with
             | Some a => Some a
             | None => k st
             end
         end) (S (String.length (rest st))) st
  | StarLazy r1 =>
      (fix loop (n : nat) (st : state) {struct n} : option A :=
         match n with
         | O => k st
         | S n' =>
             match k st with
             | Some a => Some a
             | None =>
                 run r1 st (fun st' =>
                     if (String.length (rest st') <? String.length (rest st))%nat
                     then loop n' st' else None)
             end
         end) (S (String.length (rest st))) st
  | Group r1 =>
      run r1 st (fun st' =>
        k (mkState (prev st') (rest st')
             (Some (Js.slice0 (String.length (rest st) - String.length (rest st')) (rest st)))))
  | Eos =>
      match rest st with
      | EmptyString => k st
      | String _ _ => None
      end
  | WordB =>
      let a := match prev st with Some c => Js.isWordChar c | None => false end in
      let b := match rest st with String c _ => Js.isWordChar c | EmptyString => false end in
      if xorb a b then k st else None
  end.

Definition Plus (r : re) : re := Seq r (Star r).
Definition PlusLazy (r : re) : re := Seq r (StarLazy r).

(** A literal under the [i] flag. *)
Fixpoint lit (s : string) : re :=
  match s with
  | EmptyString => Eps
  | String c s' =>
      Seq (Cls (fun x => Ascii.eqb (Js.lowerChar x) (Js.lowerChar c))) (lit s')
  end.

(** [text.match(r)] for a pattern without the [g] flag: the leftmost match;
    the result is the text of capture group 1. *)
Fixpoint search (r : re) (p : option ascii) (s : string) : option (option string) :=
  match run r (mkState p s None) (fun st => Some (cap st)) with
  | Some c => Some c
  | None =>
      match s with
      | String c s' => search r (Some c) s'
      | EmptyString => None
      end
  end.

(** [text.match(r)?.[1]] when it is truthy. *)
Definition match1 (r : re) (text : string) : option string :=
  match search r None text with
  | Some (Some (String c g)) => Some (String c g)
  | _ => None
  end.

End Regex.

(* ===================================================================== *)
(** ** ai-agent.ts: extractExplicitName, extractExplicitSymbol *)
(* ===================================================================== *)

Module Extract.
Import Regex.

Definition dquote : ascii := ascii_of_N 34.
Definition squote : ascii := ascii_of_N 39.
Definition comma : ascii := ascii_of_N 44.
Definition LF : ascii := ascii_of_N 10.
Definition CR : ascii := ascii_of_N 13.

Definition among (l : list ascii) (c : ascii) : bool := existsb (Ascii.eqb c) l.

Definition s_star : re := Star (Cls Js.isWhiteSpace).               (* \s* *)
Definition s_plus : re := Plus (Cls Js.isWhiteSpace).               (* \s+ *)
Definition quote_opt : re := Opt (Cls (among [dquote; squote])).    (* [q]?, a double or a single quote *)

(** [(?:\s*,|\s+ticker:|\s*$)] *)
Definition tail : re :=
  Alt (Seq s_star (lit ","))
      (Alt (Seq s_plus (lit "ticker:")) (Seq s_star Eos)).

(** [([^,\n\r]+?)] *)
Definition name_plain : re :=
  Group (PlusLazy (Cls (fun c => negb (among [comma; LF; CR] c)))).

(** [([^q,]+?)], writing [q] for the two quote characters *)
Definition name_unquoted : re :=
  Group (PlusLazy (Cls (fun c => negb (among [dquote; squote; comma] c)))).

(** [/<prefix>:\s*([^,\n\r]+?)(?:\s*,|\s+ticker:|\s*$)/i] *)
Definition colon_form (prefix : string) : re :=
  Seq (lit prefix) (Seq s_star (Seq name_plain tail)).

Definition called_or_named : re := Alt (lit "called") (lit "named").

Definition name_patterns : list re :=
  [ colon_form "coin this content:";
    colon_form "create coin:";
    colon_form "create a coin:";
    colon_form "make a coin:";
    colon_form "coin this:";
    colon_form "tokenize this:";
    colon_form "mint this:";
    (* /create (?:a )?coin (?:called|named) [q]?([^q,]+?)[q]?(?:\s*,|\s+ticker:|\s*$)/i *)
    Seq (lit "create ") (Seq (Opt (lit "a ")) (Seq (lit "coin ") (Seq called_or_named
      (Seq (lit " ") (Seq quote_opt (Seq name_unquoted (Seq quote_opt tail)))))));
    (* /coin (?:called|named) [q]?([^q,]+?)[q]?(?:\s*,|\s+ticker:|\s*$)/i *)
    Seq (lit "coin ") (Seq called_or_named
      (Seq (lit " ") (Seq quote_opt (Seq name_unquoted (Seq quote_opt tail)))));
    (* /token (?:called|named) [q]?([^q,]+?)[q]?/i *)
    Seq (lit "token ") (Seq called_or_named
      (Seq (lit " ") (Seq quote_opt (Seq name_unquoted quote_opt))));
    (* /name:\s*[q]?([^q,]+?)[q]?(?:\s*,|\s+ticker:|\s*$)/i *)
    Seq (lit "name:") (Seq s_star (Seq quote_opt (Seq name_unquoted (Seq quote_opt tail))));
    (* /D([^D]+)D token/i, writing [D] for the double quote *)
    Seq (Cls (Ascii.eqb dquote))
      (Seq (Group (Plus (Cls (fun c => negb (Ascii.eqb c dquote)))))
         (Seq (Cls (Ascii.eqb dquote)) (lit " token"))) ].

(** [([^q,\s]+)] *)
Definition symbol_body : re :=
  Group (Plus (Cls (fun c => negb (among [dquote; squote; comma] c || Js.isWhiteSpace c)))).

Definition isAlnum (c : ascii) : bool := Js.isWordChar c && negb (Ascii.eqb c "_").

Definition symbol_patterns : list re :=
  [ Seq (lit "ticker:") (Seq s_star (Seq quote_opt (Seq symbol_body quote_opt)));
    Seq (lit "symbol:") (Seq s_star (Seq quote_opt (Seq symbol_body quote_opt)));
    (* /\$([A-Z0-9]+)\b/i *)
    Seq (lit "$") (Seq (Group (Plus (Cls isAlnum))) WordB) ].

(** The loop over the patterns: the first pattern with a truthy group 1. *)
Fixpoint firstMatch (ps : list re) (text : string) : option string :=
  match ps with
  | [] => None
  | p :: ps' =>
      match match1 p text with
      | Some g => Some g
      | None => firstMatch ps' text
      end
  end.

Definition extractExplicitName (text : string) : option string :=
  match firstMatch name_patterns text with
  | Some g => Some (Js.trim g)
  | None => None
  end.

Definition extractExplicitSymbol (text : string) : option string :=
  match firstMatch symbol_patterns text with
  | Some g => Some (Js.toUpperCase (Js.trim g))
  | None => None
  end.

End Extract.

(* ===================================================================== *)
(** ** types/zoiner.ts, types/ai-agent.ts *)
(* ===================================================================== *)

Record FarcasterUser : Type := {
  fid : Z;
  username : string;
  display_name : string
}.

Record Embed : Type := {
  embed_url : option string;
  embed_image : option string;
  embed_mimetype : option string
}.

Record Media : Type := {
  media_url : option string;
  media_type : option string
}.

Record FarcasterCast : Type := {
  cast_hash : string;
  cast_parent_hash : option string;
  cast_author : FarcasterUser;
  cast_text : string;
  cast_timestamp : Z;                       (* [new Date(timestamp).getTime()] *)
  cast_embeds : option (list Embed);
  cast_mentions : list Z;
  cast_embedded_media : option (list Media);
  cast_image_urls : option (list string);
  cast_images : option (list string)
}.

Record CoinCreationParams : Type := {
  param_name : string;
  param_symbol : string;
  param_uri : string;
  payoutRecipient : string;
  platformReferrer : string;
  initialPurchaseWei : Z
}.

Record CoinCreationResult : Type := {
  result_hash : string;
  result_address : string
}.

Record AgentDecision : Type := {
  action : string;
  message : string;
  suggested_name : option string;
  suggested_symbol : option string;
  metadata_description : option string
}.

Record ImageAnalysis : Type := {
  analysis_id : option Z;
  analysis_image_url : string;
  artistic_style : string;
  mood : string;
  suggested_names : list string;
  suggested_symbols : list string;
  visual_description : string
}.

(** What [getUserContext] reads: the [action_taken] of the user's last five
    conversations, newest first, and the number of ledger rows of the user. *)
Record UserContext : Type := {
  recent_actions : list string;
  creation_count : Z
}.

(** A row of [ai_token_creations]. *)
Record TokenCreationRecord : Type := {
  row_fid : Z;
  token_address : string;
  token_name : string;
  token_symbol : string;
  row_image_url : string;
  row_image_analysis_id : option Z;
  ai_generated_description : string;
  user_prompt : string;
  zora_url : string;
  transaction_hash : string
}.

(** A row of [conversations]. *)
Record ConversationRecord : Type := {
  conv_fid : Z;
  conv_cast_hash : string;
  user_message : string;
  agent_response : string;
  conv_image_url : option string;
  conv_image_analysis_id : option Z;
  action_taken : string
}.

(** The JSON document behind a metadata URI and an axios response. *)
Record Metadata : Type := {
  md_name : option string;
  md_description : option string;
  md_image : option string
}.

Record Response : Type := {
  status : Z;
  data : option Metadata
}.

(* ===================================================================== *)
(** ** image-utils.ts *)
(* ===================================================================== *)

Module ImageUtils.

(** The value of a [string | undefined] when it is truthy. *)
Definition asTruthy (o : option string) : option string :=
  match o with
  | Some (String c s) => Some (String c s)
  | _ => None
  end.

(** [x?.startsWith('image/')] *)
Definition isImageType (o : option string) : bool :=
  match o with
  | Some t => Js.startsWith "image/" t
  | None => false
  end.

Definition imageExtensions : list string :=
  [".jpg"; ".jpeg"; ".png"; ".gif"; ".webp"; ".bmp"; ".svg"].

Definition isLikelyImageUrl (url : string) : bool :=
  let lowercaseUrl := Js.toLowerCase url in
  existsb (fun ext => Js.endsWith ext lowercaseUrl || Js.includes "image" lowercaseUrl)
          imageExtensions.

(** The body of the loop over [cast.embeds]: what one embed returns. *)
Definition checkEmbed (embed : Embed) : option string :=
  match asTruthy (embed_url embed) with
  | Some url =>
      if isImageType (embed_mimetype embed) then Some url
      else if isLikelyImageUrl url then Some url
      else asTruthy (embed_image embed)
  | None => asTruthy (embed_image embed)
  end.

(** The body of the loop over [cast.embedded_media]. *)
Definition checkMedia (media : Media) : option string :=
  match asTruthy (media_url media) with
  | Some url =>
      if isImageType (media_type media) then Some url
      else if isLikelyImageUrl url then Some url
      else None
  | None => None
  end.

(** A [for ... of] loop that returns at the first element yielding a value. *)
Fixpoint firstOf {A : Type} (f : A -> option string) (l : list A) : option string :=
  match l with
  | [] => None
  | x :: l' =>
      match f x with
      | Some u => Some u
      | None => firstOf f l'
      end
  end.

Definition scan {A : Type} (f : A -> option string) (l : option (list A)) : option string :=
  match l with
  | Some xs => firstOf f xs
  | None => None
  end.

(** [l && l.length > 0 ? l[0] : nothing] *)
Definition firstElement (l : option (list string)) : option string :=
  match l with
  | Some (u :: _) => Some u
  | _ => None
  end.

Definition extractImageFromCast (cast : FarcasterCast) : option string :=
  match scan checkEmbed (cast_embeds cast) with
  | Some u => Some u
  | None =>
      match scan checkMedia (cast_embedded_media cast) with
      | Some u => Some u
      | None =>
          match firstElement (cast_image_urls cast) with
          | Some u => Some u
          | None => firstElement (cast_images cast)
          end
      end
  end.

End ImageUtils.

(* ===================================================================== *)
(** ** Effects: collaborators, events and the monad of the async code *)
(* ===================================================================== *)

(** A thrown value: an [Error] with its message, an axios error that carries
    the [response] of a non-2xx answer, or a value that is not an [Error]. *)
Inductive Thrown : Type :=
| ErrorObj (msg : string)
| HttpError (msg : string) (response_status : Z)
| NonError.

(** [error instanceof Error ? error.message : 'Unknown error'] *)
Definition errorMessage (error : Thrown) : string :=
  match error with
  | ErrorObj m => m
  | HttpError m _ => m
  | NonError => "Unknown error"
  end.

Inductive Res (A : Type) : Type :=
| Ok (a : A)
| Throw (e : Thrown).
Arguments Ok {A} a.
Arguments Throw {A} e.

(** The two calls of [callClaude] that the pipeline makes: the naming prompt
    of [analyzeCastForTokenCreation], a fixed template around the cleaned
    text and the author, and the decision prompt of [makeRegularDecision],
    the context text under the fixed persona prompt. *)
Inductive ClaudeRequest : Type :=
| NamingRequest (cleanText author : string)
| DecisionRequest (contextText : string).

(** What [JSON.parse] yields for the naming answer. *)
Record TokenInfoJson : Type := {
  json_name : option string;
  json_symbol : option string;
  json_description : option string
}.

(** The observable steps of a run, in program order. *)
Inductive Event : Type :=
| EFetchCast (hash : string)
| EFetchAddress (user : Z)
| EReply (parentFid : Z) (parentHash : string) (body : string)
| EClaude (req : ClaudeRequest)
| EAnalyzeImage (imageUrl : string)
| EUserContext (user : Z)
| EBuildMetadata (coinName coinSymbol imageUrl : string)
| EHttpGet (url : string)
| ELog (line : string)
| ECreateCoin (attempt : nat) (params : CoinCreationParams)
| ESleep (ms : Z)
| ELedgerInsert (row : TokenCreationRecord)
| EConversationInsert (row : ConversationRecord).

(** The environment of a run: configuration and what each collaborator
    answers. The collaborators are the social-graph client, the advisory
    model, [JSON.parse], the relational store, the storage uploader, axios
    and the token-issuance SDK; [sdk_createCoin n] is the outcome of the
    [n]-th call of the SDK. [ZOINER_PLATFORM_ADDRESS] is imported from
    [constants.ts], which does not define it: it is a parameter here. *)
Record World : Type := {
  DRY_RUN : bool;
  BOT_FID : Z;
  BOT_NAME : option string;
  GATEWAY_URL : option string;
  ZOINER_PLATFORM_ADDRESS : string;
  environmentComplete : bool;
  getCastByHash : string -> Res (option FarcasterCast);
  getUserEthereumAddress : Z -> Res (option string);
  callClaude : ClaudeRequest -> Res string;
  JSON_parse_decision : string -> option AgentDecision;
  JSON_parse_tokenInfo : string -> option TokenInfoJson;
  analyzeImage : string -> Res ImageAnalysis;
  getUserContext : Z -> Res UserContext;
  buildMetadataUri : string -> string -> string -> Res string;
  axios_get : string -> Res Response;
  sdk_createCoin : nat -> CoinCreationParams -> Res CoinCreationResult
}.

(** A computation: its outcome and the events it performed. *)
Record M (A : Type) : Type := mkM {
  result : Res A;
  trace : list Event
}.
Arguments mkM {A} result trace.
Arguments result {A} m.
Arguments trace {A} m.

Definition ret {A : Type} (a : A) : M A := mkM (Ok a) [].

Definition bind {A B : Type} (m : M A) (k : A -> M B) : M B :=
  match result m with
  | Ok a => mkM (result (k a)) (trace m ++ trace (k a))
  | Throw e => mkM (Throw e) (trace m)
  end.

Notation "x ← y ; z" := (bind y (fun x => z))
  (at level 20, y at level 100, z at level 200, only parsing).
Notation "y ;; z" := (bind y (fun _ => z))
  (at level 100, z at level 200, only parsing, right associativity).

Definition throw {A : Type} (e : Thrown) : M A := mkM (Throw e) [].

Definition emit (ev : Event) : M unit := mkM (Ok tt) [ev].

(** An awaited call of a collaborator. *)
Definition call {A : Type} (ev : Event) (outcome : Res A) : M A := mkM outcome [ev].

(** [try { body } catch (e) { handler e }] *)
Definition tryCatch {A : Type} (body : M A) (handler : Thrown -> M A) : M A :=
  match result body with
  | Ok _ => body
  | Throw e => mkM (result (handler e)) (trace body ++ trace (handler e))
  end.

#[global] Arguments ret : simpl never.
#[global] Arguments bind : simpl never.
#[global] Arguments throw : simpl never.
#[global] Arguments emit : simpl never.
#[global] Arguments call : simpl never.
#[global] Arguments tryCatch : simpl never.

(** Projections of a trace. *)
Definition replies (tr : list Event) : list string :=
  omap (fun ev => match ev with EReply _ _ body => Some body | _ => None end) tr.

Definition ledgerRows (tr : list Event) : list TokenCreationRecord :=
  omap (fun ev => match ev with ELedgerInsert row => Some row | _ => None end) tr.

Definition conversationRows (tr : list Event) : list ConversationRecord :=
  omap (fun ev => match ev with EConversationInsert row => Some row | _ => None end) tr.

Definition claudeCalls (tr : list Event) : list ClaudeRequest :=
  omap (fun ev => match ev with EClaude req => Some req | _ => None end) tr.

Definition issuanceAttempts (tr : list Event) : list nat :=
  omap (fun ev => match ev with ECreateCoin n _ => Some n | _ => None end) tr.

Definition sleeps (tr : list Event) : list Z :=
  omap (fun ev => match ev with ESleep ms => Some ms | _ => None end) tr.

(* ===================================================================== *)
(** ** zora.ts: ZoraService *)
(* ===================================================================== *)

Module Zora.

(** The three checks of the required fields; the message of the first that
    fails. *)
Definition missingField (metadata : Metadata) : option string :=
  if negb (Js.truthy (md_name metadata)) then Some "Metadata must include a name"
  else if negb (Js.truthy (md_description metadata)) then Some "Metadata must include a description"
  else if negb (Js.truthy (md_image metadata)) then Some "Metadata must include an image"
  else None.

Definition gateways (w : World) (cid : string) : list string :=
  [ "https://gateway.pinata.cloud/ipfs/" +:+ cid;
    "https://ipfs.io/ipfs/" +:+ cid;
    "https://" +:+ Js.orElse (GATEWAY_URL w) "tan-obvious-puffin-912.mypinata.cloud"
       +:+ "/ipfs/" +:+ cid ].

(** The loop over the gateways; [fetched] is the flag of the source. A
    missing field throws inside the [try] of the loop body, after the flag is
    set, and is caught and logged there like a failed fetch. *)
Fixpoint fetchGateways (w : World) (gs : list string) (fetched : bool) : M bool :=
  match gs with
  | [] => ret fetched
  | gateway :: gs' =>
      emit (EHttpGet gateway);;
      match axios_get w gateway with
      | Ok response =>
          match (status response =? 200)%Z, data response with
          | true, Some metadata =>
              match missingField metadata with
              | None => ret true
              | Some m =>
                  emit (ELog ("Failed to fetch from gateway " +:+ gateway +:+ ": Error: " +:+ m));;
                  fetchGateways w gs' true
              end
          | _, _ => fetchGateways w gs' fetched
          end
      | Throw error =>
          emit (ELog ("Failed to fetch from gateway " +:+ gateway +:+ ": " +:+ errorMessage error));;
          fetchGateways w gs' fetched
      end
  end.

Definition validateMetadataURI (w : World) (uri : string) : M bool :=
  if negb (Js.startsWith "ipfs://" uri) && negb (Js.startsWith "http://" uri)
     && negb (Js.startsWith "https://" uri)
  then throw (ErrorObj "URI must start with ipfs://, http://, or https://")
  else if Js.startsWith "ipfs://" uri then
    let cid := Js.sliceFrom 7 uri in          (* [uri.replace('ipfs://', '')] *)
    if (String.length cid <? 10)%nat then throw (ErrorObj "Invalid IPFS CID format")
    else
      fetched ← fetchGateways w (gateways w cid) false;
      (if fetched : bool then ret tt
       else emit (ELog "Could not fetch IPFS content from any gateway. It may not have propagated yet."));;
      ret true
  else
    tryCatch
      (response ← call (EHttpGet uri) (axios_get w uri);
       match data response with
       | Some metadata =>
           match missingField metadata with
           | Some m => throw (ErrorObj m)
           | None => ret true
           end
       | None => throw (ErrorObj "Cannot read properties of undefined (reading 'name')")
       end)
      (fun error =>
         match error with
         | HttpError _ st => throw (ErrorObj ("Failed to fetch metadata: HTTP " +:+ pretty st))
         | _ => throw (ErrorObj ("Failed to fetch metadata: " +:+ errorMessage error))
         end).

Definition maxRetries : nat := 3.

(** [5000 * Math.pow(2, attempt - 1)] *)
Definition waitTime (attempt : nat) : Z := (5000 * 2 ^ (Z.of_nat attempt - 1))%Z.

(** The retry loop [for (attempt = 1; attempt <= maxRetries; attempt++)],
    with [remaining] iterations left. *)
Fixpoint attempts (w : World) (params : CoinCreationParams)
    (remaining attempt : nat) (lastError : option Thrown) : M CoinCreationResult :=
  match remaining with
  | O =>
      throw (match lastError with
             | Some e => e
             | None => ErrorObj "Failed to create coin after multiple attempts"
             end)
  | S remaining' =>
      emit (ECreateCoin attempt params);;
      match sdk_createCoin w attempt params with
      | Ok r => ret r
      | Throw error =>
          if Js.includes "Metadata fetch failed" (errorMessage error) then
            emit (ESleep (waitTime attempt));;
            attempts w params remaining' (S attempt) (Some error)
          else throw error
      end
  end.

Definition simulated : CoinCreationResult :=
  {| result_hash := "0x0000000000000000000000000000000000000000000000000000000000000000";
     result_address := "0x0000000000000000000000000000000000000000" |}.

Definition createCoin (w : World) (params : CoinCreationParams) : M CoinCreationResult :=
  tryCatch
    (tryCatch
       (if negb (DRY_RUN w) then _ ← validateMetadataURI w (param_uri params); ret tt
        else ret tt)
       (fun error =>
          emit (ELog ("Metadata validation error: " +:+ errorMessage error));;
          if negb (DRY_RUN w) then throw (ErrorObj ("Invalid metadata: " +:+ errorMessage error))
          else ret tt);;
     if DRY_RUN w then ret simulated
     else attempts w params maxRetries 1 None)
    (fun error => throw error).

Definition generateZoraUrl (contractAddress referrerAddress : string) : string :=
  let baseUrl := "https://zora.co/coin/base:" +:+ contractAddress in
  match referrerAddress with
  | EmptyString => baseUrl
  | _ => baseUrl +:+ "?referrer=" +:+ referrerAddress
  end.

End Zora.

(* ===================================================================== *)
(** ** og-image-service.ts and ai-agent.ts: ZoinerAgentService *)
(* ===================================================================== *)

Module Agent.
Import ImageUtils Extract.

Definition nl : string := String LF EmptyString.
Definition dq : string := String dquote EmptyString.

(** [`${x}`] of an optional string. *)
Definition show (o : option string) : string := default "undefined" o.

(** [x!]: the assertion is erased at run time; an absent value is written
    as the empty string. *)
Definition unwrap (o : option string) : string := default EmptyString o.

(** [OGImageService.generateCastImageUrl] *)
Definition generateCastImageUrl (cast : FarcasterCast) : string :=
  "https://client.farcaster.xyz/v2/og-image?castHash=" +:+ cast_hash cast.

(** [neynarService.replyToCast]: it catches its own errors and resolves to
    the hash of the reply or to null; the callers ignore the value. *)
Definition replyToCast (parentFid : Z) (parentHash body : string) : M unit :=
  emit (EReply parentFid parentHash body).

Definition reply (cast : FarcasterCast) (body : string) : M unit :=
  replyToCast (fid (cast_author cast)) (cast_hash cast) body.

(** [display_name || username] *)
Definition authorName (cast : FarcasterCast) : string :=
  Js.orElse (Some (display_name (cast_author cast))) (username (cast_author cast)).

(** [`Tokenized cast: "${text.slice(0, 100)}${text.length > 100 ? '...' : ''}"`] *)
Definition tokenizedDescription (targetCast : FarcasterCast) : string :=
  "Tokenized cast: " +:+ dq +:+ Js.slice0 100 (cast_text targetCast)
  +:+ (if (100 <? String.length (cast_text targetCast))%nat then "..." else EmptyString)
  +:+ dq.

(** [.replace(/￼/g, '')] on the UTF-8 bytes EF BF BC. *)
Fixpoint removeObjectReplacement (s : string) : string :=
  match s with
  | EmptyString => EmptyString
  | String c s' =>
      match s' with
      | String c1 (String c2 s'') =>
          if (N_of_ascii c =? 239)%N && (N_of_ascii c1 =? 191)%N && (N_of_ascii c2 =? 188)%N
          then removeObjectReplacement s''
          else String c (removeObjectReplacement s')
      | _ => String c (removeObjectReplacement s')
      end
  end.

(** [.replace(/[\u0000-\u001F\u007F-\u009F]/g, '')]; U+0080 to U+009F are
    the two-byte sequences C2 80 to C2 9F. *)
Fixpoint removeControl (s : string) : string :=
  match s with
  | EmptyString => EmptyString
  | String c s' =>
      let n := N_of_ascii c in
      if (n <? 32)%N || (n =? 127)%N then removeControl s'
      else
        match s' with
        | String c1 s'' =>
            if (n =? 194)%N && (128 <=? N_of_ascii c1)%N && (N_of_ascii c1 <=? 159)%N
            then removeControl s''
            else String c (removeControl s')
        | EmptyString => String c EmptyString
        end
  end.

Record TokenInfo : Type := {
  info_name : string;
  info_symbol : string;
  info_description : string
}.

Definition analyzeCastForTokenCreation (w : World) (targetCast : FarcasterCast) : M TokenInfo :=
  let explicitName := extractExplicitName (cast_text targetCast) in
  let explicitSymbol := extractExplicitSymbol (cast_text targetCast) in
  match asTruthy explicitName with
  | Some explicitName =>
      ret {| info_name := explicitName;
              info_symbol := Js.orElse explicitSymbol (generateSymbolFromName explicitName);
              info_description := tokenizedDescription targetCast |}
  | None =>
      tryCatch
        (let cleanText := Js.trim (removeControl (removeObjectReplacement (cast_text targetCast))) in
         let prompt := NamingRequest cleanText (authorName targetCast) in
         response ← call (EClaude prompt) (callClaude w prompt);
         match JSON_parse_tokenInfo w response with
         | Some parsed =>
             ret {| info_name := Js.orElse (json_name parsed) (authorName targetCast +:+ " Cast");
                     info_symbol := Js.orElse (json_symbol parsed) "CAST";
                     info_description :=
                       Js.orElse (json_description parsed) (tokenizedDescription targetCast) |}
         | None => throw (ErrorObj "Unexpected token in JSON")
         end)
        (fun _ =>
           ret {| info_name := authorName targetCast +:+ " Cast";
                   info_symbol := "CAST";
                   info_description := tokenizedDescription targetCast |})
  end.

Definition buildContextText (cast : FarcasterCast) (imageAnalysis : option ImageAnalysis)
    (userContext : UserContext) : string :=
  let context := "User message: " +:+ dq +:+ cast_text cast +:+ dq +:+ nl in
  let explicitName := asTruthy (extractExplicitName (cast_text cast)) in
  let context :=
    match explicitName with
    | Some n =>
        context +:+ nl +:+ "IMPORTANT: User explicitly requested name: " +:+ dq +:+ n +:+ dq
        +:+ " - you MUST use this exact name" +:+ nl
    | None => context
    end in
  let context :=
    match asTruthy (extractExplicitSymbol (cast_text cast)) with
    | Some sym =>
        context +:+ nl +:+ "IMPORTANT: User explicitly requested symbol: " +:+ dq +:+ sym +:+ dq
        +:+ " - you MUST use this exact symbol" +:+ nl
    | None => context
    end in
  let context :=
    match imageAnalysis with
    | Some ia =>
        let context := context +:+ nl +:+ "Image: " +:+ artistic_style ia +:+ ", " +:+ mood ia in
        match explicitName with
        | Some _ => context
        | None => context +:+ nl +:+ "Suggested names: " +:+ String.concat ", " (suggested_names ia)
        end
    | None => context
    end in
  let context :=
    context +:+ nl +:+ "User has created " +:+ pretty (creation_count userContext) +:+ " tokens" in
  match recent_actions userContext with
  | recent :: _ => context +:+ nl +:+ "Recent: " +:+ recent
  | [] => context
  end.

(** The fallback of [makeRegularDecision], taken when the advisory call or
    [JSON.parse] throws. *)
Definition fallbackDecision (cast : FarcasterCast) (imageAnalysis : option ImageAnalysis)
    (explicitName explicitSymbol : option string) : AgentDecision :=
  let lowered := Js.toLowerCase (cast_text cast) in
  match imageAnalysis with
  | Some ia =>
      if Js.includes "coin" lowered || Js.includes "token" lowered then
        {| action := "create_token";
           message :=
             match asTruthy explicitName with
             | Some n =>
                 "beautiful " +:+ Js.orElse (Some (artistic_style ia)) "artwork"
                 +:+ "! creating your " +:+ dq +:+ n +:+ dq +:+ " token now 🎨→🪙"
             | None => "creating your token now! 🎨→🪙"
             end;
           suggested_name :=
             Some (Js.orElse explicitName (Js.orElse (head (suggested_names ia)) "Creative Vision"));
           suggested_symbol :=
             Some (Js.orElse explicitSymbol (Js.orElse (head (suggested_symbols ia)) "CREATE"));
           metadata_description :=
             Some (Js.orElse (Some (visual_description ia)) "A creative work") |}
      else
        {| action := "encourage";
           message := "beautiful work! 🎨 want to turn this into a token?";
           suggested_name := None; suggested_symbol := None; metadata_description := None |}
  | None =>
      {| action := "help";
         message := "hi! share an image to create a token 🎨→🪙";
         suggested_name := None; suggested_symbol := None; metadata_description := None |}
  end.

Definition makeRegularDecision (w : World) (cast : FarcasterCast)
    (imageAnalysis : option ImageAnalysis) (userContext : UserContext) : M AgentDecision :=
  let explicitName := extractExplicitName (cast_text cast) in
  let explicitSymbol := extractExplicitSymbol (cast_text cast) in
  let contextText := buildContextText cast imageAnalysis userContext in
  tryCatch
    (response ← call (EClaude (DecisionRequest contextText))
                     (callClaude w (DecisionRequest contextText));
     match JSON_parse_decision w response with
     | Some decision =>
         match asTruthy explicitName with
         | Some n =>
             if String.eqb (action decision) "create_token" then
               ret {| action := action decision;
                       message := message decision;
                       suggested_name := Some n;
                       suggested_symbol := Some (Js.orElse explicitSymbol (generateSymbolFromName n));
                       metadata_description := metadata_description decision |}
             else ret decision
         | None => ret decision
         end
     | None => throw (ErrorObj "Unexpected token in JSON")
     end)
    (fun _ => ret (fallbackDecision cast imageAnalysis explicitName explicitSymbol)).

Definition failureReply : string := "sorry, hit a creative block! �� try again ✨".
Definition castFailureReply : string := "sorry, hit a creative block! 🎨 try again ✨".
Definition needAddress : string := "need a verified ethereum address first!".
Definition needImage : string := "need an image to create your token!".

(** The [try] block of [executeTokenCreation]. *)
Definition tokenCreation (w : World) (decision : AgentDecision) (cast : FarcasterCast)
    (imageAnalysis : option ImageAnalysis) : M unit :=
  creatorAddress ← call (EFetchAddress (fid (cast_author cast)))
                        (getUserEthereumAddress w (fid (cast_author cast)));
  let imageUrl := extractImageFromCast cast in
  match asTruthy creatorAddress, asTruthy imageUrl with
  | Some creatorAddress, Some imageUrl =>
      let name := unwrap (suggested_name decision) in
      let symbol := unwrap (suggested_symbol decision) in
      metadataUri ← call (EBuildMetadata name symbol imageUrl)
                         (buildMetadataUri w name symbol imageUrl);
      result ← Zora.createCoin w
                 {| param_name := name; param_symbol := symbol; param_uri := metadataUri;
                    payoutRecipient := creatorAddress;
                    platformReferrer := ZOINER_PLATFORM_ADDRESS w;
                    initialPurchaseWei := 0 |};
      let zoraUrl := Zora.generateZoraUrl (result_address result) (ZOINER_PLATFORM_ADDRESS w) in
      reply cast (message decision +:+ nl +:+ nl +:+ "your creation is zoined! 🎨→🪙"
                  +:+ nl +:+ nl +:+ zoraUrl);;
      emit (ELedgerInsert
              {| row_fid := fid (cast_author cast);
                 token_address := result_address result;
                 token_name := name;
                 token_symbol := symbol;
                 row_image_url := imageUrl;
                 row_image_analysis_id := imageAnalysis ≫= analysis_id;
                 ai_generated_description := unwrap (metadata_description decision);
                 user_prompt := cast_text cast;
                 zora_url := zoraUrl;
                 transaction_hash := result_hash result |})
  | None, _ => reply cast needAddress
  | Some _, None => reply cast needImage
  end.

Definition executeTokenCreation (w : World) (decision : AgentDecision) (cast : FarcasterCast)
    (imageAnalysis : option ImageAnalysis) : M unit :=
  if DRY_RUN w then
    reply cast (message decision +:+ nl +:+ nl +:+ "🏜️ DRY RUN: Token " +:+ dq
                +:+ show (suggested_name decision) +:+ dq +:+ " would be created!")
  else
    tryCatch (tokenCreation w decision cast imageAnalysis)
             (fun _ => reply cast failureReply).

(** The [try] block of [executeCastTokenCreation]. *)
Definition castTokenCreation (w : World) (decision : AgentDecision) (cast : FarcasterCast)
    (imageUrl : option string) (targetCast : FarcasterCast) : M unit :=
  creatorAddress ← call (EFetchAddress (fid (cast_author cast)))
                        (getUserEthereumAddress w (fid (cast_author cast)));
  match asTruthy creatorAddress, asTruthy imageUrl with
  | Some creatorAddress, Some imageUrl =>
      let tokenName :=
        Js.orElse (suggested_name decision) ("Cast by " +:+ username (cast_author targetCast)) in
      let tokenSymbol := Js.orElse (suggested_symbol decision) "CAST" in
      let description :=
        Js.orElse (metadata_description decision) (tokenizedDescription targetCast) in
      metadataUri ← call (EBuildMetadata tokenName tokenSymbol imageUrl)
                         (buildMetadataUri w tokenName tokenSymbol imageUrl);
      result ← Zora.createCoin w
                 {| param_name := tokenName; param_symbol := tokenSymbol;
                    param_uri := metadataUri;
                    payoutRecipient := creatorAddress;
                    platformReferrer := ZOINER_PLATFORM_ADDRESS w;
                    initialPurchaseWei := 0 |};
      let zoraUrl := Zora.generateZoraUrl (result_address result) (ZOINER_PLATFORM_ADDRESS w) in
      reply cast (message decision +:+ nl +:+ nl +:+ "your creation is zoined! 🎨→🪙"
                  +:+ nl +:+ nl +:+ "tokenized cast by @" +:+ username (cast_author targetCast)
                  +:+ nl +:+ nl +:+ zoraUrl);;
      emit (ELedgerInsert
              {| row_fid := fid (cast_author cast);
                 token_address := result_address result;
                 token_name := tokenName;
                 token_symbol := tokenSymbol;
                 row_image_url := imageUrl;
                 row_image_analysis_id := None;
                 ai_generated_description := description;
                 user_prompt := cast_text cast;
                 zora_url := zoraUrl;
                 transaction_hash := result_hash result |})
  | None, _ => reply cast needAddress
  | Some _, None => reply cast needImage
  end.

Definition executeCastTokenCreation (w : World) (decision : AgentDecision) (cast : FarcasterCast)
    (imageUrl : option string) (targetCast : FarcasterCast) : M unit :=
  if DRY_RUN w then
    reply cast (message decision +:+ nl +:+ nl +:+ "🏜️ DRY RUN: Token " +:+ dq
                +:+ show (suggested_name decision) +:+ dq
                +:+ " would be created from cast by " +:+ username (cast_author targetCast) +:+ "!")
  else
    tryCatch (castTokenCreation w decision cast imageUrl targetCast)
             (fun _ => reply cast castFailureReply).

Definition storeConversation (cast : FarcasterCast) (decision : AgentDecision)
    (imageAnalysis : option ImageAnalysis) : M unit :=
  emit (EConversationInsert
          {| conv_fid := fid (cast_author cast);
             conv_cast_hash := cast_hash cast;
             user_message := cast_text cast;
             agent_response := message decision;
             conv_image_url := analysis_image_url <$> imageAnalysis;
             conv_image_analysis_id := imageAnalysis ≫= analysis_id;
             action_taken := action decision |}).

Definition processCastTokenRequest (w : World) (cast : FarcasterCast) : M unit :=
  targetCast ←
    match asTruthy (cast_parent_hash cast) with
    | Some parent =>
        tryCatch
          (parentCast ← call (EFetchCast parent) (getCastByHash w parent);
           ret (default cast parentCast))
          (fun _ => ret cast)
    | None => ret cast
    end;
  let imageUrl := generateCastImageUrl targetCast in
  tokenInfo ← analyzeCastForTokenCreation w targetCast;
  executeCastTokenCreation w
    {| action := "create_cast_token";
       message := "turning this cast into a token! 🎨→🪙";
       suggested_name := Some (info_name tokenInfo);
       suggested_symbol := Some (info_symbol tokenInfo);
       metadata_description := Some (info_description tokenInfo) |}
    cast (Some imageUrl) targetCast.

Definition processRegularTokenRequest (w : World) (cast : FarcasterCast) : M unit :=
  imageAnalysis ←
    match asTruthy (extractImageFromCast cast) with
    | Some imageUrl =>
        analysis ← call (EAnalyzeImage imageUrl) (analyzeImage w imageUrl);
        ret (Some analysis)
    | None => ret None
    end;
  userContext ← call (EUserContext (fid (cast_author cast)))
                     (getUserContext w (fid (cast_author cast)));
  decision ← makeRegularDecision w cast imageAnalysis userContext;
  (if String.eqb (action decision) "create_token"
   then executeTokenCreation w decision cast imageAnalysis
   else reply cast (message decision));;
  storeConversation cast decision imageAnalysis.

Definition interactionFailureReply : string :=
  "sorry, i'm having a creative block right now! 🎨 try again in a moment ✨".

Definition processInteraction (w : World) (cast : FarcasterCast) : M unit :=
  tryCatch
    (if CastUtils.isRequestToCoinCast (cast_text cast)
     then processCastTokenRequest w cast
     else processRegularTokenRequest w cast)
    (fun _ => reply cast interactionFailureReply).

End Agent.

(* ===================================================================== *)
(** ** neynar-bot.ts: castMentionsBot; ai-bot-service.ts: AIBotService *)
(* ===================================================================== *)

Module BotService.

Definition castMentionsBot (w : World) (cast : FarcasterCast) : bool :=
  if existsb (Z.eqb (BOT_FID w)) (cast_mentions cast) then true
  else
    let botName := Js.orElse (BOT_NAME w) "zoiner" in
    let usernameFormat := "@" +:+ Js.toLowerCase botName in
    let fidFormat := "@!" +:+ pretty (BOT_FID w) in
    match cast_text cast with
    | EmptyString => false
    | _ =>
        let lowerText := Js.toLowerCase (cast_text cast) in
        Js.includes usernameFormat lowerText || Js.includes fidFormat lowerText
    end.

Definition isRecentBotInteraction (w : World) (cast : FarcasterCast) : M bool :=
  tryCatch
    (match ImageUtils.asTruthy (cast_parent_hash cast) with
     | Some parent =>
         parentCast ← call (EFetchCast parent) (getCastByHash w parent);
         match parentCast with
         | Some parentCast =>
             if (fid (cast_author parentCast) =? BOT_FID w)%Z then
               let timeDiff := (cast_timestamp cast - cast_timestamp parentCast)%Z in
               ret (timeDiff <? 10000)%Z
             else ret false
         | None => ret false
         end
     | None => ret false
     end)
    (fun _ => ret false).

Definition fallbackReply : string :=
  "sorry, i'm having a creative block right now! 🎨 please try again in a moment - your art deserves to shine onchain ✨".

(** [processCast] on a service whose [processedCasts] set is given; the
    result is the computation and the set afterwards. *)
Definition processCast (w : World) (processedCasts : gset string) (castHash : string)
    : M unit * gset string :=
  if bool_decide (castHash ∈ processedCasts) then (ret tt, processedCasts)
  else
    (tryCatch
       (cast ← call (EFetchCast castHash) (getCastByHash w castHash);
        match cast with
        | None => ret tt
        | Some cast =>
            if (fid (cast_author cast) =? BOT_FID w)%Z then ret tt
            else if negb (castMentionsBot w cast) then ret tt
            else
              recent ← isRecentBotInteraction w cast;
              if recent : bool then ret tt
              else Agent.processInteraction w cast
        end)
       (fun _ =>
          tryCatch
            (cast ← call (EFetchCast castHash) (getCastByHash w castHash);
             match cast with
             | Some cast =>
                 if castMentionsBot w cast && negb (fid (cast_author cast) =? BOT_FID w)%Z
                 then Agent.reply cast fallbackReply
                 else ret tt
             | None => ret tt
             end)
            (fun _ => ret tt)),
     {[castHash]} ∪ processedCasts).

End BotService.

(* ===================================================================== *)
(** ** The AI webhook route: POST and the cooldown map *)
(* ===================================================================== *)

Module Webhook.

Definition COOLDOWN_MS : Z := 30000.

Record ZoinerWebhookEvent : Type := {
  event_type : string;
  event_hash : string
}.

(** The JSON answers of the handler. *)
Inductive Answer : Type :=
| ignored_event_type
| cooldown_active
| initialization_failed
| completed
| processing_failed.

(** [lastProcessed && (now - lastProcessed) < COOLDOWN_MS] *)
Definition inCooldown (now : Z) (processingCooldown : gmap string Z) (castHash : string) : bool :=
  match processingCooldown !! castHash with
  | Some lastProcessed => negb (lastProcessed =? 0)%Z && (now - lastProcessed <? COOLDOWN_MS)%Z
  | None => false
  end.

(** The clean-up loop: entries with [timestamp < hourAgo] are deleted. *)
Definition cleanUp (now : Z) (processingCooldown : gmap string Z) : gmap string Z :=
  let hourAgo := (now - 60 * 60 * 1000)%Z in
  filter (fun entry : string * Z => ¬ (entry.2 < hourAgo)%Z) processingCooldown.

(** The handler, for a service whose [processCast] is [svc] ([None] when
    [initializeAIBotService] returns null). The result is the answer, the
    cooldown map afterwards, and the events of the processing. *)
Definition POST_with (svc : option (string -> M unit)) (now : Z)
    (event : ZoinerWebhookEvent) (processingCooldown : gmap string Z)
    : Answer * gmap string Z * list Event :=
  if negb (String.eqb (event_type event) "cast.created")
  then (ignored_event_type, processingCooldown, [])
  else
    let castHash := event_hash event in
    if inCooldown now processingCooldown castHash
    then (cooldown_active, processingCooldown, [])
    else
      let cooldown := cleanUp now (<[castHash := now]> processingCooldown) in
      match svc with
      | None => (initialization_failed, cooldown, [])
      | Some processCast =>
          let run := processCast castHash in
          match result run with
          | Ok _ => (completed, cooldown, trace run)
          | Throw _ => (processing_failed, delete castHash cooldown, trace run)
          end
      end.

(** [initializeAIBotService]: a new [AIBotService], whose [processedCasts]
    set is empty, unless the environment is incomplete. *)
Definition initializeAIBotService (w : World) : option (string -> M unit) :=
  if environmentComplete w
  then Some (fun castHash => (BotService.processCast w ∅ castHash).1)
  else None.

Definition POST (w : World) := POST_with (initializeAIBotService w).

End Webhook.

(* ===================================================================== *)
(** ** parser-utils.ts: the sanitizers of the rule-based bot *)
(* ===================================================================== *)

Module ParserUtils.

(** The class [[\w\s\-\.']] on ASCII text. *)
Definition isSafeChar (c : ascii) : bool :=
  Js.isWordChar c || Js.isWhiteSpace c
  || Ascii.eqb c "-" || Ascii.eqb c "." || Ascii.eqb c Extract.squote.

(** [s.replace(/[^\w\s\-\.']/g, '')] *)
Fixpoint removeUnsafe (s : string) : string :=
  match s with
  | EmptyString => EmptyString
  | String c s' => if isSafeChar c then String c (removeUnsafe s') else removeUnsafe s'
  end.

Definition sanitizeName (name : string) : string :=
  let sanitized := Js.trim (removeUnsafe name) in
  Js.slice0 30 sanitized.

Definition sanitizeSymbol (symbol : string) : string :=
  let sanitized := Js.trim (removeUnsafe symbol) in
  sanitized.

Import Regex Extract.

Definition seqs (rs : list re) : re := foldr Seq Eps rs.

Definition semicolon : ascii := ascii_of_N 59.
Definition colon : ascii := ascii_of_N 58.

Definition quote : re := Cls (among [dquote; squote]).                       (* [q] *)
Definition notQuote : re := Cls (fun c => negb (among [dquote; squote] c)).  (* [^q] *)
(** [[^q,;:]] and [[^,;:]] *)
Definition notDelimiter : re :=
  Cls (fun c => negb (among [dquote; squote; comma; semicolon; colon] c)).
Definition notSeparator : re := Cls (fun c => negb (among [comma; semicolon; colon] c)).
(** [.]: any character but a line terminator. *)
Definition dot : re := Cls (fun c => negb (among [LF; CR] c)).

(** [create\s+(?:a\s+)?(?:coin|token)] *)
Definition createCoinOrToken : list re :=
  [lit "create"; s_plus; Opt (Seq (lit "a") s_plus); Alt (lit "coin") (lit "token")].

Definition nameRegexPatterns : list re :=
  [ (* /name:?\s*[q]?([^q,;:]+)[q]?/i *)
    seqs [lit "name"; Opt (lit ":"); s_star; Opt quote; Group (Plus notDelimiter); Opt quote];
    (* /create\s+(?:a\s+)?(?:coin|token)\s+(?:called|named)\s+[q]([^q]+)[q]/i *)
    seqs (createCoinOrToken
          ++ [s_plus; Alt (lit "called") (lit "named"); s_plus; quote;
              Group (Plus notQuote); quote]);
    (* /create\s+(?:a\s+)?(?:coin|token)\s+(?:called|named)\s+([^,;:]+)/i *)
    seqs (createCoinOrToken
          ++ [s_plus; Alt (lit "called") (lit "named"); s_plus; Group (Plus notSeparator)]);
    (* /create\s+(?:a\s+)?(?:coin|token):\s+(.+?)(?:$|,|;)/i *)
    seqs (createCoinOrToken
          ++ [lit ":"; s_plus; Group (PlusLazy dot); Alt Eos (Alt (lit ",") (lit ";"))]);
    (* /coin\s+(?:named|called)\s+[q]([^q]+)[q]/i *)
    seqs [lit "coin"; s_plus; Alt (lit "named") (lit "called"); s_plus; quote;
          Group (Plus notQuote); quote];
    (* /coin\s+(?:named|called)\s+([^,;:]+)/i *)
    seqs [lit "coin"; s_plus; Alt (lit "named") (lit "called"); s_plus;
          Group (Plus notSeparator)] ].

(** [x{1,10}], greedy. *)
Fixpoint upTo (n : nat) (r : re) : re :=
  match n with
  | O => Eps
  | S n' => Opt (Seq r (upTo n' r))
  end.

Definition tickerRegexPatterns : list re :=
  [ (* /ticker:?\s*[q]?([^q,;:]+)[q]?/i *)
    seqs [lit "ticker"; Opt (lit ":"); s_star; Opt quote; Group (Plus notDelimiter); Opt quote];
    (* /symbol:?\s*[q]?([^q,;:]+)[q]?/i *)
    seqs [lit "symbol"; Opt (lit ":"); s_star; Opt quote; Group (Plus notDelimiter); Opt quote];
    (* /\$([A-Z0-9]{1,10})\b/i *)
    seqs [lit "$"; Group (Seq (Cls isAlnum) (upTo 9 (Cls isAlnum))); WordB] ].

(** [/coin\s+this(?:\s+content)?:?\s*[q]?([^q]+)[q]?/i] *)
Definition coinThisPattern : re :=
  seqs [lit "coin"; s_plus; lit "this"; Opt (Seq s_plus (lit "content")); Opt (lit ":");
        s_star; Opt quote; Group (Plus notQuote); Opt quote].

(** [name.replace(/^[q](.+)[q]$/, '$1').trim()] *)
Definition cleanupName (name : string) : string :=
  match run (seqs [quote; Group (Plus dot); quote; Eos]) (mkState None name None)
            (fun st => Some (cap st)) with
  | Some (Some inner) => Js.trim inner
  | _ => Js.trim name
  end.

Record CoinCreationRequest : Type := {
  request_name : string;
  request_symbol : string;
  request_imageUrl : string;
  request_creatorAddress : string
}.

Definition parseCoinCreationRequest (cast : FarcasterCast) (imageUrl creatorAddress : string)
    : option CoinCreationRequest :=
  match cast_text cast, imageUrl, creatorAddress with
  | String _ _, String _ _, String _ _ =>
      let body := Js.trim (cast_text cast) in
      let name :=
        match firstMatch nameRegexPatterns body with
        | Some g => Some (cleanupName (Js.trim g))
        | None => None
        end in
      let symbol :=
        match firstMatch tickerRegexPatterns body with
        | Some g => Some (Js.trim g)
        | None => None
        end in
      let name :=
        match ImageUtils.asTruthy name with
        | Some n => Some n
        | None =>
            match match1 coinThisPattern body with
            | Some g =>
                let content := Js.trim g in
                if negb (Js.includes "ticker:" (Js.toLowerCase content))
                   && negb (Js.includes "name:" (Js.toLowerCase content))
                then Some content else None
            | None => None
            end
        end in
      let name :=
        Js.orElse name
          (Js.orElse (Some (username (cast_author cast)))
             (Js.orElse (Some (display_name (cast_author cast))) "Coin")) in
      let symbol := Js.orElse symbol name in
      Some {| request_name := sanitizeName name;
              request_symbol := sanitizeSymbol symbol;
              request_imageUrl := imageUrl;
              request_creatorAddress := creatorAddress |}
  | _, _, _ => None
  end.

End ParserUtils.

(** Every character of the text satisfies [p]. *)
Fixpoint allChars (p : ascii -> bool) (s : string) : bool :=
  match s with
  | EmptyString => true
  | String c s' => p c && allChars p s'
  end.

(** The text is ASCII: every byte is below 128, so that the text is the
    same sequence of UTF-16 code units. *)
Definition isAsciiChar (c : ascii) : bool := (N_of_ascii c <? 128)%N.

Definition isAscii (s : string) : Prop := allChars isAsciiChar s = true.

(** The text of the post and the names of its author are ASCII. *)
Definition asciiPost (cast : FarcasterCast) : Prop :=
  isAscii (cast_text cast)
  /\ isAscii (username (cast_author cast))
  /\ isAscii (display_name (cast_author cast)).

(* ===================================================================== *)
(** ** The statements under test, as the specification words them *)
(* ===================================================================== *)

(** The symbol of a name, by the words of the specification: the initials of
    the words, upper-cased and cut at 10 characters, when there is more than
    one word; the word itself, upper-cased and cut at 4 characters, when
    there is one. *)
Definition multiWordSymbol (name : string) : Prop :=
  (1 < length (tokens name))%nat ->
  generateSymbolFromName name = Js.slice0 10 (Js.toUpperCase (initials (tokens name))).

Definition singleWordSymbol (name : string) : Prop :=
  forall w, tokens name = [w] ->
            generateSymbolFromName name = Js.slice0 4 (Js.toUpperCase w).

Definition symbolAsSpecified (name : string) : Prop :=
  multiWordSymbol name /\ singleWordSymbol name.

(** The search order of the image extractor, by the words of the
    specification: each check runs over all the embeds before the next check
    is tried. *)
Definition extractImageAsSpecified (cast : FarcasterCast) : option string :=
  let byMime (e : Embed) :=
    match ImageUtils.asTruthy (embed_url e) with
    | Some url => if ImageUtils.isImageType (embed_mimetype e) then Some url else None
    | None => None
    end in
  let byUrl (e : Embed) :=
    match ImageUtils.asTruthy (embed_url e) with
    | Some url => if ImageUtils.isLikelyImageUrl url then Some url else None
    | None => None
    end in
  let byField (e : Embed) := ImageUtils.asTruthy (embed_image e) in
  match ImageUtils.scan byMime (cast_embeds cast) with
  | Some u => Some u
  | None =>
  match ImageUtils.scan byUrl (cast_embeds cast) with
  | Some u => Some u
  | None =>
  match ImageUtils.scan byField (cast_embeds cast) with
  | Some u => Some u
  | None =>
  match ImageUtils.scan ImageUtils.checkMedia (cast_embedded_media cast) with
  | Some u => Some u
  | None =>
  match ImageUtils.firstElement (cast_image_urls cast) with
  | Some u => Some u
  | None => ImageUtils.firstElement (cast_images cast)
  end end end end end.

(** A cast with the given text and embeds, and nothing else. *)
Definition plainCast (h body : string) (es : list Embed) : FarcasterCast :=
  {| cast_hash := h; cast_parent_hash := None;
     cast_author := {| fid := 7; username := "alice"; display_name := "Alice" |};
     cast_text := body; cast_timestamp := 0;
     cast_embeds := Some es; cast_mentions := [];
     cast_embedded_media := None; cast_image_urls := None; cast_images := None |}.

(** No element of an optional list passes the check [f]. *)
Definition noneOf {A : Type} (f : A -> option string) (l : option (list A)) : Prop :=
  match l with
  | Some xs => Forall (fun x => f x = None) xs
  | None => True
  end.

(** The checks of the image extractor, by the words of the amended claim.
    The image heuristic: the URL, in lower case, ends with one of the seven
    extensions or contains "image". *)
Definition likelyImage (url : string) : Prop :=
  (exists ext, In ext [".jpg"; ".jpeg"; ".png"; ".gif"; ".webp"; ".bmp"; ".svg"]
               /\ Js.endsWith ext (Js.toLowerCase url) = true)
  \/ Js.includes "image" (Js.toLowerCase url) = true.

(** Checks (a) and (b): the URL [u] is present and not empty, and the
    declared type starts with "image/" or the URL matches the heuristic. *)
Definition imageByTypeOrUrl (url type : option string) (u : string) : Prop :=
  url = Some u /\ u <> EmptyString
  /\ ((exists t, type = Some t /\ Js.startsWith "image/" t = true) \/ likelyImage u).

(** What one embed gives: its URL when (a) or (b) passes; otherwise (c) its
    image field, when it is present and not empty; otherwise nothing. *)
Definition embedGives (e : Embed) (r : option string) : Prop :=
  match r with
  | Some u =>
      imageByTypeOrUrl (embed_url e) (embed_mimetype e) u
      \/ ((forall v, ~ imageByTypeOrUrl (embed_url e) (embed_mimetype e) v)
          /\ embed_image e = Some u /\ u <> EmptyString)
  | None =>
      (forall v, ~ imageByTypeOrUrl (embed_url e) (embed_mimetype e) v)
      /\ (embed_image e = None \/ embed_image e = Some EmptyString)
  end.

(** What one legacy media entry gives, check (d): its URL when (a) or (b)
    passes on its type and URL; otherwise nothing. *)
Definition mediaGives (m : Media) (r : option string) : Prop :=
  match r with
  | Some u => imageByTypeOrUrl (media_url m) (media_type m) u
  | None => forall v, ~ imageByTypeOrUrl (media_url m) (media_type m) v
  end.

(** Every element of an optional list gives nothing. *)
Definition allGiveNothing {A : Type} (gives : A -> option string -> Prop)
    (l : option (list A)) : Prop :=
  match l with
  | Some xs => Forall (fun x => gives x None) xs
  | None => True
  end.

(** A link whose preview carries an image field, followed by an attached
    picture with a declared MIME type. *)
Definition linkThenPicture : FarcasterCast :=
  plainCast "0xA" "@zoiner create a coin"
    [ {| embed_url := Some "https://news.example/post";
         embed_image := Some "https://news.example/og.bin";
         embed_mimetype := Some "text/html" |};
      {| embed_url := Some "https://cdn.example/photo";
         embed_image := None;
         embed_mimetype := Some "image/png" |} ].

(** The steps of the retry loop of [createCoin], read off a trace. *)
Inductive RetryStep : Type :=
| Attempt (n : nat)
| Wait (ms : Z).

Definition retrySteps (tr : list Event) : list RetryStep :=
  omap (fun ev => match ev with
                  | ECreateCoin n _ => Some (Attempt n)
                  | ESleep ms => Some (Wait ms)
                  | _ => None
                  end) tr.

(** The message of the error says that the metadata has not propagated. *)
Definition isPropagationError (e : Thrown) : bool :=
  Js.includes "Metadata fetch failed" (errorMessage e).

(** [j] failed attempts, each followed by its delay. *)
Definition schedule (j : nat) : list RetryStep :=
  flat_map (fun i => [Attempt i; Wait (5000 * 2 ^ (Z.of_nat i - 1))]) (seq 1 j).

(** Every delay of the sequence stands between two attempts: it is followed
    by a further attempt. *)
Fixpoint waitsBetweenAttempts (steps : list RetryStep) : bool :=
  match steps with
  | [] => true
  | Attempt _ :: rest => waitsBetweenAttempts rest
  | Wait _ :: rest =>
      match rest with
      | Attempt _ :: _ => waitsBetweenAttempts rest
      | _ => false
      end
  end.

(** The events of a computation all satisfy [P]. *)
Definition performs {A : Type} (P : Event -> Prop) (m : M A) : Prop :=
  Forall P (trace m).

(** The events of metadata validation: fetches and log lines. *)
Definition fetchOrLog (ev : Event) : Prop :=
  match ev with
  | EHttpGet _ | ELog _ => True
  | _ => False
  end.

Definition notConversation (ev : Event) : Prop :=
  match ev with
  | EConversationInsert _ => False
  | _ => True
  end.

(** A sample environment: a user with a verified address, a store that
    answers, a publisher that returns an IPFS URI; the advisory model, its
    decoder, the HTTP client and the issuance SDK are given. *)
Definition sampleAnalysis (url : string) : ImageAnalysis :=
  {| analysis_id := Some 1%Z; analysis_image_url := url;
     artistic_style := "digital art"; mood := "creative";
     suggested_names := ["Creative Vision"]; suggested_symbols := ["VISION"];
     visual_description := "A creative digital work" |}.

Definition sampleWorld (sdk : nat -> Res CoinCreationResult) (http : string -> Res Response)
    (advice : ClaudeRequest -> Res string) (decode : string -> option AgentDecision) : World :=
  {| DRY_RUN := false;
     BOT_FID := 1057647;
     BOT_NAME := None;
     GATEWAY_URL := None;
     ZOINER_PLATFORM_ADDRESS := "0xplatform";
     environmentComplete := true;
     getCastByHash := fun _ => Ok None;
     getUserEthereumAddress := fun _ => Ok (Some "0xabc");
     callClaude := advice;
     JSON_parse_decision := decode;
     JSON_parse_tokenInfo := fun _ => None;
     analyzeImage := fun url => Ok (sampleAnalysis url);
     getUserContext := fun _ => Ok {| recent_actions := []; creation_count := 0 |};
     buildMetadataUri := fun _ _ _ => Ok "ipfs://bafkreigh2akiscaildcqabsyg3dfr6chu3fgpregiymsck7e7aqa4s52zy";
     axios_get := http;
     sdk_createCoin := fun n _ => sdk n |}.

Definition sampleParams (uri : string) : CoinCreationParams :=
  {| param_name := "Wave Rider"; param_symbol := "WAVE"; param_uri := uri;
     payoutRecipient := "0xabc"; platformReferrer := "0xplatform";
     initialPurchaseWei := 0 |}.

Definition sampleCoin : CoinCreationResult :=
  {| result_hash := "0xfeed"; result_address := "0xc0ffee" |}.

Definition unreachable : string -> Res Response :=
  fun _ => Throw (ErrorObj "timeout of 5000ms exceeded").

Definition noAdvice : ClaudeRequest -> Res string :=
  fun _ => Throw (ErrorObj "Request failed with status code 529").

Definition notPropagated : Thrown := ErrorObj "Metadata fetch failed: 504".

Definition ipfsUri : string := "ipfs://bafkreigh2akiscaildcqabsyg3dfr6chu3fgpregiymsck7e7aqa4s52zy".

(** A world in which the SDK always answers that the metadata has not
    propagated, and one in which it answers so twice before it succeeds. *)
Definition neverPropagates : World :=
  sampleWorld (fun _ => Throw notPropagated) unreachable noAdvice (fun _ => None).

Definition propagatesAtThird : World :=
  sampleWorld (fun n => match n with
                        | 1%nat | 2%nat => Throw notPropagated
                        | _ => Ok sampleCoin
                        end)
              unreachable noAdvice (fun _ => None).

(** The document has the three mandatory fields. *)
Definition complete (metadata : Metadata) : bool :=
  Js.truthy (md_name metadata) && Js.truthy (md_description metadata)
  && Js.truthy (md_image metadata).

(** The answer to the fetch of a metadata URI does not validate: the URI is
    not fetchable, or the document lacks a mandatory field. *)
Definition invalidAnswer (answer : Res Response) : Prop :=
  match answer with
  | Throw _ => True
  | Ok response =>
      match data response with
      | None => True
      | Some metadata => complete metadata = false
      end
  end.

(** A world whose SDK would succeed at once, behind an unreachable network;
    and the URL of the metadata endpoint that the publisher falls back to. *)
Definition offline : World :=
  sampleWorld (fun _ => Ok sampleCoin) unreachable noAdvice (fun _ => None).

Definition endpointUri : string :=
  "https://zoiner.example/api/zoiner/metadata?name=Wave+Rider&symbol=WAVE".

(** The events of [ZoraService.createCoin] on the parameters [params]:
    fetches, log lines, delays, and calls of the SDK on [params]. *)
Definition zoraEvent (params : CoinCreationParams) (ev : Event) : Prop :=
  match ev with
  | EHttpGet _ | ELog _ | ESleep _ => True
  | ECreateCoin _ given => given = params
  | _ => False
  end.

(** The parameters of the issuance call of the minting sequence. *)
Definition tokenParams (w : World) (name symbol uri creator : string) : CoinCreationParams :=
  {| param_name := name; param_symbol := symbol; param_uri := uri;
     payoutRecipient := creator;
     platformReferrer := ZOINER_PLATFORM_ADDRESS w;
     initialPurchaseWei := 0 |}.

(** The requester has the verified payout address [creator]. *)
Definition verifiedAddress (w : World) (cast : FarcasterCast) (creator : string) : Prop :=
  exists a, getUserEthereumAddress w (fid (cast_author cast)) = Ok a
            /\ ImageUtils.asTruthy a = Some creator.

(** The minting sequence for the token [name]/[symbol] over the image
    [imageUrl] reaches an unrecovered failure: the address lookup throws, or,
    with an address and an image at hand, the publication of the metadata
    throws, or the token issuance throws. *)
Definition mintingFails (w : World) (cast : FarcasterCast) (imageUrl : option string)
    (name symbol : string) : Prop :=
  (exists e, getUserEthereumAddress w (fid (cast_author cast)) = Throw e)
  \/ exists creator url,
       verifiedAddress w cast creator
       /\ ImageUtils.asTruthy imageUrl = Some url
       /\ ((exists e, buildMetadataUri w name symbol url = Throw e)
           \/ exists uri e,
                buildMetadataUri w name symbol url = Ok uri
                /\ result (Zora.createCoin w (tokenParams w name symbol uri creator)) = Throw e).

(** The minting sequence issues the token at the address of [coin]. *)
Definition mintingSucceeds (w : World) (cast : FarcasterCast) (imageUrl : option string)
    (name symbol : string) (coin : CoinCreationResult) : Prop :=
  exists creator url uri,
    verifiedAddress w cast creator
    /\ ImageUtils.asTruthy imageUrl = Some url
    /\ buildMetadataUri w name symbol url = Ok uri
    /\ result (Zora.createCoin w (tokenParams w name symbol uri creator)) = Ok coin.

(** A cast with an attached picture that asks for a coin, and a world whose
    SDK rejects the issuance for a reason other than propagation. *)
Definition pictureCast : FarcasterCast :=
  plainCast "0xA" "@zoiner create a coin called nature"
    [ {| embed_url := Some "https://x/y.png"; embed_image := None;
         embed_mimetype := Some "image/png" |} ].

Definition rejecting : World :=
  sampleWorld (fun _ => Throw (ErrorObj "insufficient funds for gas"))
              unreachable noAdvice (fun _ => None).

Definition sampleDecision : AgentDecision :=
  {| action := "create_token"; message := "creating your token now!";
     suggested_name := Some "nature"; suggested_symbol := Some "NATU";
     metadata_description := Some "A creative work" |}.

(** The replies [rs] and the ledger rows [ls] of a run of the minting
    sequence, by the answers of the collaborators. *)
Definition mintingCases (w : World) (cast : FarcasterCast) (imageUrl : option string)
    (name symbol failure : string) (rs : list string) (ls : list TokenCreationRecord) : Prop :=
  match getUserEthereumAddress w (fid (cast_author cast)) with
  | Throw _ => rs = [failure] /\ ls = []
  | Ok a =>
      match ImageUtils.asTruthy a, ImageUtils.asTruthy imageUrl with
      | Some creator, Some url =>
          match buildMetadataUri w name symbol url with
          | Throw _ => rs = [failure] /\ ls = []
          | Ok uri =>
              match result (Zora.createCoin w (tokenParams w name symbol uri creator)) with
              | Throw _ => rs = [failure] /\ ls = []
              | Ok coin =>
                  exists body row,
                    rs = [body] /\ ls = [row]
                    /\ token_address row = result_address coin /\ token_name row = name
              end
          end
      | None, _ => rs = [Agent.needAddress] /\ ls = []
      | Some _, None => rs = [Agent.needImage] /\ ls = []
      end
  end.

(** A post-mint request without an explicit name, in a world whose SDK
    succeeds at once. *)
Definition coinThisCast : FarcasterCast := plainCast "0xB" "@zoiner coin this cast" [].

Definition minting : World :=
  sampleWorld (fun _ => Ok sampleCoin) unreachable noAdvice (fun _ => None).

(** A delivery of [cast.created] for the post [h]. *)
Definition castCreated (h : string) : Webhook.ZoinerWebhookEvent :=
  {| Webhook.event_type := "cast.created"; Webhook.event_hash := h |}.

(** The cast that [processCastTokenRequest] tokenizes: the parent of a
    reply when it can be fetched, the cast itself otherwise. *)
Definition targetOf (w : World) (cast : FarcasterCast) : FarcasterCast :=
  match ImageUtils.asTruthy (cast_parent_hash cast) with
  | Some parent =>
      match getCastByHash w parent with
      | Ok (Some parentCast) => parentCast
      | _ => cast
      end
  | None => cast
  end.

(** The run consults no advisory model, and every publication of metadata,
    every call of the issuance SDK and every ledger row carries the name
    [n]. *)
Definition namedBy (n : string) (ev : Event) : Prop :=
  match ev with
  | EClaude _ => False
  | EBuildMetadata name _ _ => name = n
  | ECreateCoin _ params => param_name params = n
  | ELedgerInsert row => token_name row = n
  | _ => True
  end.

(** An advisory model that proposes a name of its own, and its decoder. *)
Definition advising : World :=
  sampleWorld (fun _ => Ok sampleCoin) unreachable
    (fun _ => Ok "{...}")
    (fun _ => Some {| action := "create_token";
                      message := "what a lovely forest scene!";
                      suggested_name := Some "Emerald Canopy";
                      suggested_symbol := Some "EMRLD";
                      metadata_description := Some "A walk under the trees" |}).


(** A post-mint request whose text names the token, and an image request
    with a long name that holds characters outside the sanitizer's class. *)
Definition namedPost : FarcasterCast :=
  plainCast "0xC" "@zoiner coin this cast, name: Forest Walk" [].

Definition longName : string := "The Quick Brown Fox Jumps Over The Lazy Dog <3".

Definition longNameCast : FarcasterCast :=
  plainCast "0xD" ("@zoiner create coin: " +:+ longName)
    [ {| embed_url := Some "https://x/y.png"; embed_image := None;
         embed_mimetype := Some "image/png" |} ].

(** The names that a run hands to the issuance SDK. *)
Definition issuedNames (tr : list Event) : list string :=
  omap (fun ev => match ev with ECreateCoin _ params => Some (param_name params) | _ => None end) tr.

(** Neither a reply nor a ledger insert. *)
Definition noReplyNoLedger (ev : Event) : Prop :=
  match ev with
  | EReply _ _ _ | ELedgerInsert _ => False
  | _ => True
  end.

(** The computation writes no reply and no ledger row. *)
Definition silent {A : Type} (m : M A) : Prop :=
  replies (trace m) = [] /\ ledgerRows (trace m) = [].

Definition returns {A : Type} (m : M A) : Prop := exists a, result m = Ok a.

(** The computation returns, and the numbers of its replies and of its
    ledger rows satisfy [P]. *)
Definition tally {A : Type} (P : nat -> nat -> Prop) (m : M A) : Prop :=
  returns m /\ P (length (replies (trace m))) (length (ledgerRows (trace m))).

(** Exactly one reply and at most one ledger row. *)
Definition once (r l : nat) : Prop := r = 1%nat /\ (l <= 1)%nat.

(** At most one reply and at most one ledger row. *)
Definition atMostOnce (r l : nat) : Prop := (r <= 1)%nat /\ (l <= 1)%nat.

Definition answersOnce {A : Type} (m : M A) : Prop := tally once m.

Definition answersAtMostOnce {A : Type} (m : M A) : Prop := tally atMostOnce m.

(** The delivery of the post [h] reaches the agent: the service can be
    built, the post is fetched, it is not the bot's own, it mentions the bot
    and it is not a quick reply to the bot. *)
Definition reachesAgent (w : World) (h : string) : Prop :=
  environmentComplete w = true
  /\ exists cast,
       getCastByHash w h = Ok (Some cast)
       /\ (fid (cast_author cast) =? BOT_FID w)%Z = false
       /\ BotService.castMentionsBot w cast = true
       /\ result (BotService.isRecentBotInteraction w cast) = Ok false.

(** The world [minting] with a social graph that serves the post [cast]. *)
Definition serving (cast : FarcasterCast) : World :=
  {| DRY_RUN := DRY_RUN minting;
     BOT_FID := BOT_FID minting;
     BOT_NAME := BOT_NAME minting;
     GATEWAY_URL := GATEWAY_URL minting;
     ZOINER_PLATFORM_ADDRESS := ZOINER_PLATFORM_ADDRESS minting;
     environmentComplete := true;
     getCastByHash := fun h => if String.eqb h (cast_hash cast) then Ok (Some cast) else Ok None;
     getUserEthereumAddress := getUserEthereumAddress minting;
     callClaude := callClaude minting;
     JSON_parse_decision := JSON_parse_decision minting;
     JSON_parse_tokenInfo := JSON_parse_tokenInfo minting;
     analyzeImage := analyzeImage minting;
     getUserContext := getUserContext minting;
     buildMetadataUri := buildMetadataUri minting;
     axios_get := axios_get minting;
     sdk_createCoin := sdk_createCoin minting |}.

(* ===================================================================== *)
(** ** Further statements about the agent and the webhook *)
(* ===================================================================== *)

(** What a run does for the post [cast], it does for the requester: every
    reply answers [cast], every address and context lookup is for its
    author, and every row written carries the author and the text. *)
Definition addressedTo (cast : FarcasterCast) (ev : Event) : Prop :=
  match ev with
  | EReply parentFid parentHash _ =>
      parentFid = fid (cast_author cast) /\ parentHash = cast_hash cast
  | EFetchAddress user | EUserContext user => user = fid (cast_author cast)
  | ELedgerInsert row =>
      row_fid row = fid (cast_author cast) /\ user_prompt row = cast_text cast
  | EConversationInsert row =>
      conv_fid row = fid (cast_author cast) /\ conv_cast_hash row = cast_hash cast
      /\ user_message row = cast_text cast
  | _ => True
  end.

(** Every call of the issuance SDK is made outside dry-run mode, pays out to
    a verified address of the author of [cast], names the platform as
    referrer, buys nothing, and carries a metadata URI that the publisher
    returned for the name and the symbol of the call. *)
Definition paysRequester (w : World) (cast : FarcasterCast) (ev : Event) : Prop :=
  match ev with
  | ECreateCoin _ params =>
      DRY_RUN w = false
      /\ verifiedAddress w cast (payoutRecipient params)
      /\ platformReferrer params = ZOINER_PLATFORM_ADDRESS w
      /\ initialPurchaseWei params = 0%Z
      /\ exists imageUrl,
           buildMetadataUri w (param_name params) (param_symbol params) imageUrl
           = Ok (param_uri params)
  | _ => True
  end.

(** Nothing of the minting sequence: no metadata is published or fetched, the
    SDK is not called, no ledger row is written. *)
Definition noIssuance (ev : Event) : Prop :=
  match ev with
  | EBuildMetadata _ _ _ | EHttpGet _ | ECreateCoin _ _ | ESleep _ | ELedgerInsert _ => False
  | _ => True
  end.

(** The image that a request for [cast] tokenizes: the preview of the target
    on the post-mint path, the image extracted from the post otherwise. *)
Definition imageFor (w : World) (cast : FarcasterCast) : option string :=
  if CastUtils.isRequestToCoinCast (cast_text cast)
  then Some (Agent.generateCastImageUrl (targetOf w cast))
  else ImageUtils.extractImageFromCast cast.

(** The metadata and the ledger row of a request carry the image of the
    request, and the row links to the page of the token it records. *)
Definition recordsImage (w : World) (cast : FarcasterCast) (ev : Event) : Prop :=
  match ev with
  | EBuildMetadata _ _ imageUrl => imageFor w cast = Some imageUrl
  | ELedgerInsert row =>
      imageFor w cast = Some (row_image_url row)
      /\ zora_url row = Zora.generateZoraUrl (token_address row) (ZOINER_PLATFORM_ADDRESS w)
  | _ => True
  end.

(** Only fetches of casts. *)
Definition onlyFetches (ev : Event) : Prop :=
  match ev with
  | EFetchCast _ => True
  | _ => False
  end.

(** The world [minting] in dry-run mode. *)
Definition dryRun : World :=
  {| DRY_RUN := true;
     BOT_FID := BOT_FID minting;
     BOT_NAME := BOT_NAME minting;
     GATEWAY_URL := GATEWAY_URL minting;
     ZOINER_PLATFORM_ADDRESS := ZOINER_PLATFORM_ADDRESS minting;
     environmentComplete := true;
     getCastByHash := getCastByHash minting;
     getUserEthereumAddress := getUserEthereumAddress minting;
     callClaude := callClaude minting;
     JSON_parse_decision := JSON_parse_decision minting;
     JSON_parse_tokenInfo := JSON_parse_tokenInfo minting;
     analyzeImage := analyzeImage minting;
     getUserContext := getUserContext minting;
     buildMetadataUri := buildMetadataUri minting;
     axios_get := axios_get minting;
     sdk_createCoin := sdk_createCoin minting |}.

(** Every ledger row of the run is written after the single reply of the
    run, which ends with the link to the token page that the row records;
    nothing is said after the row, and no other row is written. *)
Definition linked (tr : list Event) : Prop :=
  forall pre row post, tr = pre ++ ELedgerInsert row :: post ->
    exists body,
      replies pre = [body] /\ Js.endsWith (zora_url row) body = true
      /\ ledgerRows pre = [] /\ replies post = [] /\ ledgerRows post = [].



(** The delivery of the post [h] is one that [processCast] drops: the post
    cannot be fetched, it is the bot's own, it does not mention the bot, or
    it is a quick reply to the bot. *)
Definition dropped (w : World) (h : string) : Prop :=
  match getCastByHash w h with
  | Ok (Some cast) =>
      fid (cast_author cast) = BOT_FID w
      \/ BotService.castMentionsBot w cast = false
      \/ result (BotService.isRecentBotInteraction w cast) = Ok true
  | _ => True
  end.

(** The events of a sequence of deliveries handled by one service instance,
    whose set of processed casts starts as [processedCasts]. *)
Fixpoint deliveries (w : World) (processedCasts : gset string) (hs : list string)
    : list Event :=
  match hs with
  | [] => []
  | h :: hs' =>
      let run := BotService.processCast w processedCasts h in
      trace run.1 ++ deliveries w run.2 hs'
  end.

(** A post of the bot itself that mentions the bot. *)
Definition ownCast : FarcasterCast :=
  {| cast_hash := "0xE"; cast_parent_hash := None;
     cast_author := {| fid := 1057647; username := "zoiner"; display_name := "Zoiner" |};
     cast_text := "thanks @zoiner create a coin"; cast_timestamp := 0;
     cast_embeds := None; cast_mentions := [1057647%Z];
     cast_embedded_media := None; cast_image_urls := None; cast_images := None |}.

(* ===================================================================== *)
(** ** bot-service.ts: the rule-based BotService *)
(* ===================================================================== *)

Module LegacyBot.
Import ImageUtils.

(** [isCoinCreationRequest], a private method of [BotService]; the function
    of the same name that [parser-utils.ts] exports has the same patterns. *)
Definition isCoinCreationRequest (text : string) : bool :=
  let lowerText := Js.toLowerCase text in
  let patterns :=
    [ Js.includes "coin this" lowerText;
      Js.includes "coin this content" lowerText;
      Js.includes "create a coin" lowerText;
      Js.includes "create coin" lowerText;
      Js.includes "create a coin:" lowerText;
      Js.includes "create coin:" lowerText;
      Js.includes "coin" lowerText
      && (Js.includes "name:" lowerText || Js.includes "ticker:" lowerText) ] in
  existsb (fun found : bool => found) patterns.

Definition exampleCommand : string :=
  Agent.dq +:+ "coin this content: name: YourCoinName ticker: YCN" +:+ Agent.dq.

Definition instructions : string :=
  "👋 Hi there! I'm Zoiner, a bot that creates Zora ERC20 coins from images."
  +:+ Agent.nl +:+ Agent.nl
  +:+ "To create a coin, tag me with an image and include the text: " +:+ exampleCommand
  +:+ Agent.nl +:+ Agent.nl
  +:+ "Make sure your profile has a verified Ethereum address, as you'll be set as the payout recipient.".

Definition imageErrorMsg : string :=
  "Please include an image with your coin creation request. Tag me with an image and include the text: "
  +:+ exampleCommand.

Definition addressErrorMsg : string :=
  "I couldn't find your Ethereum address. Please verify an Ethereum address on your Farcaster profile before creating a coin.".

Definition parseErrorMsg : string :=
  "I couldn't parse your coin creation request. Please use the format: coin this content: name: [name] ticker: [ticker]".

Definition successMessage (zoraUrl : string) : string :=
  "your creation is zoined!" +:+ Agent.nl +:+ Agent.nl +:+ zoraUrl.

(** [(error as Error).message]: the message of an [Error]; a thrown value
    that is not an [Error] is read as one without a [message] property,
    which the template renders as [undefined]. *)
Definition messageOf (error : Thrown) : option string :=
  match error with
  | ErrorObj m => Some m
  | HttpError m _ => Some m
  | NonError => None
  end.

Definition errorReply (error : Thrown) : string :=
  "Sorry, there was an error creating your coin: " +:+ Agent.show (messageOf error)
  +:+ ". Please try again later.".

(** [if (!DRY_RUN) await replyToCast(...)] *)
Definition replyUnlessDryRun (w : World) (cast : FarcasterCast) (body : string) : M unit :=
  if negb (DRY_RUN w) then Agent.reply cast body else ret tt.

Definition replyWithUsageInstructions (w : World) (cast : FarcasterCast) : M unit :=
  replyUnlessDryRun w cast instructions.

Definition dryRunResult : CoinCreationResult :=
  {| result_hash := "0xdryrun0000000000000000000000000000000000000000000000000000000000";
     result_address := "0xdryrun0000000000000000000000000000000000000000000000000000000000" |}.

(** The parameters of the issuance call; they name no platform referrer,
    which the record writes as the empty string. *)
Definition coinParams (coinRequest : ParserUtils.CoinCreationRequest) (metadataUri : string)
    : CoinCreationParams :=
  {| param_name := ParserUtils.request_name coinRequest;
     param_symbol := ParserUtils.request_symbol coinRequest;
     param_uri := metadataUri;
     payoutRecipient := ParserUtils.request_creatorAddress coinRequest;
     platformReferrer := EmptyString;
     initialPurchaseWei := 0 |}.

Definition processCoinCreationRequest (w : World) (cast : FarcasterCast) : M unit :=
  tryCatch
    (match asTruthy (extractImageFromCast cast) with
     | None => replyUnlessDryRun w cast imageErrorMsg
     | Some imageUrl =>
         creatorAddress ← call (EFetchAddress (fid (cast_author cast)))
                               (getUserEthereumAddress w (fid (cast_author cast)));
         match asTruthy creatorAddress with
         | None => replyUnlessDryRun w cast addressErrorMsg
         | Some creatorAddress =>
             match ParserUtils.parseCoinCreationRequest cast imageUrl creatorAddress with
             | None => replyUnlessDryRun w cast parseErrorMsg
             | Some coinRequest =>
                 metadataUri ←
                   call (EBuildMetadata (ParserUtils.request_name coinRequest)
                           (ParserUtils.request_symbol coinRequest)
                           (ParserUtils.request_imageUrl coinRequest))
                        (buildMetadataUri w (ParserUtils.request_name coinRequest)
                           (ParserUtils.request_symbol coinRequest)
                           (ParserUtils.request_imageUrl coinRequest));
                 result ←
                   (if negb (DRY_RUN w)
                    then Zora.createCoin w (coinParams coinRequest metadataUri)
                    else ret dryRunResult);
                 let zoraUrl :=
                   Zora.generateZoraUrl (result_address result)
                     (ParserUtils.request_creatorAddress coinRequest) in
                 replyUnlessDryRun w cast (successMessage zoraUrl)
             end
         end
     end)
    (fun error => replyUnlessDryRun w cast (errorReply error)).

(** [processCast] on a service whose [processedCasts] set is given; the
    result is the computation and the set afterwards. *)
Definition processCast (w : World) (processedCasts : gset string) (castHash : string)
    : M unit * gset string :=
  if bool_decide (castHash ∈ processedCasts) then (ret tt, processedCasts)
  else
    (tryCatch
       (cast ← call (EFetchCast castHash) (getCastByHash w castHash);
        match cast with
        | None => ret tt
        | Some cast =>
            if (fid (cast_author cast) =? BOT_FID w)%Z then ret tt
            else if negb (BotService.castMentionsBot w cast) then ret tt
            else if negb (isCoinCreationRequest (cast_text cast)) then
              (if negb (DRY_RUN w) then replyWithUsageInstructions w cast else ret tt)
            else processCoinCreationRequest w cast
        end)
       (fun _ => ret tt),
     {[castHash]} ∪ processedCasts).

End LegacyBot.

(** What the rule-based bot does in dry-run mode: it fetches the cast and the
    address and publishes the metadata. *)
Definition rehearsal (ev : Event) : Prop :=
  match ev with
  | EFetchCast _ | EFetchAddress _ | EBuildMetadata _ _ _ => True
  | _ => False
  end.

(** The delivery of [h] reaches the rule-based bot with the post [cast]. *)
Definition reachesLegacyBot (w : World) (h : string) (cast : FarcasterCast) : Prop :=
  getCastByHash w h = Ok (Some cast)
  /\ fid (cast_author cast) <> BOT_FID w
  /\ BotService.castMentionsBot w cast = true.

(** The rule-based bot keeps no books and asks no model. *)
Definition noBooks (ev : Event) : Prop :=
  match ev with
  | ELedgerInsert _ | EConversationInsert _ | EClaude _ | EAnalyzeImage _
  | EUserContext _ => False
  | _ => True
  end.

(** Every call of the issuance SDK by the rule-based bot carries a sanitized
    name and symbol, and pays out to a verified address of the author. *)
Definition issuesSanitized (w : World) (cast : FarcasterCast) (ev : Event) : Prop :=
  match ev with
  | ECreateCoin _ params =>
      allChars ParserUtils.isSafeChar (param_name params) = true
      /\ (String.length (param_name params) <= 30)%nat
      /\ allChars ParserUtils.isSafeChar (param_symbol params) = true
      /\ verifiedAddress w cast (payoutRecipient params)
      /\ DRY_RUN w = false
  | _ => True
  end.

(** No reply of the run has the text [msg]. *)
Definition neverSays (msg : string) (ev : Event) : Prop :=
  match ev with
  | EReply _ _ body => body <> msg
  | _ => True
  end.

(** The minting sequence of the rule-based bot fails with the error [e]: the
    post has an image, and the address lookup throws [e], or, with a
    verified address at hand, the publication of the metadata or the token
    issuance throws [e]. *)
Definition legacyFailure (w : World) (cast : FarcasterCast) (e : Thrown) : Prop :=
  exists imageUrl,
    ImageUtils.asTruthy (ImageUtils.extractImageFromCast cast) = Some imageUrl
    /\ (getUserEthereumAddress w (fid (cast_author cast)) = Throw e
        \/ exists a creator request,
             getUserEthereumAddress w (fid (cast_author cast)) = Ok a
             /\ ImageUtils.asTruthy a = Some creator
             /\ ParserUtils.parseCoinCreationRequest cast imageUrl creator = Some request
             /\ (buildMetadataUri w (ParserUtils.request_name request)
                   (ParserUtils.request_symbol request)
                   (ParserUtils.request_imageUrl request) = Throw e
                 \/ exists uri,
                      buildMetadataUri w (ParserUtils.request_name request)
                        (ParserUtils.request_symbol request)
                        (ParserUtils.request_imageUrl request) = Ok uri
                      /\ result (Zora.createCoin w (LegacyBot.coinParams request uri))
                         = Throw e)).

(* ===================================================================== *)
(** ** URLSearchParams, on the UTF-8 bytes of the texts *)
(* ===================================================================== *)

(** [new URLSearchParams(record).toString()], [new URL(url).searchParams]
    and [searchParams.get(name)], after the serializer and the parser of
    [application/x-www-form-urlencoded] in the URL standard. *)
Module UrlSearchParams.

(** The serializer and the parser of [URLSearchParams], on the UTF-8 bytes of
    a well-formed text. The bytes that the serializer leaves as they are: *)
Definition isUnreserved (c : ascii) : bool :=
  Extract.isAlnum c || Extract.among ["*"; "-"; "."; "_"]%char c.

Definition hexDigit (n : N) : ascii :=
  if (n <? 10)%N then ascii_of_N (48 + n) else ascii_of_N (55 + n).

(** [%XX], in upper-case hexadecimal. *)
Definition percentEncode (c : ascii) : string :=
  String "%" (String (hexDigit (N_of_ascii c / 16))
                (String (hexDigit (N_of_ascii c mod 16)) EmptyString)).

Fixpoint serializeBytes (s : string) : string :=
  match s with
  | EmptyString => EmptyString
  | String c s' =>
      (if Ascii.eqb c " " then "+"
       else if isUnreserved c then String c EmptyString
       else percentEncode c) +:+ serializeBytes s'
  end.

(** A serialized pair: [name=value]. *)
Definition pairText (p : string * string) : string :=
  serializeBytes p.1 +:+ "=" +:+ serializeBytes p.2.

Definition toString (params : list (string * string)) : string :=
  String.concat "&" (map pairText params).

Definition hexValue (c : ascii) : option N :=
  let n := N_of_ascii c in
  if (48 <=? n)%N && (n <=? 57)%N then Some (n - 48)%N
  else if (65 <=? n)%N && (n <=? 70)%N then Some (n - 55)%N
  else if (97 <=? n)%N && (n <=? 102)%N then Some (n - 87)%N
  else None.

(** A plus sign becomes a space, and [%XX] the byte it names. *)
Fixpoint decode (s : string) : string :=
  match s with
  | EmptyString => EmptyString
  | String c s' =>
      if Ascii.eqb c "+" then String " " (decode s')
      else if Ascii.eqb c "%" then
        match s' with
        | String h (String l s'') =>
            match hexValue h, hexValue l with
            | Some a, Some b => String (ascii_of_N (16 * a + b)) (decode s'')
            | _, _ => String c (decode s')
            end
        | _ => String c (decode s')
        end
      else String c (decode s')
  end.

(** The pieces of a text between the occurrences of [d]. *)
Fixpoint splitOn (d : ascii) (s : string) : list string :=
  match s with
  | EmptyString => [EmptyString]
  | String c s' =>
      if Ascii.eqb c d then EmptyString :: splitOn d s'
      else
        match splitOn d s' with
        | p :: ps => String c p :: ps
        | [] => [String c EmptyString]
        end
  end.

(** The text before the first [d] and the text after it (empty when there
    is no [d]). *)
Fixpoint splitFirst (d : ascii) (s : string) : string * string :=
  match s with
  | EmptyString => (EmptyString, EmptyString)
  | String c s' =>
      if Ascii.eqb c d then (EmptyString, s')
      else (String c (splitFirst d s').1, (splitFirst d s').2)
  end.

(** The parser: the sequences between ampersands, the empty ones skipped,
    each split at its first equals sign and decoded. *)
Definition parse (query : string) : list (string * string) :=
  omap (fun sequence : string =>
          match sequence with
          | EmptyString => None
          | _ => Some (decode (splitFirst "=" sequence).1, decode (splitFirst "=" sequence).2)
          end)
       (splitOn "&" query).

(** The query of an absolute URL: what follows the first question mark,
    the fragment left out. *)
Definition queryOf (url : string) : string :=
  (splitFirst "?" (splitFirst "#" url).1).2.

(** [searchParams.get(name)]: the first value of that name, or null. *)
Fixpoint get (name : string) (params : list (string * string)) : option string :=
  match params with
  | [] => None
  | (n, v) :: params' => if String.eqb n name then Some v else get name params'
  end.

End UrlSearchParams.

(* ===================================================================== *)
(** ** The metadata route: GET /api/zoiner/metadata *)
(* ===================================================================== *)

Module MetadataRoute.

Record Document : Type := {
  doc_name : option string;
  doc_description : string;
  doc_symbol : option string;
  doc_image : option string;
  doc_category : string
}.

(** The metadata that the [try] block of the handler builds from the search
    parameters of the URL of the request. *)
Definition metadata (url : string) : Document :=
  let searchParams := UrlSearchParams.parse (UrlSearchParams.queryOf url) in
  let name := UrlSearchParams.get "name" searchParams in
  let symbol := UrlSearchParams.get "symbol" searchParams in
  let image := UrlSearchParams.get "image" searchParams in
  {| doc_name := name;
     doc_description := default "null" name +:+ " - Created with @zoiner on Farcaster";
     doc_symbol := symbol;
     doc_image := image;
     doc_category := "social" |}.

(** The answers of the handler: the document with status 200, or the error
    [Failed to generate metadata] with status 500. *)
Inductive Outcome : Type :=
| Json (document : Document)
| ServerError.

(** The handler. [new URL(request.url)] throws on a text that is not an
    absolute URL, and the [catch] block answers 500; [validUrl] tells which
    texts the URL constructor of the runtime accepts. Nothing else in the
    [try] block throws. *)
Definition GET (validUrl : string -> bool) (url : string) : Outcome :=
  if validUrl url then Json (metadata url) else ServerError.

(** The document as an HTTP client reads it. *)
Definition served (document : Document) : Response :=
  {| status := 200;
     data := Some {| md_name := doc_name document;
                     md_description := Some (doc_description document);
                     md_image := doc_image document |} |}.

End MetadataRoute.

(* ===================================================================== *)
(** ** ipfs-utils.ts and ZoraService.buildMetadataUri *)
(* ===================================================================== *)

Module IpfsUtils.

Record ZoraMetadata : Type := {
  zm_name : string;
  zm_symbol : option string;
  zm_description : string;
  zm_image : string;
  zm_category : string
}.

(** The environment of the publisher: the URL of the application, its port,
    and what [PinataService.pinJSONToIPFS] answers. *)
Record Publisher : Type := {
  NEXT_PUBLIC_URL : option string;
  PORT : option string;
  pinJSONToIPFS : ZoraMetadata -> string -> Res string
}.

(** An awaited call that leaves no event. *)
Definition await {A : Type} (outcome : Res A) : M A := mkM outcome [].

Definition generateZoraMetadata (name symbol imageUrl : string) (description : option string)
    : ZoraMetadata :=
  {| zm_name := name;
     zm_symbol := Some symbol;
     zm_description := Js.orElse description (name +:+ " - Created with @zoiner on Farcaster");
     zm_image := imageUrl;
     zm_category := "social" |}.

(** [process.env.NEXT_PUBLIC_URL || `http://localhost:${process.env.PORT || 3000}`] *)
Definition apiEndpoint (env : Publisher) : string :=
  Js.orElse (NEXT_PUBLIC_URL env) ("http://localhost:" +:+ Js.orElse (PORT env) "3000").

(** [`${apiEndpoint}/api/zoiner/metadata?${params.toString()}`] *)
Definition metadataUrl (env : Publisher) (name symbol image : string) : string :=
  apiEndpoint env +:+ "/api/zoiner/metadata?"
  +:+ UrlSearchParams.toString [("name", name); ("symbol", symbol); ("image", image)].

Definition uploadMetadataToIPFS (env : Publisher) (metadata : ZoraMetadata) : M string :=
  tryCatch
    (tryCatch
       (await (pinJSONToIPFS env metadata (zm_name metadata +:+ "-metadata.json")))
       (fun _ =>
          ret (metadataUrl env (zm_name metadata)
                 (Js.orElse (zm_symbol metadata) (zm_name metadata))
                 (zm_image metadata))))
    (fun error => throw (ErrorObj ("Failed to create metadata URI: " +:+ errorMessage error))).

(** [ZoraService.buildMetadataUri] *)
Definition buildMetadataUri (env : Publisher) (coinName coinSymbol imageUrl : string)
    : M string :=
  let metadata := generateZoraMetadata coinName coinSymbol imageUrl None in
  metadataUri ← uploadMetadataToIPFS env metadata;
  if negb (Js.startsWith "ipfs://" metadataUri) && negb (Js.startsWith "http" metadataUri)
  then ret (metadataUrl env coinName coinSymbol imageUrl)
  else ret metadataUri.

End IpfsUtils.

(** The text holds neither a question mark nor a number sign. *)
Definition plainPath (s : string) : Prop :=
  Js.includes "?" s = false /\ Js.includes "#" s = false.

(** The text is an http or https URL. *)
Definition isHttp (s : string) : Prop :=
  Js.startsWith "http://" s = true \/ Js.startsWith "https://" s = true.

(** A publisher whose pinning service is down. *)
Definition pinataDown : IpfsUtils.Publisher :=
  {| IpfsUtils.NEXT_PUBLIC_URL := Some "https://zoiner.example";
     IpfsUtils.PORT := None;
     IpfsUtils.pinJSONToIPFS := fun _ _ => Throw (ErrorObj "Pinata authentication failed: Unknown error") |}.

(** The world [minting] with a network that serves the metadata route. *)
Definition selfServing : World :=
  {| DRY_RUN := false;
     BOT_FID := BOT_FID minting;
     BOT_NAME := BOT_NAME minting;
     GATEWAY_URL := GATEWAY_URL minting;
     ZOINER_PLATFORM_ADDRESS := ZOINER_PLATFORM_ADDRESS minting;
     environmentComplete := true;
     getCastByHash := getCastByHash minting;
     getUserEthereumAddress := getUserEthereumAddress minting;
     callClaude := callClaude minting;
     JSON_parse_decision := JSON_parse_decision minting;
     JSON_parse_tokenInfo := JSON_parse_tokenInfo minting;
     analyzeImage := analyzeImage minting;
     getUserContext := getUserContext minting;
     buildMetadataUri := buildMetadataUri minting;
     axios_get := fun url => Ok (MetadataRoute.served (MetadataRoute.metadata url));
     sdk_createCoin := sdk_createCoin minting |}.

(** The characters other than [d]. *)
Definition isNot (d : ascii) (c : ascii) : bool := negb (Ascii.eqb c d).

(** The characters that can stand in a serialized name or value: none of
    the separators of a query. *)
Definition isQuerySafe (c : ascii) : bool :=
  isNot "&" c && isNot "=" c && isNot "#" c && isNot "?" c.

(** The token of the event has a name and a symbol: neither is empty. *)
Definition namedToken (ev : Event) : Prop :=
  match ev with
  | EBuildMetadata coinName coinSymbol _ => coinName <> EmptyString /\ coinSymbol <> EmptyString
  | ECreateCoin _ params =>
      param_name params <> EmptyString /\ param_symbol params <> EmptyString
  | ELedgerInsert row => token_name row <> EmptyString /\ token_symbol row <> EmptyString
  | _ => True
  end.


(* ===================================================================== *)
(** ** image-utils.ts and ipfs-utils.ts: the upload of an image *)
(* ===================================================================== *)

Module ImageUpload.

(** The environment of the upload: dry-run mode, the download of an image
    (its bytes) and the answer of [PinataService.pinBufferToIPFS]. *)
Record Uploader : Type := {
  UPLOAD_DRY_RUN : bool;
  download : string -> Res string;
  pinBufferToIPFS : string -> string -> Res string
}.

(** [imageUrl.split('/').pop() || 'image.jpg'] *)
Definition defaultName (imageUrl : string) : string :=
  Js.orElse (last (UrlSearchParams.splitOn "/" imageUrl)) "image.jpg".

(** [uploadImageUrlToIPFS] of [ipfs-utils.ts] *)
Definition uploadImageUrlToIPFS (env : Uploader) (imageUrl : string) (name : option string)
    : M string :=
  tryCatch
    (buffer ← IpfsUtils.await (download env imageUrl);
     let filename := Js.orElse name (defaultName imageUrl) in
     tryCatch (IpfsUtils.await (pinBufferToIPFS env buffer filename))
              (fun _ => ret imageUrl))
    (fun _ => ret imageUrl).

(** [uploadImageToIPFS] of [image-utils.ts] *)
Definition uploadImageToIPFS (env : Uploader) (imageUrl : string) : M string :=
  tryCatch
    (if UPLOAD_DRY_RUN env then ret imageUrl
     else uploadImageUrlToIPFS env imageUrl None)
    (fun _ => ret imageUrl).

Definition prepareImageForZora (env : Uploader) (imageUrl : string) : M string :=
  tryCatch (uploadImageToIPFS env imageUrl) (fun _ => ret imageUrl).

End ImageUpload.

(* ===================================================================== *)
(** ** neynar-bot.ts: the embeds of a reply *)
(* ===================================================================== *)

Module NeynarBot.
Import Regex.

(** A literal, without the [i] flag. *)
Fixpoint exact (s : string) : re :=
  match s with
  | EmptyString => Eps
  | String c s' => Seq (Cls (Ascii.eqb c)) (exact s')
  end.

(** [[^\s]] *)
Definition notSpace (c : ascii) : bool := negb (Js.isWhiteSpace c).

(** [/(https?:\/\/[^\s]+)/g] *)
Definition urlPattern : re :=
  Group (Seq (exact "http") (Seq (Opt (exact "s")) (Seq (exact "://") (Plus (Cls notSpace))))).

(** The leftmost match at or after the position: the state at its end. *)
Fixpoint exec (r : re) (p : option ascii) (s : string) : option state :=
  match run r (mkState p s None) (fun st => Some st) with
  | Some st => Some st
  | None =>
      match s with
      | String c s' => exec r (Some c) s'
      | EmptyString => None
      end
  end.

(** [text.match(r)] for a pattern with the [g] flag whose group 1 spans the
    whole pattern and matches no empty text: the matches from left to right,
    each search starting where the last match ended. *)
Fixpoint matchAll (n : nat) (r : re) (p : option ascii) (s : string) : list string :=
  match n with
  | O => []
  | S n' =>
      match exec r p s with
      | Some st => default EmptyString (cap st) :: matchAll n' r (prev st) (rest st)
      | None => []
      end
  end.

Definition matchGlobal (r : re) (text : string) : list string :=
  matchAll (S (String.length text)) r None text.

(** [[...new Set(l)]]: the first occurrence of each element, in order. *)
Fixpoint unique (seen : list string) (l : list string) : list string :=
  match l with
  | [] => []
  | x :: l' =>
      if existsb (String.eqb x) seen then unique seen l'
      else x :: unique (x :: seen) l'
  end.

(** The URLs that [replyToCast] attaches to a reply as embeds. *)
Definition embedUrls (text : string) : list string :=
  unique [] (matchGlobal urlPattern text).

End NeynarBot.

(** The text after the prefix [p], when the text starts with it. *)
Fixpoint stripPrefix (p s : string) : option string :=
  match p with
  | EmptyString => Some s
  | String c p' =>
      match s with
      | String x s' => if Ascii.eqb c x then stripPrefix p' s' else None
      | EmptyString => None
      end
  end.

(** The text from its first white space on. *)
Fixpoint afterSolid (s : string) : string :=
  match s with
  | EmptyString => EmptyString
  | String c s' => if Js.isWhiteSpace c then s else afterSolid s'
  end.

(** The text after the URL at the head of a text: after [http://] or
    [https://], one character that is not white space, and all that follow
    it. *)
Definition afterUrl (s : string) : option string :=
  let tail (r : string) :=
    match stripPrefix "://" r with
    | Some (String c t) => if Js.isWhiteSpace c then None else Some (afterSolid t)
    | _ => None
    end in
  match stripPrefix "http" s with
  | None => None
  | Some r1 =>
      match match stripPrefix "s" r1 with
            | Some r2 => tail r2
            | None => None
            end with
      | Some r => Some r
      | None => tail r1
      end
  end.

(** The text is free of white space. *)
Definition solid (s : string) : Prop := allChars NeynarBot.notSpace s = true.

(** The character left of the position after the literal [lit] has been
    read, and after a run of characters of the class [q]. *)
Fixpoint prevAfter (lit : string) (p : option ascii) : option ascii :=
  match lit with
  | EmptyString => p
  | String c lit' => prevAfter lit' (Some c)
  end.

Fixpoint skipWhile (q : ascii -> bool) (p : option ascii) (s : string)
    : option ascii * string :=
  match s with
  | String c s' => if q c then skipWhile q (Some c) s' else (p, s)
  | EmptyString => (p, EmptyString)
  end.

(** The state after the longest run of characters of the class [q]. *)
Definition spanState (q : ascii -> bool) (st : Regex.state) : Regex.state :=
  Regex.mkState (skipWhile q (Regex.prev st) (Regex.rest st)).1
                (skipWhile q (Regex.prev st) (Regex.rest st)).2
                (Regex.cap st).

(* ===================================================================== *)
(** * Properties *)
(* ===================================================================== *)

(** ** White space, tokens and [split] *)

Section StringFacts.

Import Js.

Local Ltac refute_ne := let H := fresh in intros H; exfalso; apply H; reflexivity.



Lemma trimEnd_cons c s :
  trimEnd (String c s) =
  match trimEnd s with
  | EmptyString => if isWhiteSpace c then EmptyString else String c EmptyString
  | t => String c t
  end.
Proof. reflexivity. Qed.








Lemma trimStart_head s : headSpace (trimStart s) = false.
Proof.
  induction s as [|c s IH]; [reflexivity|].
  simpl trimStart. destruct (isWhiteSpace c) eqn:W; [exact IH|exact W].
Qed.


Lemma trimEnd_head s : trimEnd s <> EmptyString -> headSpace (trimEnd s) = headSpace s.
Proof.
  destruct s as [|c s]; [reflexivity|].
  rewrite trimEnd_cons.
  destruct (trimEnd s); [destruct (isWhiteSpace c); [refute_ne|reflexivity]|reflexivity].
Qed.















End StringFacts.

Lemma trimStart_solid s : headSpace s = false -> Js.trimStart s = s.
Proof. destruct s as [|c s]; [reflexivity|]. simpl. intros ->. reflexivity. Qed.

Lemma trimEnd_idem s : Js.trimEnd (Js.trimEnd s) = Js.trimEnd s.
Proof.
  induction s as [|c s IH]; [reflexivity|].
  rewrite (trimEnd_cons c s).
  destruct (Js.trimEnd s) as [|c' t] eqn:E.
  - destruct (Js.isWhiteSpace c) eqn:Hc; [reflexivity|].
    cbn [Js.trimEnd]. rewrite Hc. reflexivity.
  - rewrite (trimEnd_cons c (String c' t)), IH. reflexivity.
Qed.

Lemma headSpace_trim s : headSpace (Js.trim s) = false.
Proof.
  unfold Js.trim. destruct (Js.trimEnd (Js.trimStart s)) as [|c t] eqn:E; [reflexivity|].
  rewrite <- E, trimEnd_head by (rewrite E; discriminate). apply trimStart_head.
Qed.

Lemma trim_idem s : Js.trim (Js.trim s) = Js.trim s.
Proof.
  unfold Js.trim at 1. rewrite (trimStart_solid _ (headSpace_trim s)).
  unfold Js.trim. apply trimEnd_idem.
Qed.

(* ===================================================================== *)
(** ** The post-mint classifier (C4) *)
(* ===================================================================== *)





(* ===================================================================== *)
(** ** generateSymbolFromName (C9) *)
(* ===================================================================== *)

(** The names that reach [generateSymbolFromName] have no white space around
    them: both callers pass the value of [extractExplicitName], which trims
    what it captures. *)
Lemma extractExplicitName_trimmed text name :
  Extract.extractExplicitName text = Some name -> trimmed name.
Proof.
  unfold Extract.extractExplicitName.
  destruct (Extract.firstMatch _ text); [|discriminate].
  intros H. injection H as <-. apply trim_idem.
Qed.

(** Why the names are taken without surrounding white space: on " Nature",
    which no caller passes, [split] yields an empty first piece and the
    code answers "N". *)
Lemma generateSymbolFromName_leading_space :
  tokens " Nature" = ["Nature"]
  /\ generateSymbolFromName " Nature" = "N"
  /\ ~ symbolAsSpecified " Nature".
Proof.
  split; [reflexivity|]. split; [reflexivity|].
  intros [_ H]. specialize (H "Nature" eq_refl). vm_compute in H. discriminate.
Qed.



(* ===================================================================== *)
(** ** The image extractor (C5) *)
(* ===================================================================== *)

Section ImageFacts.

Import ImageUtils.

Lemma firstOf_None {A : Type} (f : A -> option string) (l : list A) :
  firstOf f l = None <-> Forall (fun x => f x = None) l.
Proof.
  induction l as [|x l IH]; simpl.
  - split; [constructor|reflexivity].
  - destruct (f x) eqn:E.
    + split; [discriminate|]. intros H. inversion H; congruence.
    + rewrite IH. split; [intros H; constructor; assumption|intros H; inversion H; assumption].
Qed.

Lemma firstOf_first {A : Type} (f : A -> option string) pre x post u :
  Forall (fun y => f y = None) pre -> f x = Some u ->
  firstOf f (pre ++ x :: post) = Some u.
Proof.
  intros Hpre Hx. induction Hpre as [|y pre Hy _ IH]; simpl.
  - rewrite Hx. reflexivity.
  - rewrite Hy. exact IH.
Qed.

Lemma scan_None {A : Type} (f : A -> option string) (l : option (list A)) :
  scan f l = None <-> noneOf f l.
Proof.
  destruct l as [xs|]; simpl; [apply firstOf_None|]. split; [constructor|reflexivity].
Qed.

Lemma isLikelyImageUrl_spec url :
  isLikelyImageUrl url = true <->
  (exists ext, In ext imageExtensions /\ Js.endsWith ext (Js.toLowerCase url) = true)
  \/ Js.includes "image" (Js.toLowerCase url) = true.
Proof.
  unfold isLikelyImageUrl. cbv zeta. rewrite existsb_exists. split.
  - intros (ext & Hin & H). apply orb_true_iff in H. destruct H as [H|H]; [left; eauto|right; exact H].
  - intros [(ext & Hin & H)|H].
    + exists ext. split; [exact Hin|]. rewrite H. reflexivity.
    + exists ".jpg". split; [left; reflexivity|]. rewrite H. apply orb_true_r.
Qed.

Lemma asTruthy_Some_iff o u : asTruthy o = Some u <-> o = Some u /\ u <> EmptyString.
Proof.
  destruct o as [[|c s]|]; simpl; split; try discriminate.
  - intros [H Hn]. injection H as <-. contradiction.
  - intros H. injection H as <-. split; [reflexivity|discriminate].
  - intros [H _]. exact H.
  - intros [H _]. discriminate.
Qed.

Lemma asTruthy_None_iff o : asTruthy o = None <-> o = None \/ o = Some EmptyString.
Proof.
  destruct o as [[|c s]|]; simpl; split; try discriminate; auto.
  intros [H|H]; discriminate.
Qed.

(** Checks (a) and (b), as the code computes them. *)
Lemma imageByTypeOrUrl_iff url type u :
  imageByTypeOrUrl url type u <->
  asTruthy url = Some u /\ (isImageType type = true \/ isLikelyImageUrl u = true).
Proof.
  unfold imageByTypeOrUrl. rewrite asTruthy_Some_iff. split.
  - intros (Hu & Hne & H). split; [split; assumption|].
    destruct H as [(t & -> & Ht)|Hl]; [left; exact Ht|right].
    apply isLikelyImageUrl_spec. exact Hl.
  - intros [[Hu Hne] H]. split; [exact Hu|]. split; [exact Hne|].
    destruct H as [H|H].
    + left. destruct type as [t|]; [|discriminate]. exists t. split; [reflexivity|exact H].
    + right. apply isLikelyImageUrl_spec in H. exact H.
Qed.

(** The first two checks of a loop body: the URL when (a) or (b) passes. *)
Lemma byTypeOrUrl_cases url type :
  (exists u, asTruthy url = Some u
             /\ (if isImageType type then true else isLikelyImageUrl u) = true
             /\ forall v, imageByTypeOrUrl url type v <-> v = u)
  \/ ((forall v, ~ imageByTypeOrUrl url type v)
      /\ match asTruthy url with
         | Some u => isImageType type = false /\ isLikelyImageUrl u = false
         | None => True
         end).
Proof.
  destruct (asTruthy url) as [u|] eqn:Eu.
  - destruct (isImageType type) eqn:Et; [|destruct (isLikelyImageUrl u) eqn:El].
    + left. exists u. split; [reflexivity|]. split; [reflexivity|].
      intros v. rewrite imageByTypeOrUrl_iff, Eu. split.
      * intros [H _]. injection H as <-. reflexivity.
      * intros ->. split; [reflexivity|left; exact Et].
    + left. exists u. split; [reflexivity|]. split; [exact El|].
      intros v. rewrite imageByTypeOrUrl_iff, Eu. split.
      * intros [H _]. injection H as <-. reflexivity.
      * intros ->. split; [reflexivity|right; exact El].
    + right. split; [|split; reflexivity].
      intros v Hv. apply imageByTypeOrUrl_iff in Hv. rewrite Eu in Hv.
      destruct Hv as [H [Ht|Hl]]; [rewrite Et in Ht; discriminate|].
      injection H as <-. congruence.
  - right. split; [|exact I].
    intros v Hv. apply imageByTypeOrUrl_iff in Hv. rewrite Eu in Hv.
    destruct Hv as [H _]. discriminate.
Qed.

(** What the body of the loop over the embeds returns is what the embed
    gives by checks (a), (b) and (c). *)
Lemma checkEmbed_gives e r : embedGives e r <-> checkEmbed e = r.
Proof.
  unfold checkEmbed, embedGives.
  destruct (byTypeOrUrl_cases (embed_url e) (embed_mimetype e))
    as [(u & Eu & Hpass & Huniq)|[Hnone Hfail]].
  - rewrite Eu.
    assert (Hret : (if isImageType (embed_mimetype e) then Some u
                    else if isLikelyImageUrl u then Some u
                         else asTruthy (embed_image e)) = Some u).
    { destruct (isImageType (embed_mimetype e)); [reflexivity|].
      rewrite Hpass. reflexivity. }
    rewrite Hret. destruct r as [v|].
    + split.
      * intros [H|[H _]]; [apply Huniq in H; subst v; reflexivity|].
        exfalso. apply (H u), Huniq. reflexivity.
      * intros H. injection H as <-. left. apply Huniq. reflexivity.
    + split; [|discriminate]. intros [H _]. exfalso. apply (H u), Huniq. reflexivity.
  - assert (Hret : match asTruthy (embed_url e) with
                   | Some url =>
                       if isImageType (embed_mimetype e) then Some url
                       else if isLikelyImageUrl url then Some url
                            else asTruthy (embed_image e)
                   | None => asTruthy (embed_image e)
                   end = asTruthy (embed_image e)).
    { destruct (asTruthy (embed_url e)) as [url|]; [|reflexivity].
      destruct Hfail as [-> ->]. reflexivity. }
    rewrite Hret. destruct r as [v|].
    + rewrite asTruthy_Some_iff. split.
      * intros [H|[_ H]]; [destruct (Hnone v H)|exact H].
      * intros H. right. split; [exact Hnone|exact H].
    + rewrite asTruthy_None_iff. split.
      * intros [_ H]. exact H.
      * intros H. split; [exact Hnone|exact H].
Qed.

(** What the body of the loop over the legacy media returns is what the
    entry gives by check (d). *)
Lemma checkMedia_gives m r : mediaGives m r <-> checkMedia m = r.
Proof.
  unfold checkMedia, mediaGives.
  destruct (byTypeOrUrl_cases (media_url m) (media_type m))
    as [(u & Eu & Hpass & Huniq)|[Hnone Hfail]].
  - rewrite Eu.
    assert (Hret : (if isImageType (media_type m) then Some u
                    else if isLikelyImageUrl u then Some u else None) = Some u).
    { destruct (isImageType (media_type m)); [reflexivity|].
      rewrite Hpass. reflexivity. }
    rewrite Hret. destruct r as [v|].
    + split.
      * intros H. apply Huniq in H. subst v. reflexivity.
      * intros H. injection H as <-. apply Huniq. reflexivity.
    + split; [|discriminate]. intros H. exfalso. apply (H u), Huniq. reflexivity.
  - assert (Hret : match asTruthy (media_url m) with
                   | Some url =>
                       if isImageType (media_type m) then Some url
                       else if isLikelyImageUrl url then Some url else None
                   | None => None
                   end = None).
    { destruct (asTruthy (media_url m)) as [url|]; [|reflexivity].
      destruct Hfail as [-> ->]. reflexivity. }
    rewrite Hret. destruct r as [v|].
    + split; [intros H; destruct (Hnone v H)|discriminate].
    + split; [reflexivity|intros _; exact Hnone].
Qed.

Lemma allGiveNothing_embeds l : allGiveNothing embedGives l <-> noneOf checkEmbed l.
Proof.
  destruct l as [xs|]; simpl; [|tauto].
  split; intros H; (eapply Forall_impl; [exact H|]); intros x Hx;
    [apply (proj1 (checkEmbed_gives x None))|apply (proj2 (checkEmbed_gives x None))]; exact Hx.
Qed.

Lemma allGiveNothing_media l : allGiveNothing mediaGives l <-> noneOf checkMedia l.
Proof.
  destruct l as [xs|]; simpl; [|tauto].
  split; intros H; (eapply Forall_impl; [exact H|]); intros x Hx;
    [apply (proj1 (checkMedia_gives x None))|apply (proj2 (checkMedia_gives x None))]; exact Hx.
Qed.

Lemma firstElement_None (l : option (list string)) :
  firstElement l = None <-> l = None \/ l = Some [].
Proof.
  destruct l as [[|u l]|]; simpl; split; try discriminate; auto.
  intros [H|H]; discriminate.
Qed.

End ImageFacts.

(** C5, as the claim states it, fails: on a cast whose first embed is a link
    with an image field and whose second embed has the MIME type image/png,
    the code returns the image field of the first embed, although check (a)
    of the stated order selects the second embed. *)
Lemma extractImageFromCast_is_embed_major :
  ImageUtils.extractImageFromCast linkThenPicture = Some "https://news.example/og.bin"
  /\ extractImageAsSpecified linkThenPicture = Some "https://cdn.example/photo".
Proof. split; vm_compute; reflexivity. Qed.

(** C5, amended: the embeds are examined one at a time, in list order, and
    the first embed that gives a result does so for the whole cast: its URL
    when the URL is not empty and (a) the declared MIME type starts with
    "image/" or (b) the URL matches the image heuristic, otherwise (c) its
    image field when that is not empty. When no embed gives a result, the
    first legacy media entry whose URL passes (a) or (b) gives it (d);
    otherwise the first element of [image_urls] (e), otherwise the first
    element of [images]; the result is absent exactly when none of these
    exists. *)
Theorem extractImageFromCast_spec (cast : FarcasterCast) :
  (forall pre e post u,
     cast_embeds cast = Some (pre ++ e :: post) ->
     Forall (fun x => embedGives x None) pre ->
     embedGives e (Some u) ->
     ImageUtils.extractImageFromCast cast = Some u)
  /\ (forall pre m post u,
        allGiveNothing embedGives (cast_embeds cast) ->
        cast_embedded_media cast = Some (pre ++ m :: post) ->
        Forall (fun x => mediaGives x None) pre ->
        mediaGives m (Some u) ->
        ImageUtils.extractImageFromCast cast = Some u)
  /\ (allGiveNothing embedGives (cast_embeds cast) ->
      allGiveNothing mediaGives (cast_embedded_media cast) ->
      ImageUtils.extractImageFromCast cast =
        match cast_image_urls cast with
        | Some (u :: _) => Some u
        | _ => match cast_images cast with
               | Some (u :: _) => Some u
               | _ => None
               end
        end)
  /\ (ImageUtils.extractImageFromCast cast = None <->
      allGiveNothing embedGives (cast_embeds cast)
      /\ allGiveNothing mediaGives (cast_embedded_media cast)
      /\ (cast_image_urls cast = None \/ cast_image_urls cast = Some [])
      /\ (cast_images cast = None \/ cast_images cast = Some [])).
Proof.
  unfold ImageUtils.extractImageFromCast.
  split; [|split; [|split; [|split]]].
  - intros pre e post u He Hpre Hu. rewrite He. simpl.
    apply checkEmbed_gives in Hu.
    assert (Hpre' : Forall (fun x => ImageUtils.checkEmbed x = None) pre)
      by (eapply Forall_impl; [exact Hpre|intros x Hx; apply (proj1 (checkEmbed_gives x None)); exact Hx]).
    rewrite (firstOf_first _ pre e post u Hpre' Hu). reflexivity.
  - intros pre m post u Hn Hm Hpre Hu.
    apply allGiveNothing_embeds, scan_None in Hn. rewrite Hn, Hm. simpl.
    apply checkMedia_gives in Hu.
    assert (Hpre' : Forall (fun x => ImageUtils.checkMedia x = None) pre)
      by (eapply Forall_impl; [exact Hpre|intros x Hx; apply (proj1 (checkMedia_gives x None)); exact Hx]).
    rewrite (firstOf_first _ pre m post u Hpre' Hu). reflexivity.
  - intros He Hm. apply allGiveNothing_embeds, scan_None in He.
    apply allGiveNothing_media, scan_None in Hm. rewrite He, Hm.
    destruct (cast_image_urls cast) as [[|u l]|]; try reflexivity;
      destruct (cast_images cast) as [[|u' l']|]; reflexivity.
  - destruct (ImageUtils.scan ImageUtils.checkEmbed _) eqn:He; [discriminate|].
    destruct (ImageUtils.scan ImageUtils.checkMedia _) eqn:Hm; [discriminate|].
    destruct (ImageUtils.firstElement (cast_image_urls cast)) eqn:Hu; [discriminate|].
    intros Hi. split; [apply allGiveNothing_embeds, scan_None; exact He|].
    split; [apply allGiveNothing_media, scan_None; exact Hm|].
    split; apply firstElement_None; assumption.
  - intros (He & Hm & Hu & Hi). apply allGiveNothing_embeds, scan_None in He.
    apply allGiveNothing_media, scan_None in Hm.
    apply firstElement_None in Hu, Hi. rewrite He, Hm, Hu, Hi. reflexivity.
Qed.

(** On the cast [linkThenPicture] the first embed has a URL that passes
    neither (a) nor (b) and an image field, so the first clause of C5 gives
    its image field. *)
Lemma extractImageFromCast_spec_witness :
  ImageUtils.extractImageFromCast linkThenPicture = Some "https://news.example/og.bin".
Proof.
  apply (proj1 (extractImageFromCast_spec linkThenPicture))
    with (pre := []) (e := {| embed_url := Some "https://news.example/post";
                              embed_image := Some "https://news.example/og.bin";
                              embed_mimetype := Some "text/html" |})
         (post := [ {| embed_url := Some "https://cdn.example/photo";
                       embed_image := None;
                       embed_mimetype := Some "image/png" |} ]).
  - reflexivity.
  - constructor.
  - apply checkEmbed_gives. vm_compute. reflexivity.
Defined.

(* ===================================================================== *)
(** ** Traces *)
(* ===================================================================== *)

Section TraceFacts.

Context {A B : Type}.

Lemma result_bind (m : M A) (k : A -> M B) :
  result (bind m k) = match result m with Ok a => result (k a) | Throw e => Throw e end.
Proof. unfold bind. destruct (result m); reflexivity. Qed.

Lemma trace_bind (m : M A) (k : A -> M B) :
  trace (bind m k) = match result m with Ok a => trace m ++ trace (k a) | Throw _ => trace m end.
Proof. unfold bind. destruct (result m); reflexivity. Qed.

Lemma result_tryCatch (m : M A) (h : Thrown -> M A) :
  result (tryCatch m h) = match result m with Ok a => Ok a | Throw e => result (h e) end.
Proof. unfold tryCatch. destruct (result m) eqn:E; [exact E|reflexivity]. Qed.

Lemma trace_tryCatch (m : M A) (h : Thrown -> M A) :
  trace (tryCatch m h) =
  match result m with Ok _ => trace m | Throw e => trace m ++ trace (h e) end.
Proof. unfold tryCatch. destruct (result m); reflexivity. Qed.

Lemma result_ret (a : A) : result (ret a) = Ok a.
Proof. reflexivity. Qed.

Lemma trace_ret (a : A) : trace (ret a) = [].
Proof. reflexivity. Qed.

Lemma result_throw (e : Thrown) : result (throw e : M A) = Throw e.
Proof. reflexivity. Qed.

Lemma trace_throw (e : Thrown) : trace (throw e : M A) = [].
Proof. reflexivity. Qed.

Lemma result_call (ev : Event) (r : Res A) : result (call ev r) = r.
Proof. reflexivity. Qed.

Lemma trace_call (ev : Event) (r : Res A) : trace (call ev r) = [ev].
Proof. reflexivity. Qed.

Lemma performs_bind (P : Event -> Prop) (m : M A) (k : A -> M B) :
  performs P m -> (forall a, performs P (k a)) -> performs P (bind m k).
Proof.
  unfold performs. intros Hm Hk. rewrite trace_bind.
  destruct (result m); [apply Forall_app; split; [exact Hm|apply Hk]|exact Hm].
Qed.

Lemma performs_bind_ok (P : Event -> Prop) (m : M A) (k : A -> M B) :
  performs P m -> (forall a, result m = Ok a -> performs P (k a)) -> performs P (bind m k).
Proof.
  unfold performs. intros Hm Hk. rewrite trace_bind.
  destruct (result m) as [a|e]; [apply Forall_app; split; [exact Hm|apply Hk; reflexivity]|exact Hm].
Qed.

Lemma performs_tryCatch (P : Event -> Prop) (m : M A) (h : Thrown -> M A) :
  performs P m -> (forall e, performs P (h e)) -> performs P (tryCatch m h).
Proof.
  unfold performs. intros Hm Hh. rewrite trace_tryCatch.
  destruct (result m); [exact Hm|apply Forall_app; split; [exact Hm|apply Hh]].
Qed.

Lemma performs_ret (P : Event -> Prop) (a : A) : performs P (ret a).
Proof. constructor. Qed.

Lemma performs_throw (P : Event -> Prop) (e : Thrown) : performs P (throw e : M A).
Proof. constructor. Qed.

Lemma performs_call (P : Event -> Prop) (ev : Event) (r : Res A) :
  P ev -> performs P (call ev r).
Proof. intros H. constructor; [exact H|constructor]. Qed.

Lemma performs_weaken (P Q : Event -> Prop) (m : M A) :
  (forall ev, P ev -> Q ev) -> performs P m -> performs Q m.
Proof. unfold performs. intros H Hm. eapply Forall_impl; [exact Hm|exact H]. Qed.

Lemma performs_omap (P : Event -> Prop) (f : Event -> option B) (m : M A) :
  (forall ev, P ev -> f ev = None) -> performs P m -> omap f (trace m) = [].
Proof.
  unfold performs. intros H Hm. induction Hm as [|ev tr Hev _ IH]; [reflexivity|].
  simpl. rewrite (H ev Hev). exact IH.
Qed.

End TraceFacts.

Lemma performs_emit (P : Event -> Prop) (ev : Event) : P ev -> performs P (emit ev).
Proof. intros H. constructor; [exact H|constructor]. Qed.

Lemma result_emit (ev : Event) : result (emit ev) = Ok tt.
Proof. reflexivity. Qed.

Lemma trace_emit (ev : Event) : trace (emit ev) = [ev].
Proof. reflexivity. Qed.

Create Rewrite HintDb run.

#[global] Hint Rewrite @result_bind @trace_bind @result_tryCatch @trace_tryCatch
  @result_ret @trace_ret @result_throw @trace_throw @result_call @trace_call
  result_emit trace_emit : run.

(** One step through the structure of a computation. *)
Ltac performs_step :=
  first
    [ apply performs_ret
    | apply performs_throw
    | apply performs_emit; first [exact I | reflexivity]
    | apply performs_call; first [exact I | reflexivity]
    | apply performs_bind; [|intros ?]
    | apply performs_tryCatch; [|intros ?]
    | match goal with
      | |- performs _ (match ?x with _ => _ end) => destruct x
      | |- performs _ (if ?b then _ else _) => destruct b
      end ].

(* ===================================================================== *)
(** ** Metadata validation and the retry loop of createCoin (C1, C7) *)
(* ===================================================================== *)

Lemma fetchGateways_performs w gs fetched :
  performs fetchOrLog (Zora.fetchGateways w gs fetched).
Proof.
  revert fetched. induction gs as [|g gs IH]; intros fetched; cbn [Zora.fetchGateways].
  - apply performs_ret.
  - repeat performs_step; apply IH.
Qed.

Lemma fetchGateways_returns w gs fetched :
  exists b, result (Zora.fetchGateways w gs fetched) = Ok b.
Proof.
  revert fetched. induction gs as [|g gs IH]; intros fetched; cbn [Zora.fetchGateways].
  - exists fetched. reflexivity.
  - rewrite result_bind, result_emit.
    destruct (axios_get w g) as [response|error].
    + destruct (status response =? 200)%Z; [|apply IH].
      destruct (data response) as [metadata|]; [|apply IH].
      destruct (Zora.missingField metadata); [|exists true; reflexivity].
      rewrite result_bind, result_emit. apply IH.
    + rewrite result_bind, result_emit. apply IH.
Qed.

(** Validation only fetches and logs. *)
Lemma validateMetadataURI_performs w uri :
  performs fetchOrLog (Zora.validateMetadataURI w uri).
Proof.
  unfold Zora.validateMetadataURI.
  repeat performs_step; apply fetchGateways_performs.
Qed.

(** An IPFS URI with a CID of at least 10 characters always validates. *)
Lemma validateMetadataURI_ipfs w uri :
  Js.startsWith "ipfs://" uri = true ->
  (10 <= String.length (Js.sliceFrom 7 uri))%nat ->
  result (Zora.validateMetadataURI w uri) = Ok true.
Proof.
  intros Hi Hl. unfold Zora.validateMetadataURI. rewrite Hi. cbn [negb andb].
  destruct (String.length (Js.sliceFrom 7 uri) <? 10)%nat eqn:E;
    [apply Nat.ltb_lt in E; lia|].
  rewrite result_bind.
  destruct (fetchGateways_returns w (Zora.gateways w (Js.sliceFrom 7 uri)) false) as [b ->].
  rewrite result_bind. destruct b; reflexivity.
Qed.

Lemma tryCatch_rethrow {A : Type} (m : M A) : tryCatch m (fun e => throw e) = m.
Proof.
  destruct m as [[a|e] tr]; unfold tryCatch; cbn [result trace]; [reflexivity|].
  rewrite trace_throw, app_nil_r. reflexivity.
Qed.

(** Outside dry-run mode and after a validation that returns, [createCoin]
    is the validation followed by the retry loop. *)
Lemma createCoin_reaches_loop w params b :
  DRY_RUN w = false ->
  result (Zora.validateMetadataURI w (param_uri params)) = Ok b ->
  result (Zora.createCoin w params) = result (Zora.attempts w params Zora.maxRetries 1 None)
  /\ trace (Zora.createCoin w params) =
       trace (Zora.validateMetadataURI w (param_uri params))
       ++ trace (Zora.attempts w params Zora.maxRetries 1 None).
Proof.
  intros Hd Hv. unfold Zora.createCoin. rewrite tryCatch_rethrow, Hd. cbn [negb].
  autorewrite with run. rewrite Hv. autorewrite with run. rewrite app_nil_r.
  split; reflexivity.
Qed.

(** A validation that throws stops [createCoin] before the SDK is called. *)
Lemma createCoin_blocked w params e :
  DRY_RUN w = false ->
  result (Zora.validateMetadataURI w (param_uri params)) = Throw e ->
  result (Zora.createCoin w params) = Throw (ErrorObj ("Invalid metadata: " +:+ errorMessage e))
  /\ issuanceAttempts (trace (Zora.createCoin w params)) = [].
Proof.
  intros Hd Hv. unfold Zora.createCoin. rewrite tryCatch_rethrow, Hd. cbn [negb].
  autorewrite with run. rewrite Hv. autorewrite with run. split; [reflexivity|].
  unfold issuanceAttempts. rewrite omap_app.
  rewrite (performs_omap fetchOrLog _ (Zora.validateMetadataURI w (param_uri params)));
    [reflexivity| |apply validateMetadataURI_performs].
  intros [] H; try reflexivity; destruct H.
Qed.

(** The outcome and the steps of the retry loop, by the answers of the SDK. *)
Lemma attempts_table w params :
  let outcome k := sdk_createCoin w k params in
  let run := Zora.attempts w params Zora.maxRetries 1 None in
  (result run, retrySteps (trace run)) =
  match outcome 1%nat with
  | Ok r => (Ok r, [Attempt 1])
  | Throw e1 =>
      if isPropagationError e1 then
        match outcome 2%nat with
        | Ok r => (Ok r, [Attempt 1; Wait 5000; Attempt 2])
        | Throw e2 =>
            if isPropagationError e2 then
              match outcome 3%nat with
              | Ok r => (Ok r, [Attempt 1; Wait 5000; Attempt 2; Wait 10000; Attempt 3])
              | Throw e3 =>
                  (Throw e3,
                   if isPropagationError e3
                   then [Attempt 1; Wait 5000; Attempt 2; Wait 10000; Attempt 3; Wait 20000]
                   else [Attempt 1; Wait 5000; Attempt 2; Wait 10000; Attempt 3])
              end
            else (Throw e2, [Attempt 1; Wait 5000; Attempt 2])
        end
      else (Throw e1, [Attempt 1])
  end.
Proof.
  cbv zeta. unfold Zora.maxRetries, isPropagationError. cbn [Zora.attempts].
  destruct (sdk_createCoin w 1 params) as [r1|e1]; [reflexivity|].
  destruct (Js.includes _ (errorMessage e1)); [|reflexivity].
  destruct (sdk_createCoin w 2 params) as [r2|e2]; [reflexivity|].
  destruct (Js.includes _ (errorMessage e2)); [|reflexivity].
  destruct (sdk_createCoin w 3 params) as [r3|e3]; [reflexivity|].
  destruct (Js.includes _ (errorMessage e3)); reflexivity.
Qed.

(** C1, as the claim states it, fails: when all three attempts fail with a
    propagation error, the delay of 20 seconds comes after the third and last
    attempt, so it does not stand between two attempts. *)
Lemma createCoin_last_wait_is_trailing :
  retrySteps (trace (Zora.createCoin neverPropagates (sampleParams ipfsUri)))
  = [Attempt 1; Wait 5000; Attempt 2; Wait 10000; Attempt 3; Wait 20000]
  /\ waitsBetweenAttempts
       (retrySteps (trace (Zora.createCoin neverPropagates (sampleParams ipfsUri)))) = false.
Proof. split; vm_compute; reflexivity. Qed.

(** C1, amended: in every call of [createCoin] that reaches the issuance SDK
    (outside dry-run mode, after a validation that returns), the SDK is
    called at most three times; a failure whose message says that the
    metadata has not propagated is followed by a delay of 5 seconds after the
    first attempt, 10 after the second and 20 after the third, the first two
    delays by a further attempt and the third by rethrowing the last error;
    the first success is returned, and a failure with any other message is
    rethrown at once, with no further attempt and no delay. *)
Theorem createCoin_retry_schedule (w : World) (params : CoinCreationParams) (b : bool) :
  DRY_RUN w = false ->
  result (Zora.validateMetadataURI w (param_uri params)) = Ok b ->
  let run := Zora.createCoin w params in
  let outcome k := sdk_createCoin w k params in
  let failedBefore k :=
    forall j, (1 <= j < k)%nat -> exists e, outcome j = Throw e /\ isPropagationError e = true in
  (forall k r, (1 <= k <= 3)%nat -> failedBefore k -> outcome k = Ok r ->
     result run = Ok r /\ retrySteps (trace run) = schedule (k - 1) ++ [Attempt k])
  /\ (forall k e, (1 <= k <= 3)%nat -> failedBefore k ->
        outcome k = Throw e -> isPropagationError e = false ->
        result run = Throw e /\ retrySteps (trace run) = schedule (k - 1) ++ [Attempt k])
  /\ (forall e, failedBefore 3%nat -> outcome 3%nat = Throw e -> isPropagationError e = true ->
        result run = Throw e
        /\ retrySteps (trace run)
           = [Attempt 1; Wait 5000; Attempt 2; Wait 10000; Attempt 3; Wait 20000]).
Proof.
  intros Hd Hv run outcome failedBefore.
  destruct (createCoin_reaches_loop w params b Hd Hv) as [Hr Ht].
  assert (Hsteps : retrySteps (trace run)
                   = retrySteps (trace (Zora.attempts w params Zora.maxRetries 1 None))).
  { subst run. rewrite Ht. unfold retrySteps. rewrite omap_app.
    rewrite (performs_omap fetchOrLog _ (Zora.validateMetadataURI w (param_uri params)));
      [reflexivity| |apply validateMetadataURI_performs].
    intros [] H; try reflexivity; destruct H. }
  pose proof (attempts_table w params) as T. cbv zeta in T.
  fold run in Hr. rewrite <- Hr, <- Hsteps in T. clear Hr Hsteps Ht.
  assert (Hcase : forall k, (1 <= k <= 3)%nat -> k = 1%nat \/ k = 2%nat \/ k = 3%nat) by (intros; lia).
  split; [|split].
  - intros k r Hk Hb Ho. destruct (Hcase k Hk) as [Hk1 | [Hk1 | Hk1]]; subst k.
    + unfold outcome in Ho. rewrite Ho in T. injection T as Hres Hst. rewrite Hres, Hst. split; reflexivity.
    + destruct (Hb 1%nat ltac:(lia)) as (e1 & H1 & P1).
      unfold outcome in *. rewrite H1, P1, Ho in T. injection T as Hres Hst. rewrite Hres, Hst. split; reflexivity.
    + destruct (Hb 1%nat ltac:(lia)) as (e1 & H1 & P1).
      destruct (Hb 2%nat ltac:(lia)) as (e2 & H2 & P2).
      unfold outcome in *. rewrite H1, P1, H2, P2, Ho in T. injection T as Hres Hst. rewrite Hres, Hst. split; reflexivity.
  - intros k e Hk Hb Ho Hp. destruct (Hcase k Hk) as [Hk1 | [Hk1 | Hk1]]; subst k.
    + unfold outcome in Ho. rewrite Ho, Hp in T. injection T as Hres Hst. rewrite Hres, Hst. split; reflexivity.
    + destruct (Hb 1%nat ltac:(lia)) as (e1 & H1 & P1).
      unfold outcome in *. rewrite H1, P1, Ho, Hp in T. injection T as Hres Hst. rewrite Hres, Hst. split; reflexivity.
    + destruct (Hb 1%nat ltac:(lia)) as (e1 & H1 & P1).
      destruct (Hb 2%nat ltac:(lia)) as (e2 & H2 & P2).
      unfold outcome in *. rewrite H1, P1, H2, P2, Ho, Hp in T. injection T as Hres Hst. rewrite Hres, Hst. split; reflexivity.
  - intros e Hb Ho Hp.
    destruct (Hb 1%nat ltac:(lia)) as (e1 & H1 & P1).
    destruct (Hb 2%nat ltac:(lia)) as (e2 & H2 & P2).
    unfold outcome in *. rewrite H1, P1, H2, P2, Ho, Hp in T. injection T as Hres Hst. rewrite Hres, Hst. split; reflexivity.
Qed.

(** C1 at a run whose first two attempts fail with a propagation error and
    whose third attempt succeeds. *)
Lemma createCoin_retry_schedule_witness :
  result (Zora.createCoin propagatesAtThird (sampleParams ipfsUri)) = Ok sampleCoin
  /\ retrySteps (trace (Zora.createCoin propagatesAtThird (sampleParams ipfsUri)))
     = [Attempt 1; Wait 5000; Attempt 2; Wait 10000; Attempt 3].
Proof.
  assert (Hv : result (Zora.validateMetadataURI propagatesAtThird (param_uri (sampleParams ipfsUri)))
               = Ok true) by (vm_compute; reflexivity).
  apply (proj1 (createCoin_retry_schedule propagatesAtThird (sampleParams ipfsUri) true
                  eq_refl Hv) 3%nat sampleCoin).
  - lia.
  - intros j Hj. exists notPropagated.
    assert (Hj' : j = 1%nat \/ j = 2%nat) by lia.
    destruct Hj' as [Hj1 | Hj1]; subst j; split; vm_compute; reflexivity.
  - reflexivity.
Defined.

Lemma missingField_complete metadata :
  Zora.missingField metadata = None <-> complete metadata = true.
Proof.
  unfold Zora.missingField, complete.
  destruct (Js.truthy (md_name metadata)), (Js.truthy (md_description metadata)),
    (Js.truthy (md_image metadata)); simpl; split; intros H; congruence.
Qed.

Lemma attempts_first w params remaining k lastError :
  exists rest,
    trace (Zora.attempts w params (S remaining) k lastError) = ECreateCoin k params :: rest.
Proof.
  cbn [Zora.attempts]. rewrite trace_bind, result_emit, trace_emit.
  eexists. reflexivity.
Qed.

(** An http(s) URI whose fetch fails, or whose document lacks a field, does
    not validate. *)
Lemma validateMetadataURI_http w uri :
  Js.startsWith "ipfs://" uri = false ->
  Js.startsWith "http://" uri = true \/ Js.startsWith "https://" uri = true ->
  invalidAnswer (axios_get w uri) ->
  exists m, result (Zora.validateMetadataURI w uri) = Throw (ErrorObj m).
Proof.
  intros Hi Hh Hbad. unfold Zora.validateMetadataURI. rewrite Hi.
  replace (negb false && negb (Js.startsWith "http://" uri)
           && negb (Js.startsWith "https://" uri)) with false
    by (destruct Hh as [-> | ->]; simpl; rewrite ?andb_false_r; reflexivity).
  autorewrite with run. unfold invalidAnswer in Hbad.
  destruct (axios_get w uri) as [response|error].
  - destruct (data response) as [metadata|]; autorewrite with run.
    + destruct (Zora.missingField metadata) as [m|] eqn:E.
      * autorewrite with run. eexists. reflexivity.
      * apply missingField_complete in E. congruence.
    + eexists. reflexivity.
  - destruct error; autorewrite with run; eexists; reflexivity.
Qed.

(** C7, as the claim states it, fails: with the metadata behind an https
    URL that cannot be fetched, outside dry-run mode, [createCoin] throws
    "Invalid metadata" and the SDK, which would have succeeded, is never
    called. *)
Lemma createCoin_blocked_by_validation :
  DRY_RUN offline = false
  /\ invalidAnswer (axios_get offline endpointUri)
  /\ result (Zora.createCoin offline (sampleParams endpointUri))
     = Throw (ErrorObj "Invalid metadata: Failed to fetch metadata: timeout of 5000ms exceeded")
  /\ issuanceAttempts (trace (Zora.createCoin offline (sampleParams endpointUri))) = [].
Proof. repeat split; vm_compute; reflexivity. Qed.

(** A URI with none of the three schemes does not validate. *)
Lemma validateMetadataURI_scheme w uri :
  Js.startsWith "ipfs://" uri = false ->
  Js.startsWith "http://" uri = false ->
  Js.startsWith "https://" uri = false ->
  result (Zora.validateMetadataURI w uri)
  = Throw (ErrorObj "URI must start with ipfs://, http://, or https://").
Proof.
  intros H1 H2 H3. unfold Zora.validateMetadataURI. rewrite H1, H2, H3. reflexivity.
Qed.

(** An IPFS URI with a CID of fewer than 10 characters does not validate. *)
Lemma validateMetadataURI_short w uri :
  Js.startsWith "ipfs://" uri = true ->
  (String.length (Js.sliceFrom 7 uri) < 10)%nat ->
  result (Zora.validateMetadataURI w uri) = Throw (ErrorObj "Invalid IPFS CID format").
Proof.
  intros Hi Hl. unfold Zora.validateMetadataURI. rewrite Hi. cbn [negb andb].
  apply Nat.ltb_lt in Hl. rewrite Hl. reflexivity.
Qed.

(** C7, amended: outside dry-run mode, for an ASCII metadata URI of the form
    ipfs://CID with a CID of at least 10 characters, a gateway that cannot be
    reached or a document that lacks a field is only logged: validation
    performs fetches and log lines only, returns true, and the issuance SDK
    is called. Every other failure blocks the issuance: a validation that
    throws makes [createCoin] throw "Invalid metadata: " followed by the
    message, before the SDK is called; and validation throws for an http(s)
    URI that is not fetchable or whose document lacks name, description or
    image, for a URI with none of the three schemes, and for an IPFS URI
    whose CID has fewer than 10 characters. *)
Theorem validation_blocks_unless_ipfs (w : World) (params : CoinCreationParams) :
  DRY_RUN w = false ->
  (isAscii (param_uri params) ->
   Js.startsWith "ipfs://" (param_uri params) = true ->
   (10 <= String.length (Js.sliceFrom 7 (param_uri params)))%nat ->
   performs fetchOrLog (Zora.validateMetadataURI w (param_uri params))
   /\ result (Zora.validateMetadataURI w (param_uri params)) = Ok true
   /\ exists rest, issuanceAttempts (trace (Zora.createCoin w params)) = 1%nat :: rest)
  /\ (forall e, result (Zora.validateMetadataURI w (param_uri params)) = Throw e ->
        result (Zora.createCoin w params)
        = Throw (ErrorObj ("Invalid metadata: " +:+ errorMessage e))
        /\ issuanceAttempts (trace (Zora.createCoin w params)) = [])
  /\ (Js.startsWith "ipfs://" (param_uri params) = false ->
      Js.startsWith "http://" (param_uri params) = true
      \/ Js.startsWith "https://" (param_uri params) = true ->
      invalidAnswer (axios_get w (param_uri params)) ->
      exists m, result (Zora.validateMetadataURI w (param_uri params)) = Throw (ErrorObj m)
                /\ result (Zora.createCoin w params)
                   = Throw (ErrorObj ("Invalid metadata: " +:+ m))
                /\ issuanceAttempts (trace (Zora.createCoin w params)) = [])
  /\ (Js.startsWith "ipfs://" (param_uri params) = false ->
      Js.startsWith "http://" (param_uri params) = false ->
      Js.startsWith "https://" (param_uri params) = false ->
      result (Zora.validateMetadataURI w (param_uri params))
      = Throw (ErrorObj "URI must start with ipfs://, http://, or https://")
      /\ result (Zora.createCoin w params)
         = Throw (ErrorObj
                    "Invalid metadata: URI must start with ipfs://, http://, or https://")
      /\ issuanceAttempts (trace (Zora.createCoin w params)) = [])
  /\ (isAscii (param_uri params) ->
      Js.startsWith "ipfs://" (param_uri params) = true ->
      (String.length (Js.sliceFrom 7 (param_uri params)) < 10)%nat ->
      result (Zora.validateMetadataURI w (param_uri params))
      = Throw (ErrorObj "Invalid IPFS CID format")
      /\ result (Zora.createCoin w params)
         = Throw (ErrorObj "Invalid metadata: Invalid IPFS CID format")
      /\ issuanceAttempts (trace (Zora.createCoin w params)) = []).
Proof.
  intros Hd. split; [|split; [|split; [|split]]].
  - intros _ Hi Hl.
    pose proof (validateMetadataURI_ipfs w (param_uri params) Hi Hl) as Hv.
    split; [apply validateMetadataURI_performs|]. split; [exact Hv|].
    destruct (createCoin_reaches_loop w params true Hd Hv) as [_ Ht].
    destruct (attempts_first w params 2 1 None) as [rest Hrest].
    rewrite Ht. unfold issuanceAttempts. rewrite omap_app.
    rewrite (performs_omap fetchOrLog _ (Zora.validateMetadataURI w (param_uri params)));
      [| |apply validateMetadataURI_performs].
    + unfold Zora.maxRetries. rewrite Hrest. simpl. eexists. reflexivity.
    + intros [] H; try reflexivity; destruct H.
  - intros e Hv. apply createCoin_blocked; assumption.
  - intros Hi Hh Hbad.
    destruct (validateMetadataURI_http w (param_uri params) Hi Hh Hbad) as [m Hv].
    exists m. split; [exact Hv|]. apply (createCoin_blocked w params (ErrorObj m) Hd Hv).
  - intros H1 H2 H3.
    pose proof (validateMetadataURI_scheme w (param_uri params) H1 H2 H3) as Hv.
    split; [exact Hv|]. apply (createCoin_blocked w params _ Hd Hv).
  - intros _ Hi Hl.
    pose proof (validateMetadataURI_short w (param_uri params) Hi Hl) as Hv.
    split; [exact Hv|]. apply (createCoin_blocked w params _ Hd Hv).
Qed.

(** C7 at a run with an IPFS URI and no reachable gateway: the coin is
    created all the same. *)
Lemma validation_blocks_unless_ipfs_witness :
  performs fetchOrLog (Zora.validateMetadataURI offline ipfsUri)
  /\ result (Zora.validateMetadataURI offline ipfsUri) = Ok true
  /\ exists rest,
       issuanceAttempts (trace (Zora.createCoin offline (sampleParams ipfsUri))) = 1%nat :: rest.
Proof.
  apply (proj1 (validation_blocks_unless_ipfs offline (sampleParams ipfsUri) eq_refl)).
  - reflexivity.
  - reflexivity.
  - vm_compute. lia.
Defined.

(* ===================================================================== *)
(** ** The minting sequence: replies and ledger rows (C2) *)
(* ===================================================================== *)

Lemma attempts_performs w params remaining k lastError :
  performs (zoraEvent params) (Zora.attempts w params remaining k lastError).
Proof.
  revert k lastError. induction remaining as [|remaining IH]; intros k lastError;
    cbn [Zora.attempts].
  - apply performs_throw.
  - repeat performs_step. apply IH.
Qed.

Lemma createCoin_performs w params :
  performs (zoraEvent params) (Zora.createCoin w params).
Proof.
  unfold Zora.createCoin. rewrite tryCatch_rethrow.
  repeat performs_step; try apply attempts_performs.
  eapply performs_weaken; [|apply validateMetadataURI_performs].
  intros [] H; try exact I; destruct H.
Qed.

Lemma createCoin_replies w params : replies (trace (Zora.createCoin w params)) = [].
Proof.
  apply (performs_omap (zoraEvent params)); [|apply createCoin_performs].
  intros [] H; try reflexivity; destruct H.
Qed.

Lemma createCoin_ledgerRows w params : ledgerRows (trace (Zora.createCoin w params)) = [].
Proof.
  apply (performs_omap (zoraEvent params)); [|apply createCoin_performs].
  intros [] H; try reflexivity; destruct H.
Qed.

Lemma replies_app tr1 tr2 : replies (tr1 ++ tr2) = replies tr1 ++ replies tr2.
Proof. apply omap_app. Qed.

Lemma ledgerRows_app tr1 tr2 : ledgerRows (tr1 ++ tr2) = ledgerRows tr1 ++ ledgerRows tr2.
Proof. apply omap_app. Qed.

Lemma replies_cons ev tr :
  replies (ev :: tr) = match ev with EReply _ _ body => body :: replies tr | _ => replies tr end.
Proof. destruct ev; reflexivity. Qed.

Lemma ledgerRows_cons ev tr :
  ledgerRows (ev :: tr) =
  match ev with ELedgerInsert row => row :: ledgerRows tr | _ => ledgerRows tr end.
Proof. destruct ev; reflexivity. Qed.

Lemma replies_nil : replies [] = [].
Proof. reflexivity. Qed.

Lemma ledgerRows_nil : ledgerRows [] = [].
Proof. reflexivity. Qed.

#[global] Hint Rewrite replies_app ledgerRows_app replies_cons ledgerRows_cons
  replies_nil ledgerRows_nil createCoin_replies createCoin_ledgerRows : run.

(** Run the computation as far as the outcomes at hand determine it. *)
Ltac run_steps :=
  repeat (progress (autorewrite with run; cbn beta iota; cbn [app])).

(** The replies and the ledger rows of [executeTokenCreation], case by case. *)
Lemma executeTokenCreation_cases w decision cast imageAnalysis :
  DRY_RUN w = false ->
  let run := Agent.executeTokenCreation w decision cast imageAnalysis in
  mintingCases w cast (ImageUtils.extractImageFromCast cast)
    (Agent.unwrap (suggested_name decision)) (Agent.unwrap (suggested_symbol decision))
    Agent.failureReply (replies (trace run)) (ledgerRows (trace run)).
Proof.
  intros Hd. cbv zeta. unfold mintingCases, Agent.executeTokenCreation, Agent.tokenCreation.
  rewrite Hd. unfold Agent.reply, Agent.replyToCast, tokenParams.
  destruct (getUserEthereumAddress w (fid (cast_author cast))) as [a|e]; run_steps;
    [|split; reflexivity].
  destruct (ImageUtils.asTruthy a) as [creator|]; run_steps;
    [|split; reflexivity].
  destruct (ImageUtils.asTruthy (ImageUtils.extractImageFromCast cast)) as [url|]; run_steps;
    [|split; reflexivity].
  destruct (buildMetadataUri w _ _ url) as [uri|e]; run_steps; [|split; reflexivity].
  destruct (result (Zora.createCoin w _)) as [coin|e]; run_steps.
  - eexists. eexists. repeat split.
  - split; reflexivity.
Qed.

(** The replies and the ledger rows of [executeCastTokenCreation]. *)
Lemma executeCastTokenCreation_cases w decision cast imageUrl targetCast :
  DRY_RUN w = false ->
  let run := Agent.executeCastTokenCreation w decision cast imageUrl targetCast in
  mintingCases w cast imageUrl
    (Js.orElse (suggested_name decision) ("Cast by " +:+ username (cast_author targetCast)))
    (Js.orElse (suggested_symbol decision) "CAST")
    Agent.castFailureReply (replies (trace run)) (ledgerRows (trace run)).
Proof.
  intros Hd. cbv zeta.
  unfold mintingCases, Agent.executeCastTokenCreation, Agent.castTokenCreation.
  rewrite Hd. unfold Agent.reply, Agent.replyToCast, tokenParams.
  destruct (getUserEthereumAddress w (fid (cast_author cast))) as [a|e]; run_steps;
    [|split; reflexivity].
  destruct (ImageUtils.asTruthy a) as [creator|]; run_steps;
    [|split; reflexivity].
  destruct (ImageUtils.asTruthy imageUrl) as [url|]; run_steps; [|split; reflexivity].
  destruct (buildMetadataUri w _ _ url) as [uri|e]; run_steps; [|split; reflexivity].
  destruct (result (Zora.createCoin w _)) as [coin|e]; run_steps.
  - eexists. eexists. repeat split.
  - split; reflexivity.
Qed.

(** What the cases give: an unrecovered failure leaves the failure reply
    alone and no ledger row, and a ledger row comes from a successful
    issuance. *)
Lemma mintingCases_spec w cast imageUrl name symbol failure rs ls :
  mintingCases w cast imageUrl name symbol failure rs ls ->
  (mintingFails w cast imageUrl name symbol -> rs = [failure] /\ ls = [])
  /\ (forall row, In row ls ->
        exists coin, mintingSucceeds w cast imageUrl name symbol coin
                     /\ ls = [row] /\ token_address row = result_address coin).
Proof.
  unfold mintingCases, mintingFails, mintingSucceeds, verifiedAddress. intros C. split.
  - intros [[e He]|(creator & url & (a & Ha & Hc) & Hu & Hf)].
    + rewrite He in C. exact C.
    + rewrite Ha, Hc, Hu in C.
      destruct Hf as [[e He]|(uri & e & Hp & Hr)].
      * rewrite He in C. exact C.
      * rewrite Hp, Hr in C. exact C.
  - intros row Hin.
    destruct (getUserEthereumAddress w (fid (cast_author cast))) as [a|e];
      [|destruct C as [_ ->]; destruct Hin].
    destruct (ImageUtils.asTruthy a) as [creator|] eqn:Hc;
      [|destruct C as [_ ->]; destruct Hin].
    destruct (ImageUtils.asTruthy imageUrl) as [url|];
      [|destruct C as [_ ->]; destruct Hin].
    destruct (buildMetadataUri w name symbol url) as [uri|e] eqn:Hp;
      [|destruct C as [_ ->]; destruct Hin].
    destruct (result (Zora.createCoin w (tokenParams w name symbol uri creator)))
      as [coin|e] eqn:Hr; [|destruct C as [_ ->]; destruct Hin].
    destruct C as (body & row' & _ & -> & Haddr & _).
    destruct Hin as [<-|[]].
    exists coin. split; [|split; [reflexivity|exact Haddr]].
    exists creator, url, uri. repeat split; try assumption.
    exists a. split; [reflexivity|exact Hc].
Qed.

(** C2: in every execution of the minting sequence outside dry-run mode that
    reaches an unrecovered failure (the address lookup, the publication of
    the metadata or the token issuance throws, the latter also for a failure
    that is not a propagation error, or after the retries are exhausted), the
    replies are exactly the one fixed failure reply and no row is written to
    the ledger; and a row of the ledger is written only after a successful
    issuance, for the address that the issuance returned. This holds of the
    image sequence [executeTokenCreation] and of the post sequence
    [executeCastTokenCreation]. *)
Theorem minting_failure_one_reply_no_ledger
    (w : World) (decision : AgentDecision) (cast targetCast : FarcasterCast)
    (imageAnalysis : option ImageAnalysis) (imageUrl : option string) :
  DRY_RUN w = false ->
  (let run := Agent.executeTokenCreation w decision cast imageAnalysis in
   let image := ImageUtils.extractImageFromCast cast in
   let name := Agent.unwrap (suggested_name decision) in
   let symbol := Agent.unwrap (suggested_symbol decision) in
   (mintingFails w cast image name symbol ->
      replies (trace run) = [Agent.failureReply] /\ ledgerRows (trace run) = [])
   /\ (forall row, In row (ledgerRows (trace run)) ->
         exists coin, mintingSucceeds w cast image name symbol coin
                      /\ ledgerRows (trace run) = [row]
                      /\ token_address row = result_address coin))
  /\ (let run := Agent.executeCastTokenCreation w decision cast imageUrl targetCast in
      let name :=
        Js.orElse (suggested_name decision) ("Cast by " +:+ username (cast_author targetCast)) in
      let symbol := Js.orElse (suggested_symbol decision) "CAST" in
      (mintingFails w cast imageUrl name symbol ->
         replies (trace run) = [Agent.castFailureReply] /\ ledgerRows (trace run) = [])
      /\ (forall row, In row (ledgerRows (trace run)) ->
            exists coin, mintingSucceeds w cast imageUrl name symbol coin
                         /\ ledgerRows (trace run) = [row]
                         /\ token_address row = result_address coin)).
Proof.
  intros Hd. split; cbv zeta.
  - apply mintingCases_spec, executeTokenCreation_cases, Hd.
  - apply mintingCases_spec, executeCastTokenCreation_cases, Hd.
Qed.

(** C2 at an issuance that fails with an error other than propagation: one
    failure reply, no ledger row, and a single attempt. *)
Lemma minting_failure_one_reply_no_ledger_witness :
  replies (trace (Agent.executeTokenCreation rejecting sampleDecision pictureCast None))
  = [Agent.failureReply]
  /\ ledgerRows (trace (Agent.executeTokenCreation rejecting sampleDecision pictureCast None)) = [].
Proof.
  apply (proj1 (proj1 (minting_failure_one_reply_no_ledger rejecting sampleDecision
                         pictureCast pictureCast None None eq_refl))).
  right. exists "0xabc", "https://x/y.png". split; [|split].
  - exists (Some "0xabc"). split; reflexivity.
  - vm_compute. reflexivity.
  - right. exists ipfsUri. eexists. split; [reflexivity|]. vm_compute. reflexivity.
Defined.

(* ===================================================================== *)
(** ** The post-mint path stores no conversation (C10) *)
(* ===================================================================== *)

Lemma createCoin_notConversation w params :
  performs notConversation (Zora.createCoin w params).
Proof.
  eapply performs_weaken; [|apply createCoin_performs].
  intros [] H; try exact I; destruct H.
Qed.

Lemma processCastTokenRequest_notConversation w cast :
  performs notConversation (Agent.processCastTokenRequest w cast).
Proof.
  unfold Agent.processCastTokenRequest, Agent.analyzeCastForTokenCreation,
    Agent.executeCastTokenCreation, Agent.castTokenCreation, Agent.reply, Agent.replyToCast.
  repeat first [apply createCoin_notConversation | performs_step].
Qed.

(** C10: on the post-mint path no conversation row is written, whatever the
    collaborators answer: a run of [processInteraction] on a text that
    [isRequestToCoinCast] accepts performs no insert into [conversations]; so
    a run that writes a conversation row is a run of the regular path. The
    post-mint run of [coinThisCast] in the world [minting] creates a token
    and appends one ledger row, and writes no conversation row. *)
Theorem post_mint_stores_no_conversation :
  (forall w cast,
     CastUtils.isRequestToCoinCast (cast_text cast) = true ->
     conversationRows (trace (Agent.processInteraction w cast)) = [])
  /\ (forall w cast,
        conversationRows (trace (Agent.processInteraction w cast)) <> [] ->
        CastUtils.isRequestToCoinCast (cast_text cast) = false)
  /\ (CastUtils.isRequestToCoinCast (cast_text coinThisCast) = true
      /\ length (ledgerRows (trace (Agent.processInteraction minting coinThisCast))) = 1%nat
      /\ conversationRows (trace (Agent.processInteraction minting coinThisCast)) = []).
Proof.
  assert (H1 : forall w cast,
             CastUtils.isRequestToCoinCast (cast_text cast) = true ->
             conversationRows (trace (Agent.processInteraction w cast)) = []).
  { intros w cast H. unfold conversationRows.
    apply (performs_omap notConversation).
    - intros [] Hev; try reflexivity; destruct Hev.
    - unfold Agent.processInteraction. rewrite H.
      apply performs_tryCatch; [apply processCastTokenRequest_notConversation|].
      intros e. apply performs_emit. exact I. }
  split; [exact H1|split].
  - intros w cast Hne.
    destruct (CastUtils.isRequestToCoinCast (cast_text cast)) eqn:E; [|reflexivity].
    exfalso. apply Hne, H1, E.
  - repeat split; vm_compute; reflexivity.
Qed.

(** C10 at the post-mint request [coinThisCast]. *)
Lemma post_mint_stores_no_conversation_witness :
  conversationRows (trace (Agent.processInteraction minting coinThisCast)) = [].
Proof.
  apply (proj1 post_mint_stores_no_conversation minting coinThisCast).
  vm_compute. reflexivity.
Defined.

(* ===================================================================== *)
(** ** One interaction, one reply *)
(* ===================================================================== *)

Section Answers.

Context {A B : Type}.

Lemma silent_of_performs (m : M A) : performs noReplyNoLedger m -> silent m.
Proof.
  intros H. split; apply (performs_omap noReplyNoLedger); try exact H;
    intros [] Hev; try reflexivity; destruct Hev.
Qed.

Lemma returns_tryCatch (m : M A) (h : Thrown -> M A) :
  (forall e, returns (h e)) -> returns (tryCatch m h).
Proof.
  intros Hh. unfold returns. rewrite result_tryCatch.
  destruct (result m) as [a|e]; [exists a; reflexivity|apply Hh].
Qed.

(** A silent prefix that returns does not change the count. *)
Lemma tally_bind (P : nat -> nat -> Prop) (m : M A) (k : A -> M B) (a : A) :
  silent m -> result m = Ok a -> tally P (k a) -> tally P (bind m k).
Proof.
  intros [Hr Hl] Ha [[b Hb] HP].
  unfold tally, returns. rewrite result_bind, trace_bind, Ha.
  autorewrite with run. rewrite Hr, Hl. cbn [app].
  split; [exists b; exact Hb|exact HP].
Qed.

(** Nor does a silent suffix that returns. *)
Lemma tally_then (P : nat -> nat -> Prop) (m : M A) (k : M B) :
  tally P m -> silent k -> returns k -> tally P (bind m (fun _ => k)).
Proof.
  intros [[a Ha] HP] [Hr Hl] [b Hb].
  unfold tally, returns. rewrite result_bind, trace_bind, Ha.
  autorewrite with run. rewrite Hr, Hl, !app_nil_r.
  split; [exists b; exact Hb|exact HP].
Qed.

(** A body that returns does not reach the handler. *)
Lemma tryCatch_returns (m : M A) (h : Thrown -> M A) : returns m -> tryCatch m h = m.
Proof. intros [a Ha]. unfold tryCatch. rewrite Ha. reflexivity. Qed.

(** A handler that answers once covers a body that throws in silence. *)
Lemma answersOnce_tryCatch (m : M A) (h : Thrown -> M A) :
  answersOnce m \/ ((exists e, result m = Throw e) /\ silent m) ->
  (forall e, answersOnce (h e)) -> answersOnce (tryCatch m h).
Proof.
  intros [Hm|[[e He] [Hr Hl]]] Hh.
  - rewrite tryCatch_returns; [exact Hm|apply Hm].
  - destruct (Hh e) as [[a Ha] HP].
    unfold answersOnce, tally, returns. rewrite result_tryCatch, trace_tryCatch, He.
    autorewrite with run. rewrite Hr, Hl. cbn [app].
    split; [exists a; exact Ha|exact HP].
Qed.

End Answers.

Lemma returns_ret {A : Type} (a : A) : returns (ret a).
Proof. exists a. reflexivity. Qed.

Lemma returns_emit ev : returns (emit ev).
Proof. exists tt. reflexivity. Qed.

Lemma answersOnce_reply cast body : answersOnce (Agent.reply cast body).
Proof. split; [apply returns_emit|split; [reflexivity|simpl; lia]]. Qed.

Lemma silent_call {A : Type} ev (r : Res A) : noReplyNoLedger ev -> silent (call ev r).
Proof. intros H. apply silent_of_performs, performs_call, H. Qed.

Lemma tally_silent {A : Type} (P : nat -> nat -> Prop) (m : M A) :
  P 0%nat 0%nat -> silent m -> returns m -> tally P m.
Proof. intros HP [H1 H2] H. split; [exact H|rewrite H1, H2; exact HP]. Qed.

Lemma once_atMostOnce r l : once r l -> atMostOnce r l.
Proof. unfold once, atMostOnce. lia. Qed.

Lemma tally_weaken {A : Type} (P Q : nat -> nat -> Prop) (m : M A) :
  (forall r l, P r l -> Q r l) -> tally P m -> tally Q m.
Proof. intros H [Hr HP]. split; [exact Hr|apply H, HP]. Qed.

Lemma mintingCases_counts w cast imageUrl name symbol failure rs ls :
  mintingCases w cast imageUrl name symbol failure rs ls ->
  length rs = 1%nat /\ (length ls <= 1)%nat.
Proof.
  unfold mintingCases.
  destruct (getUserEthereumAddress w _) as [a|e]; [|intros [-> ->]; simpl; lia].
  destruct (ImageUtils.asTruthy a); [|intros [-> ->]; simpl; lia].
  destruct (ImageUtils.asTruthy imageUrl); [|intros [-> ->]; simpl; lia].
  destruct (buildMetadataUri w name symbol _); [|intros [-> ->]; simpl; lia].
  destruct (result (Zora.createCoin w _)); [|intros [-> ->]; simpl; lia].
  intros (body & row & -> & -> & _). simpl. lia.
Qed.

Lemma executeTokenCreation_answersOnce w decision cast imageAnalysis :
  answersOnce (Agent.executeTokenCreation w decision cast imageAnalysis).
Proof.
  destruct (DRY_RUN w) eqn:Hd.
  - unfold Agent.executeTokenCreation. rewrite Hd. apply answersOnce_reply.
  - split.
    + unfold Agent.executeTokenCreation. rewrite Hd.
      apply returns_tryCatch. intros e. apply returns_emit.
    + exact (mintingCases_counts _ _ _ _ _ _ _ _
               (executeTokenCreation_cases w decision cast imageAnalysis Hd)).
Qed.

Lemma executeCastTokenCreation_answersOnce w decision cast imageUrl targetCast :
  answersOnce (Agent.executeCastTokenCreation w decision cast imageUrl targetCast).
Proof.
  destruct (DRY_RUN w) eqn:Hd.
  - unfold Agent.executeCastTokenCreation. rewrite Hd. apply answersOnce_reply.
  - split.
    + unfold Agent.executeCastTokenCreation. rewrite Hd.
      apply returns_tryCatch. intros e. apply returns_emit.
    + exact (mintingCases_counts _ _ _ _ _ _ _ _
               (executeCastTokenCreation_cases w decision cast imageUrl targetCast Hd)).
Qed.

Lemma analyzeCastForTokenCreation_quiet w targetCast :
  silent (Agent.analyzeCastForTokenCreation w targetCast)
  /\ returns (Agent.analyzeCastForTokenCreation w targetCast).
Proof.
  unfold Agent.analyzeCastForTokenCreation. cbv zeta.
  destruct (ImageUtils.asTruthy _).
  - split; [apply silent_of_performs; apply performs_ret|apply returns_ret].
  - split; [apply silent_of_performs; repeat performs_step|].
    apply returns_tryCatch. intros e. apply returns_ret.
Qed.

Lemma resolveTarget_quiet w cast :
  let resolve :=
    match ImageUtils.asTruthy (cast_parent_hash cast) with
    | Some parent =>
        tryCatch
          (bind (call (EFetchCast parent) (getCastByHash w parent))
                (fun parentCast => ret (default cast parentCast)))
          (fun _ => ret cast)
    | None => ret cast
    end in
  silent resolve /\ returns resolve.
Proof.
  cbv zeta. split.
  - apply silent_of_performs. destruct (ImageUtils.asTruthy _); repeat performs_step.
  - destruct (ImageUtils.asTruthy _); [|apply returns_ret].
    apply returns_tryCatch. intros e. apply returns_ret.
Qed.

Lemma processCastTokenRequest_answersOnce w cast :
  answersOnce (Agent.processCastTokenRequest w cast).
Proof.
  unfold Agent.processCastTokenRequest.
  destruct (resolveTarget_quiet w cast) as [Hq [target Ht]].
  eapply tally_bind; [exact Hq|exact Ht|].
  destruct (analyzeCastForTokenCreation_quiet w target) as [Ha [info Hi]].
  eapply tally_bind; [exact Ha|exact Hi|].
  apply executeCastTokenCreation_answersOnce.
Qed.

Lemma makeRegularDecision_quiet w cast imageAnalysis userContext :
  silent (Agent.makeRegularDecision w cast imageAnalysis userContext)
  /\ returns (Agent.makeRegularDecision w cast imageAnalysis userContext).
Proof.
  unfold Agent.makeRegularDecision. cbv zeta. split.
  - apply silent_of_performs. repeat performs_step.
  - apply returns_tryCatch. intros e. apply returns_ret.
Qed.

(** The regular path either answers once, or throws before any reply. *)
Lemma processRegularTokenRequest_answers w cast :
  answersOnce (Agent.processRegularTokenRequest w cast)
  \/ ((exists e, result (Agent.processRegularTokenRequest w cast) = Throw e)
      /\ silent (Agent.processRegularTokenRequest w cast)).
Proof.
  unfold Agent.processRegularTokenRequest.
  set (first := match ImageUtils.asTruthy (ImageUtils.extractImageFromCast cast) with
                | Some imageUrl =>
                    bind (call (EAnalyzeImage imageUrl) (analyzeImage w imageUrl))
                         (fun analysis => ret (Some analysis))
                | None => ret None
                end).
  assert (Hfirst : silent first)
    by (apply silent_of_performs; subst first; destruct (ImageUtils.asTruthy _);
        repeat performs_step).
  destruct (result first) as [imageAnalysis|e] eqn:E1.
  2:{ right. split; [exists e; rewrite result_bind, E1; reflexivity|].
      unfold silent. rewrite trace_bind, E1. exact Hfirst. }
  set (second := call (EUserContext (fid (cast_author cast)))
                      (getUserContext w (fid (cast_author cast)))).
  assert (Hsecond : silent second) by (apply silent_of_performs; repeat performs_step).
  destruct (result second) as [userContext|e] eqn:E2.
  2:{ right. split.
      - exists e. rewrite result_bind, E1, result_bind, E2. reflexivity.
      - destruct Hfirst as [F1 F2], Hsecond as [S1 S2].
        unfold silent. rewrite trace_bind, E1, trace_bind, E2.
        autorewrite with run. rewrite F1, F2, S1, S2. split; reflexivity. }
  left. eapply tally_bind; [exact Hfirst|exact E1|].
  eapply tally_bind; [exact Hsecond|exact E2|].
  destruct (makeRegularDecision_quiet w cast imageAnalysis userContext) as [Hq [d Hd]].
  eapply tally_bind; [exact Hq|exact Hd|].
  apply tally_then.
  - destruct (String.eqb (action d) "create_token");
      [apply executeTokenCreation_answersOnce|apply answersOnce_reply].
  - apply silent_of_performs. apply performs_emit. exact I.
  - apply returns_emit.
Qed.

(** Every interaction that reaches the agent is answered by exactly one
    reply, and writes at most one ledger row. *)
Lemma processInteraction_answersOnce w cast : answersOnce (Agent.processInteraction w cast).
Proof.
  unfold Agent.processInteraction. apply answersOnce_tryCatch.
  - destruct (CastUtils.isRequestToCoinCast (cast_text cast));
      [left; apply processCastTokenRequest_answersOnce
      |apply processRegularTokenRequest_answers].
  - intros e. apply answersOnce_reply.
Qed.

Lemma isRecentBotInteraction_quiet w cast :
  silent (BotService.isRecentBotInteraction w cast)
  /\ returns (BotService.isRecentBotInteraction w cast).
Proof.
  unfold BotService.isRecentBotInteraction. split.
  - apply silent_of_performs. repeat performs_step.
  - apply returns_tryCatch. intros e. apply returns_ret.
Qed.

(** [processCast] never throws, replies at most once and writes at most one
    ledger row. *)
Lemma processCast_atMostOnce w castHash :
  answersAtMostOnce (BotService.processCast w ∅ castHash).1.
Proof.
  unfold BotService.processCast.
  rewrite bool_decide_eq_false_2 by set_solver. cbn [fst].
  assert (Hzero : atMostOnce 0 0) by (unfold atMostOnce; lia).
  destruct (getCastByHash w castHash) as [[cast|]|e] eqn:E.
  - rewrite tryCatch_returns.
    + eapply tally_bind; [apply silent_call; exact I|apply result_call|].
      cbn beta iota.
      destruct (fid (cast_author cast) =? BOT_FID w)%Z;
        [apply tally_silent; [exact Hzero|apply silent_of_performs, performs_ret|apply returns_ret]|].
      destruct (negb (BotService.castMentionsBot w cast));
        [apply tally_silent; [exact Hzero|apply silent_of_performs, performs_ret|apply returns_ret]|].
      destruct (isRecentBotInteraction_quiet w cast) as [Hq [recent Hr]].
      eapply tally_bind; [exact Hq|exact Hr|]. cbn beta iota.
      destruct recent;
        [apply tally_silent; [exact Hzero|apply silent_of_performs, performs_ret|apply returns_ret]|].
      eapply tally_weaken; [apply once_atMostOnce|apply processInteraction_answersOnce].
    + unfold returns. rewrite result_bind, result_call.
      destruct (fid (cast_author cast) =? BOT_FID w)%Z; [apply returns_ret|].
      destruct (negb (BotService.castMentionsBot w cast)); [apply returns_ret|].
      destruct (isRecentBotInteraction_quiet w cast) as [Hq [recent Hr]].
      rewrite result_bind, Hr. destruct recent; [apply returns_ret|].
      apply processInteraction_answersOnce.
  - rewrite tryCatch_returns.
    + eapply tally_bind; [apply silent_call; exact I|apply result_call|].
      apply tally_silent; [exact Hzero|apply silent_of_performs, performs_ret|apply returns_ret].
    + unfold returns. rewrite result_bind, result_call. apply returns_ret.
  - apply tally_silent; [exact Hzero| |].
    + apply silent_of_performs. apply performs_tryCatch.
      * repeat performs_step.
      * intros e'. apply performs_tryCatch; [|intros; apply performs_ret].
        apply performs_bind_ok; [apply performs_call; exact I|].
        intros a Ha. rewrite result_call in Ha. discriminate.
    + apply returns_tryCatch. intros e'. apply returns_tryCatch. intros e''. apply returns_ret.
Qed.

(** It replies exactly once when the delivery reaches the agent. *)
Lemma processCast_answersOnce w castHash :
  reachesAgent w castHash -> answersOnce (BotService.processCast w ∅ castHash).1.
Proof.
  intros (_ & cast & E & Hbot & Hm & Hrecent).
  unfold BotService.processCast.
  rewrite bool_decide_eq_false_2 by set_solver. cbn [fst]. rewrite E.
  assert (Hinner : answersOnce
            (if (fid (cast_author cast) =? BOT_FID w)%Z then ret tt
             else if negb (BotService.castMentionsBot w cast) then ret tt
             else bind (BotService.isRecentBotInteraction w cast)
                    (fun recent : bool =>
                       if recent then ret tt else Agent.processInteraction w cast))).
  { rewrite Hbot, Hm. cbn [negb].
    eapply tally_bind; [apply isRecentBotInteraction_quiet|exact Hrecent|].
    apply processInteraction_answersOnce. }
  rewrite tryCatch_returns.
  - eapply tally_bind; [apply silent_call; exact I|apply result_call|exact Hinner].
  - unfold returns. rewrite result_bind, result_call. apply Hinner.
Qed.

(* ===================================================================== *)
(** ** The cooldown gate of the webhook (C3) *)
(* ===================================================================== *)

Section Cooldown.

Import Webhook.

Lemma cleanUp_lookup now (m : gmap string Z) h t :
  cleanUp now m !! h = Some t <-> m !! h = Some t /\ (now - 60 * 60 * 1000 <= t)%Z.
Proof.
  unfold cleanUp. cbv zeta. rewrite map_lookup_filter_Some. simpl.
  split; intros [H1 H2]; (split; [exact H1|lia]).
Qed.

(** After a delivery of [h] passes the cooldown check at time [now], the map holds
    [now] for [h]. *)
Lemma entered_lookup now (m : gmap string Z) h :
  cleanUp now (<[h := now]> m) !! h = Some now.
Proof. apply cleanUp_lookup. split; [apply lookup_insert_eq|lia]. Qed.

Lemma inCooldown_after now later (m : gmap string Z) h :
  m !! h = Some now -> (0 < now)%Z -> (later - now < COOLDOWN_MS)%Z ->
  inCooldown later m h = true.
Proof.
  intros Hm Hpos Hlt. unfold inCooldown. rewrite Hm.
  apply andb_true_iff. split.
  - apply negb_true_iff, Z.eqb_neq. lia.
  - apply Z.ltb_lt. exact Hlt.
Qed.

End Cooldown.

(** C3, as the claim states it, fails in its last part: a delivery that is
    rejected by the cooldown, or ignored for its event type, returns before
    the clean-up loop. Starting from the empty map, the post 0xold is
    delivered at 1 s and the post 0xA at 3595 s; the second delivery of 0xA
    at 3610 s is rejected, and the event of another type at 3700 s is
    ignored: after both, the entry of 0xold, by then older than one hour, is
    still in the map. *)
Lemma rejected_delivery_evicts_nothing :
  let w := serving pictureCast in
  let first := Webhook.POST w 1000 (castCreated "0xold") ∅ in
  let second := Webhook.POST w 3595000 (castCreated "0xA") first.1.2 in
  let third := Webhook.POST w 3610000 (castCreated "0xA") second.1.2 in
  let fourth :=
    Webhook.POST w 3700000
      {| Webhook.event_type := "cast.deleted"; Webhook.event_hash := "0xA" |} third.1.2 in
  first.1.1 = Webhook.completed
  /\ second.1.1 = Webhook.completed
  /\ third.1.1 = Webhook.cooldown_active
  /\ third.1.2 !! "0xold" = Some 1000%Z
  /\ (1000 < 3610000 - 60 * 60 * 1000)%Z
  /\ fourth.1.1 = Webhook.ignored_event_type
  /\ fourth.1.2 !! "0xold" = Some 1000%Z
  /\ (1000 < 3700000 - 60 * 60 * 1000)%Z.
Proof. vm_compute. repeat split; reflexivity. Qed.

(** Any service: a delivery of [h] that finds the entry of a delivery handled
    less than 30 seconds earlier is rejected at once, and an earlier delivery
    that did not end in a processing error has left that entry. *)
Lemma POST_with_duplicate
    (svc1 svc2 : option (string -> M unit)) (cooldown : gmap string Z)
    (h : string) (t1 t2 : Z) :
  cooldown !! h = None ->
  (0 < t1)%Z -> (t2 - t1 < Webhook.COOLDOWN_MS)%Z ->
  let inFlight := Webhook.cleanUp t1 (<[h := t1]> cooldown) in
  let first := Webhook.POST_with svc1 t1 (castCreated h) cooldown in
  (forall m : gmap string Z,
     m !! h = Some t1 ->
     Webhook.POST_with svc2 t2 (castCreated h) m = (Webhook.cooldown_active, m, []))
  /\ first =
     match svc1 with
     | None => (Webhook.initialization_failed, inFlight, [])
     | Some processCast =>
         match result (processCast h) with
         | Ok _ => (Webhook.completed, inFlight, trace (processCast h))
         | Throw _ =>
             (Webhook.processing_failed, delete h inFlight, trace (processCast h))
         end
     end
  /\ inFlight !! h = Some t1
  /\ (forall k t, first.1.2 !! k = Some t -> (t1 - 60 * 60 * 1000 <= t)%Z).
Proof.
  intros Hnew Hpos Hlt inFlight first.
  assert (Hfirst : first = match svc1 with
                           | None => (Webhook.initialization_failed, inFlight, [])
                           | Some processCast =>
                               match result (processCast h) with
                               | Ok _ => (Webhook.completed, inFlight, trace (processCast h))
                               | Throw _ => (Webhook.processing_failed, delete h inFlight,
                                             trace (processCast h))
                               end
                           end).
  { subst first. unfold Webhook.POST_with. simpl.
    unfold Webhook.inCooldown. rewrite Hnew. reflexivity. }
  split; [|split; [exact Hfirst|split; [apply entered_lookup|]]].
  - intros m Hm. unfold Webhook.POST_with. simpl.
    rewrite (inCooldown_after t1 t2 m h Hm Hpos Hlt). reflexivity.
  - intros k t. rewrite Hfirst.
    assert (Hin : forall k t, inFlight !! k = Some t -> (t1 - 60 * 60 * 1000 <= t)%Z)
      by (intros k' t' H; apply cleanUp_lookup in H; tauto).
    destruct svc1 as [processCast|]; [|apply Hin].
    destruct (result (processCast h)); [apply Hin|].
    simpl. intros H. apply lookup_delete_Some in H. apply (Hin k t), H.
Qed.

Lemma inCooldown_spec now (m : gmap string Z) h :
  Webhook.inCooldown now m h = true <->
  exists t, m !! h = Some t /\ t <> 0%Z /\ (now - t < Webhook.COOLDOWN_MS)%Z.
Proof.
  unfold Webhook.inCooldown. destruct (m !! h) as [t|]; split.
  - intros H. apply andb_true_iff in H. destruct H as [H1 H2].
    apply negb_true_iff, Z.eqb_neq in H1. apply Z.ltb_lt in H2. eauto.
  - intros (t' & Ht & Hn & Hlt). injection Ht as <-. apply andb_true_iff. split.
    + apply negb_true_iff, Z.eqb_neq. exact Hn.
    + apply Z.ltb_lt. exact Hlt.
  - discriminate.
  - intros (t' & Ht & _). discriminate.
Qed.

(** What a receipt does to the cooldown map, for any service: an event of
    another type and a delivery in cooldown leave it as it is and do
    nothing; every other receipt leaves no entry older than one hour, and
    keeps the younger entries of the other posts. *)
Lemma POST_with_eviction
    (svc : option (string -> M unit)) (now : Z) (event : Webhook.ZoinerWebhookEvent)
    (m : gmap string Z) :
  let r := Webhook.POST_with svc now event m in
  (r.1.1 = Webhook.ignored_event_type <-> Webhook.event_type event <> "cast.created")
  /\ (r.1.1 = Webhook.cooldown_active <->
      Webhook.event_type event = "cast.created"
      /\ exists t, m !! Webhook.event_hash event = Some t /\ t <> 0%Z
                   /\ (now - t < Webhook.COOLDOWN_MS)%Z)
  /\ (r.1.1 = Webhook.ignored_event_type \/ r.1.1 = Webhook.cooldown_active ->
      r.1.2 = m /\ r.2 = [])
  /\ (r.1.1 <> Webhook.ignored_event_type -> r.1.1 <> Webhook.cooldown_active ->
      (forall k t, r.1.2 !! k = Some t -> (now - 60 * 60 * 1000 <= t)%Z)
      /\ (forall k t, k <> Webhook.event_hash event ->
            (r.1.2 !! k = Some t <-> m !! k = Some t /\ (now - 60 * 60 * 1000 <= t)%Z))).
Proof.
  cbv zeta. unfold Webhook.POST_with.
  destruct (String.eqb (Webhook.event_type event) "cast.created") eqn:Et; cbn [negb].
  - apply String.eqb_eq in Et.
    destruct (Webhook.inCooldown now m (Webhook.event_hash event)) eqn:Ec.
    + cbn [fst snd]. apply inCooldown_spec in Ec.
      split; [split; [discriminate|intros H; contradiction]|].
      split; [split; [intros _; split; assumption|reflexivity]|].
      split; [intros _; split; reflexivity|]. intros _ H. contradiction.
    + assert (Hnot : ~ exists t, m !! Webhook.event_hash event = Some t /\ t <> 0%Z
                                 /\ (now - t < Webhook.COOLDOWN_MS)%Z)
        by (intros H; apply inCooldown_spec in H; congruence).
      set (after := Webhook.cleanUp now (<[Webhook.event_hash event := now]> m)).
      assert (Hin : forall k t, after !! k = Some t -> (now - 60 * 60 * 1000 <= t)%Z)
        by (intros k t H; apply cleanUp_lookup in H; tauto).
      assert (Hkeep : forall k t, k <> Webhook.event_hash event ->
                (after !! k = Some t <-> m !! k = Some t /\ (now - 60 * 60 * 1000 <= t)%Z)).
      { intros k t Hk. unfold after. rewrite cleanUp_lookup, lookup_insert_ne by congruence.
        reflexivity. }
      destruct svc as [processCast|];
        [destruct (result (processCast (Webhook.event_hash event)))|]; cbn [fst snd];
        (split; [split; [discriminate|intros H; contradiction]|]);
        (split; [split; [discriminate|intros [_ H]; contradiction]|]);
        (split; [intros [H|H]; discriminate|]); intros _ _.
      * split; [exact Hin|exact Hkeep].
      * split.
        -- intros k t H. apply lookup_delete_Some in H. apply (Hin k t), H.
        -- intros k t Hk. rewrite lookup_delete_ne by congruence. apply Hkeep, Hk.
      * split; [exact Hin|exact Hkeep].
  - apply String.eqb_neq in Et. cbn [fst snd].
    split; [split; [intros _; exact Et|reflexivity]|].
    split; [split; [discriminate|intros [H _]; contradiction]|].
    split; [intros _; split; reflexivity|]. intros H. contradiction.
Qed.

(** C3, amended: when the first delivery of a post hash is handled at a time
    [t1 > 0] and a second delivery of the same hash arrives less than 30
    seconds later, the second delivery is rejected with [cooldown_active]
    before the service is initialized or the cast is fetched, be the first
    still in flight (the map holds its entry) or finished: it performs no
    event and leaves the map as it is. The two deliveries together yield at
    most one reply and at most one ledger write, and exactly one reply when
    the first delivery reaches the agent. As to the eviction, for every
    receipt: an event of another type is ignored and a delivery in cooldown
    is rejected, and both leave the map as it is; every other receipt
    leaves no entry older than one hour in the map, and keeps the younger
    entries of the other posts. *)
Theorem duplicate_delivery_within_cooldown
    (w1 w2 : World) (cooldown : gmap string Z) (h : string) (t1 t2 : Z) :
  cooldown !! h = None ->
  (0 < t1)%Z -> (t2 - t1 < Webhook.COOLDOWN_MS)%Z ->
  let first := Webhook.POST w1 t1 (castCreated h) cooldown in
  let second := Webhook.POST w2 t2 (castCreated h) first.1.2 in
  second = (Webhook.cooldown_active, first.1.2, [])
  /\ (forall m : gmap string Z,
        m !! h = Some t1 ->
        Webhook.POST w2 t2 (castCreated h) m = (Webhook.cooldown_active, m, []))
  /\ (length (replies (first.2 ++ second.2)) <= 1)%nat
  /\ (length (ledgerRows (first.2 ++ second.2)) <= 1)%nat
  /\ (reachesAgent w1 h -> length (replies (first.2 ++ second.2)) = 1%nat)
  /\ (forall (w : World) (now : Z) (event : Webhook.ZoinerWebhookEvent)
             (m : gmap string Z),
        let r := Webhook.POST w now event m in
        (r.1.1 = Webhook.ignored_event_type <->
         Webhook.event_type event <> "cast.created")
        /\ (r.1.1 = Webhook.cooldown_active <->
            Webhook.event_type event = "cast.created"
            /\ exists t, m !! Webhook.event_hash event = Some t /\ t <> 0%Z
                         /\ (now - t < Webhook.COOLDOWN_MS)%Z)
        /\ (r.1.1 = Webhook.ignored_event_type \/ r.1.1 = Webhook.cooldown_active ->
            r.1.2 = m /\ r.2 = [])
        /\ (r.1.1 <> Webhook.ignored_event_type -> r.1.1 <> Webhook.cooldown_active ->
            (forall k t, r.1.2 !! k = Some t -> (now - 60 * 60 * 1000 <= t)%Z)
            /\ (forall k t, k <> Webhook.event_hash event ->
                  (r.1.2 !! k = Some t <->
                   m !! k = Some t /\ (now - 60 * 60 * 1000 <= t)%Z)))).
Proof.
  intros Hnew Hpos Hlt first second.
  destruct (POST_with_duplicate (Webhook.initializeAIBotService w1)
              (Webhook.initializeAIBotService w2) cooldown h t1 t2 Hnew Hpos Hlt)
    as (Hdup & Hfirst & Hentry & _).
  cbv zeta in Hfirst. fold (Webhook.POST w1) in Hfirst.
  fold (Webhook.POST w2) in Hdup. fold first in Hfirst.
  set (inFlight := Webhook.cleanUp t1 (<[h := t1]> cooldown)) in *.
  destruct (processCast_atMostOnce w1 h) as [[u Hu] [Hr Hl]].
  assert (Hshape : first.1.2 = inFlight
                   /\ (first.2 = [] \/ (environmentComplete w1 = true
                                        /\ first.2 = trace (BotService.processCast w1 ∅ h).1))).
  { rewrite Hfirst. unfold Webhook.initializeAIBotService.
    destruct (environmentComplete w1); [|split; [reflexivity|left; reflexivity]].
    rewrite Hu. split; [reflexivity|right; split; reflexivity]. }
  destruct Hshape as [Hmap Htrace].
  assert (Hsecond : second = (Webhook.cooldown_active, first.1.2, []))
    by (subst second; apply Hdup; rewrite Hmap; exact Hentry).
  split; [exact Hsecond|]. split; [exact Hdup|].
  rewrite Hsecond. cbn [snd]. rewrite app_nil_r.
  split; [|split; [|split]].
  - destruct Htrace as [-> |[_ ->]]; [simpl; lia|exact Hr].
  - destruct Htrace as [-> |[_ ->]]; [simpl; lia|exact Hl].
  - intros Hreach. destruct (processCast_answersOnce w1 h Hreach) as [_ [Hone _]].
    destruct Hreach as [Henv _].
    destruct Htrace as [Hnil|[_ ->]]; [|exact Hone].
    exfalso. rewrite Hfirst in Hnil. unfold Webhook.initializeAIBotService in Hnil.
    rewrite Henv, Hu in Hnil. cbn [snd] in Hnil. rewrite Hnil in Hone. discriminate.
  - intros w now event m. apply POST_with_eviction.
Qed.

(** C3 at two deliveries of the post 0xA, ten seconds apart, on an empty
    map: the second is rejected and the pair yields one reply. *)
Lemma duplicate_delivery_within_cooldown_witness :
  let first := Webhook.POST (serving pictureCast) 1000000 (castCreated "0xA") ∅ in
  let second := Webhook.POST (serving pictureCast) 1010000 (castCreated "0xA") first.1.2 in
  second = (Webhook.cooldown_active, first.1.2, [])
  /\ length (replies (first.2 ++ second.2)) = 1%nat.
Proof.
  pose proof (duplicate_delivery_within_cooldown (serving pictureCast) (serving pictureCast)
                ∅ "0xA" 1000000 1010000 (lookup_empty _) eq_refl eq_refl) as H.
  cbv zeta in *. destruct H as (H1 & _ & _ & _ & H5 & _).
  split; [exact H1|]. apply H5.
  split; [reflexivity|]. exists pictureCast.
  repeat split; vm_compute; reflexivity.
Defined.

(* ===================================================================== *)
(** ** An explicit name overrides the advisory model (C6) *)
(* ===================================================================== *)

Section ExplicitName.

Import ImageUtils.

Lemma asTruthy_orElse o n d :
  asTruthy o = Some n -> Js.orElse o d = n /\ Js.orElse (Some n) d = n.
Proof.
  destruct o as [[|c s]|]; simpl; intros H; try discriminate.
  injection H as <-. split; reflexivity.
Qed.

Lemma createCoin_namedBy w params n :
  param_name params = n -> performs (namedBy n) (Zora.createCoin w params).
Proof.
  intros H. eapply performs_weaken; [|apply createCoin_performs].
  intros [] Hev; try exact I; try destruct Hev. exact H.
Qed.

(** The target of the post-mint path carries an explicit name: the naming
    is decided without the advisory model. *)
Lemma analyzeCastForTokenCreation_explicit w targetCast n :
  asTruthy (Extract.extractExplicitName (cast_text targetCast)) = Some n ->
  Agent.analyzeCastForTokenCreation w targetCast =
  ret {| Agent.info_name := n;
         Agent.info_symbol :=
           Js.orElse (Extract.extractExplicitSymbol (cast_text targetCast))
                     (generateSymbolFromName n);
         Agent.info_description := Agent.tokenizedDescription targetCast |}.
Proof. intros H. unfold Agent.analyzeCastForTokenCreation. cbv zeta. rewrite H. reflexivity. Qed.

Lemma processCastTokenRequest_namedBy w cast n :
  asTruthy (Extract.extractExplicitName (cast_text (targetOf w cast))) = Some n ->
  performs (namedBy n) (Agent.processCastTokenRequest w cast).
Proof.
  intros H. unfold Agent.processCastTokenRequest. apply performs_bind_ok.
  - destruct (asTruthy (cast_parent_hash cast)); repeat performs_step.
  - intros target Ht.
    assert (Htarget : target = targetOf w cast).
    { unfold targetOf. destruct (asTruthy (cast_parent_hash cast)) as [parent|].
      - rewrite result_tryCatch, result_bind, result_call in Ht.
        destruct (getCastByHash w parent) as [[parentCast|]|e];
          cbn beta iota in Ht; autorewrite with run in Ht; cbn beta iota in Ht;
          autorewrite with run in Ht; injection Ht as <-; reflexivity.
      - rewrite result_ret in Ht. injection Ht as <-. reflexivity. }
    subst target. rewrite (analyzeCastForTokenCreation_explicit w _ n H).
    apply performs_bind_ok; [apply performs_ret|].
    intros info Hinfo. rewrite result_ret in Hinfo. injection Hinfo as <-.
    unfold Agent.executeCastTokenCreation, Agent.castTokenCreation, Agent.reply,
      Agent.replyToCast.
    cbn [suggested_name suggested_symbol metadata_description message Agent.info_name].
    rewrite (proj2 (asTruthy_orElse _ n _ H)).
    repeat first [apply createCoin_namedBy; reflexivity | performs_step].
Qed.

Lemma makeRegularDecision_explicit w cast imageAnalysis userContext n :
  asTruthy (Extract.extractExplicitName (cast_text cast)) = Some n ->
  exists decision,
    result (Agent.makeRegularDecision w cast imageAnalysis userContext) = Ok decision
    /\ (action decision = "create_token" -> suggested_name decision = Some n)
    /\ (forall response advised,
          callClaude w (DecisionRequest (Agent.buildContextText cast imageAnalysis userContext))
          = Ok response ->
          JSON_parse_decision w response = Some advised ->
          message decision = message advised
          /\ action decision = action advised
          /\ (action advised = "create_token" ->
              suggested_symbol decision =
                Some (Js.orElse (Extract.extractExplicitSymbol (cast_text cast))
                                (generateSymbolFromName n)))).
Proof.
  intros H. unfold Agent.makeRegularDecision. cbv zeta.
  rewrite result_tryCatch, result_bind, result_call.
  destruct (callClaude w _) as [response|e].
  - destruct (JSON_parse_decision w response) as [advised|] eqn:HP.
    + rewrite H. destruct (String.eqb (action advised) "create_token") eqn:E.
      * eexists. rewrite result_ret. split; [reflexivity|]. split.
        -- intros _. reflexivity.
        -- intros r a Hr Ha. injection Hr as <-. rewrite HP in Ha. injection Ha as <-.
           repeat split; reflexivity.
      * exists advised. rewrite result_ret. split; [reflexivity|].
        apply String.eqb_neq in E. split.
        -- intros Hact. contradiction.
        -- intros r a Hr Ha. injection Hr as <-. rewrite HP in Ha. injection Ha as <-.
           split; [reflexivity|]. split; [reflexivity|]. intros Hact. contradiction.
    + rewrite result_throw, result_ret. eexists. split; [reflexivity|]. split.
      * unfold Agent.fallbackDecision.
        destruct imageAnalysis as [ia|]; [|discriminate].
        destruct (Js.includes "coin" _ || Js.includes "token" _); [|discriminate].
        intros _. cbn [suggested_name].
        rewrite (proj1 (asTruthy_orElse _ n _ H)). reflexivity.
      * intros r a Hr Ha. injection Hr as <-. congruence.
  - rewrite result_ret. eexists. split; [reflexivity|]. split.
    + unfold Agent.fallbackDecision.
      destruct imageAnalysis as [ia|]; [|discriminate].
      destruct (Js.includes "coin" _ || Js.includes "token" _); [|discriminate].
      intros _. cbn [suggested_name].
      rewrite (proj1 (asTruthy_orElse _ n _ H)). reflexivity.
    + intros r a Hr. discriminate.
Qed.

End ExplicitName.

(** C6: when the text of the target of a post-mint request carries an
    explicit name, the naming is decided without any advisory call: the name
    is the literal one, the symbol is the explicit symbol or the one that
    [generateSymbolFromName] derives, and every publication of metadata, call
    of the issuance SDK and ledger row of the run carries that name. On the
    regular path, [makeRegularDecision] always returns a decision; when the
    text carries an explicit name, every creation decision it returns has
    that literal name, and when the advisory model answered, the reply
    message of the decision is the advisory one (and the symbol of a creation
    decision is the explicit symbol or the generated one). *)
Theorem explicit_name_overrides_advice :
  (forall w cast n,
     ImageUtils.asTruthy (Extract.extractExplicitName (cast_text (targetOf w cast))) = Some n ->
     Agent.analyzeCastForTokenCreation w (targetOf w cast) =
       ret {| Agent.info_name := n;
              Agent.info_symbol :=
                Js.orElse (Extract.extractExplicitSymbol (cast_text (targetOf w cast)))
                          (generateSymbolFromName n);
              Agent.info_description := Agent.tokenizedDescription (targetOf w cast) |}
     /\ performs (namedBy n) (Agent.processCastTokenRequest w cast))
  /\ (forall w cast imageAnalysis userContext n,
        ImageUtils.asTruthy (Extract.extractExplicitName (cast_text cast)) = Some n ->
        exists decision,
          result (Agent.makeRegularDecision w cast imageAnalysis userContext) = Ok decision
          /\ (action decision = "create_token" -> suggested_name decision = Some n)
          /\ (forall response advised,
                callClaude w
                  (DecisionRequest (Agent.buildContextText cast imageAnalysis userContext))
                = Ok response ->
                JSON_parse_decision w response = Some advised ->
                message decision = message advised
                /\ action decision = action advised
                /\ (action advised = "create_token" ->
                    suggested_symbol decision =
                      Some (Js.orElse (Extract.extractExplicitSymbol (cast_text cast))
                                      (generateSymbolFromName n))))).
Proof.
  split.
  - intros w cast n H. split.
    + apply analyzeCastForTokenCreation_explicit, H.
    + apply processCastTokenRequest_namedBy, H.
  - intros w cast imageAnalysis userContext n H.
    apply makeRegularDecision_explicit, H.
Qed.

(** C6 at the post-mint request [namedPost], in a world whose advisory model
    would propose another name. *)
Lemma explicit_name_overrides_advice_witness :
  performs (namedBy "Forest Walk") (Agent.processCastTokenRequest advising namedPost).
Proof.
  apply (proj1 explicit_name_overrides_advice advising namedPost "Forest Walk").
  vm_compute. reflexivity.
Defined.

(* ===================================================================== *)
(** ** Sanitizing of extracted names (C8) *)
(* ===================================================================== *)

Section Sanitizers.

Import ParserUtils.

Lemma allChars_removeUnsafe s : allChars isSafeChar (removeUnsafe s) = true.
Proof.
  induction s as [|c s IH]; [reflexivity|].
  simpl. destruct (isSafeChar c) eqn:E; [simpl; rewrite E; exact IH|exact IH].
Qed.

Lemma allChars_trimStart p s : allChars p s = true -> allChars p (Js.trimStart s) = true.
Proof.
  induction s as [|c s IH]; [reflexivity|].
  intros H. simpl. destruct (Js.isWhiteSpace c); [|exact H].
  apply IH. simpl in H. apply andb_true_iff in H. apply H.
Qed.

Lemma allChars_trimEnd p s : allChars p s = true -> allChars p (Js.trimEnd s) = true.
Proof.
  induction s as [|c s IH]; [reflexivity|].
  intros H. simpl in H. apply andb_true_iff in H. destruct H as [Hc Hs].
  rewrite trimEnd_cons. specialize (IH Hs).
  destruct (Js.trimEnd s).
  - destruct (Js.isWhiteSpace c); [reflexivity|]. simpl. rewrite Hc. reflexivity.
  - simpl in *. rewrite Hc. exact IH.
Qed.

Lemma allChars_slice0 p n s : allChars p s = true -> allChars p (Js.slice0 n s) = true.
Proof.
  revert s. induction n as [|n IH]; intros [|c s] H; try reflexivity.
  simpl in *. apply andb_true_iff in H. destruct H as [Hc Hs].
  rewrite Hc. apply IH, Hs.
Qed.

Lemma slice0_length n s : (String.length (Js.slice0 n s) <= n)%nat.
Proof.
  revert s. induction n as [|n IH]; intros [|c s]; simpl; try lia.
  specialize (IH s). lia.
Qed.

(** The rule-based parser sanitizes: its names hold safe characters only and
    have at most 30 characters, its symbols hold safe characters only. *)
Lemma sanitizers_spec s :
  allChars isSafeChar (sanitizeName s) = true
  /\ (String.length (sanitizeName s) <= 30)%nat
  /\ allChars isSafeChar (sanitizeSymbol s) = true.
Proof.
  unfold sanitizeName, sanitizeSymbol, Js.trim. cbv zeta. repeat split.
  - apply allChars_slice0, allChars_trimEnd, allChars_trimStart, allChars_removeUnsafe.
  - apply slice0_length.
  - apply allChars_trimEnd, allChars_trimStart, allChars_removeUnsafe.
Qed.

(** Every request that the rule-based parser returns is sanitized. *)
Lemma parseCoinCreationRequest_sanitized cast imageUrl creatorAddress request :
  parseCoinCreationRequest cast imageUrl creatorAddress = Some request ->
  allChars isSafeChar (request_name request) = true
  /\ (String.length (request_name request) <= 30)%nat
  /\ allChars isSafeChar (request_symbol request) = true.
Proof.
  unfold parseCoinCreationRequest.
  destruct (cast_text cast); [discriminate|].
  destruct imageUrl; [discriminate|]. destruct creatorAddress; [discriminate|].
  cbv zeta. intros H. injection H as <-. cbn [request_name request_symbol].
  split; [apply sanitizers_spec|split; apply sanitizers_spec].
Qed.

End Sanitizers.

(** C8 fails on the code: the extractors of the AI agent return the name as
    it was typed, here 46 characters long and with a character outside the
    class of the sanitizer, where the rule-based parser yields 30 safe
    characters for the same post; and the minting sequence of the agent
    hands the raw name to the issuance SDK and writes it to the ledger. *)
Theorem extracted_name_is_not_sanitized :
  Extract.extractExplicitName (cast_text longNameCast) = Some longName
  /\ String.length longName = 46%nat
  /\ allChars ParserUtils.isSafeChar longName = false
  /\ ParserUtils.request_name
       <$> ParserUtils.parseCoinCreationRequest longNameCast "https://x/y.png" "0xabc"
     = Some "The Quick Brown Fox Jumps Over"
  /\ issuedNames (trace (Agent.processInteraction advising longNameCast)) = [longName]
  /\ map token_name (ledgerRows (trace (Agent.processInteraction advising longNameCast)))
     = [longName].
Proof. repeat split; vm_compute; reflexivity. Qed.

(* ===================================================================== *)
(** * Further properties of the agent *)
(* ===================================================================== *)

(** The events of [createCoin] satisfy every predicate that the events of
    the issuance satisfy. *)
Lemma createCoin_only (P : Event -> Prop) w params :
  (forall ev, zoraEvent params ev -> P ev) -> performs P (Zora.createCoin w params).
Proof. intros H. eapply performs_weaken; [exact H|apply createCoin_performs]. Qed.

(** The target that [processCastTokenRequest] resolves is [targetOf]. *)
Lemma resolveTarget_targetOf w cast target :
  result (match ImageUtils.asTruthy (cast_parent_hash cast) with
          | Some parent =>
              tryCatch
                (bind (call (EFetchCast parent) (getCastByHash w parent))
                      (fun parentCast => ret (default cast parentCast)))
                (fun _ => ret cast)
          | None => ret cast
          end) = Ok target ->
  target = targetOf w cast.
Proof.
  intros Ht. unfold targetOf.
  destruct (ImageUtils.asTruthy (cast_parent_hash cast)) as [parent|].
  - rewrite result_tryCatch, result_bind, result_call in Ht.
    destruct (getCastByHash w parent) as [[parentCast|]|e];
      cbn beta iota in Ht; autorewrite with run in Ht; cbn beta iota in Ht;
      autorewrite with run in Ht; injection Ht as <-; reflexivity.
  - rewrite result_ret in Ht. injection Ht as <-. reflexivity.
Qed.

(** Walk through the structure of a computation, closing the leaves with
    [leaf] and the calls of [createCoin] with [coin]. *)
Ltac performs_walk coin leaf :=
  repeat first
    [ apply performs_ret
    | apply performs_throw
    | coin
    | apply performs_emit; leaf
    | apply performs_call; leaf
    | apply performs_bind; [|intros ?]
    | apply performs_tryCatch; [|intros ?]
    | match goal with
      | |- performs _ (match ?x with _ => _ end) => destruct x
      | |- performs _ (if ?b then _ else _) => destruct b
      end ].

Ltac unfold_agent :=
  unfold Agent.processInteraction, Agent.processCastTokenRequest,
    Agent.processRegularTokenRequest, Agent.analyzeCastForTokenCreation,
    Agent.makeRegularDecision, Agent.executeCastTokenCreation, Agent.castTokenCreation,
    Agent.executeTokenCreation, Agent.tokenCreation, Agent.storeConversation,
    Agent.reply, Agent.replyToCast.

(** X1: Every interaction is answered: [processInteraction] never throws, sends
    exactly one reply and writes at most one ledger row, whatever the
    collaborators answer. *)
Theorem processInteraction_replies_once (w : World) (cast : FarcasterCast) :
  (exists u, result (Agent.processInteraction w cast) = Ok u)
  /\ length (replies (trace (Agent.processInteraction w cast))) = 1%nat
  /\ (length (ledgerRows (trace (Agent.processInteraction w cast))) <= 1)%nat.
Proof.
  destruct (processInteraction_answersOnce w cast) as [Hr [H1 H2]].
  split; [exact Hr|split; [exact H1|exact H2]].
Qed.

(** X2: The agent acts for the requester alone: every reply answers the post of
    the request, also when the post of somebody else is tokenized; the
    address and the context looked up are the requester's; the ledger and
    the conversation rows carry the requester and the text of the request. *)
Theorem processInteraction_addresses_requester (w : World) (cast : FarcasterCast) :
  performs (addressedTo cast) (Agent.processInteraction w cast).
Proof.
  unfold_agent.
  performs_walk
    ltac:(apply createCoin_only; intros [] Hev; try exact I; destruct Hev)
    ltac:(simpl; repeat split; reflexivity).
Qed.

(** X3: In dry-run mode the agent mints nothing: it publishes and fetches no
    metadata, never calls the issuance SDK and writes no ledger row. *)
Theorem dry_run_mints_nothing (w : World) (cast : FarcasterCast) :
  DRY_RUN w = true -> performs noIssuance (Agent.processInteraction w cast).
Proof.
  intros Hd. unfold_agent. rewrite Hd.
  performs_walk fail ltac:(exact I).
Qed.

(** Dry-run mode at the image request [pictureCast]. *)
Lemma dry_run_mints_nothing_witness :
  performs noIssuance (Agent.processInteraction dryRun pictureCast).
Proof. apply (dry_run_mints_nothing dryRun pictureCast). reflexivity. Defined.

(** The issuance calls of the two minting sequences. *)
Lemma tokenCreation_pays w decision cast imageAnalysis :
  DRY_RUN w = false ->
  performs (paysRequester w cast) (Agent.tokenCreation w decision cast imageAnalysis).
Proof.
  intros Hd. unfold Agent.tokenCreation, Agent.reply, Agent.replyToCast.
  apply performs_bind_ok; [apply performs_call; exact I|].
  intros a Ha. rewrite result_call in Ha.
  destruct (ImageUtils.asTruthy a) as [creator|] eqn:Hc;
    [|performs_walk fail ltac:(exact I)].
  destruct (ImageUtils.asTruthy (ImageUtils.extractImageFromCast cast)) as [url|];
    [|performs_walk fail ltac:(exact I)].
  apply performs_bind_ok; [apply performs_call; exact I|].
  intros uri Huri. rewrite result_call in Huri.
  apply performs_bind; [|intros coin; performs_walk fail ltac:(exact I)].
  apply createCoin_only. intros [] Hev; try exact I; try contradiction.
  cbn [zoraEvent] in Hev. rewrite Hev.
  cbn [paysRequester payoutRecipient platformReferrer initialPurchaseWei param_name
         param_symbol param_uri].
  split; [exact Hd|]. split; [exists a; split; [exact Ha|exact Hc]|].
  split; [reflexivity|]. split; [reflexivity|]. exists url. exact Huri.
Qed.

Lemma castTokenCreation_pays w decision cast imageUrl targetCast :
  DRY_RUN w = false ->
  performs (paysRequester w cast)
    (Agent.castTokenCreation w decision cast imageUrl targetCast).
Proof.
  intros Hd. unfold Agent.castTokenCreation, Agent.reply, Agent.replyToCast.
  apply performs_bind_ok; [apply performs_call; exact I|].
  intros a Ha. rewrite result_call in Ha.
  destruct (ImageUtils.asTruthy a) as [creator|] eqn:Hc;
    [|performs_walk fail ltac:(exact I)].
  destruct (ImageUtils.asTruthy imageUrl) as [url|];
    [|performs_walk fail ltac:(exact I)].
  cbv zeta.
  apply performs_bind_ok; [apply performs_call; exact I|].
  intros uri Huri. rewrite result_call in Huri.
  apply performs_bind; [|intros coin; performs_walk fail ltac:(exact I)].
  apply createCoin_only. intros [] Hev; try exact I; try contradiction.
  cbn [zoraEvent] in Hev. rewrite Hev.
  cbn [paysRequester payoutRecipient platformReferrer initialPurchaseWei param_name
         param_symbol param_uri].
  split; [exact Hd|]. split; [exists a; split; [exact Ha|exact Hc]|].
  split; [reflexivity|]. split; [reflexivity|]. exists url. exact Huri.
Qed.

(** X4: Whoever asks is paid: every call of the issuance SDK that an interaction
    makes is made outside dry-run mode, with a verified Ethereum address of
    the requester as payout recipient (on the post-mint path too, where the
    post of another author may be tokenized), the platform address as
    referrer, no initial purchase, and a metadata URI that the publisher
    returned for the name and symbol of the call. *)
Theorem issuance_pays_requester (w : World) (cast : FarcasterCast) :
  performs (paysRequester w cast) (Agent.processInteraction w cast).
Proof.
  unfold Agent.processInteraction, Agent.processCastTokenRequest,
    Agent.processRegularTokenRequest, Agent.analyzeCastForTokenCreation,
    Agent.makeRegularDecision, Agent.executeCastTokenCreation,
    Agent.executeTokenCreation, Agent.storeConversation.
  destruct (DRY_RUN w) eqn:Hd.
  - unfold Agent.reply, Agent.replyToCast. performs_walk fail ltac:(exact I).
  - performs_walk
      ltac:(first [apply tokenCreation_pays; exact Hd | apply castTokenCreation_pays; exact Hd])
      ltac:(exact I).
Qed.

Lemma asTruthy_Some o u : ImageUtils.asTruthy o = Some u -> o = Some u.
Proof. destruct o as [[|c s]|]; simpl; intros H; try discriminate; exact H. Qed.

Lemma tokenCreation_records w decision cast imageAnalysis :
  imageFor w cast = ImageUtils.extractImageFromCast cast ->
  performs (recordsImage w cast) (Agent.tokenCreation w decision cast imageAnalysis).
Proof.
  intros Hi. unfold Agent.tokenCreation, Agent.reply, Agent.replyToCast.
  apply performs_bind; [apply performs_call; exact I|]. intros a.
  destruct (ImageUtils.asTruthy a) as [creator|]; [|performs_walk fail ltac:(exact I)].
  destruct (ImageUtils.asTruthy (ImageUtils.extractImageFromCast cast)) as [url|] eqn:Hu;
    [|performs_walk fail ltac:(exact I)].
  apply asTruthy_Some in Hu. rewrite <- Hi in Hu.
  performs_walk
    ltac:(apply createCoin_only; intros [] Hev; try exact I; contradiction)
    ltac:(first [exact I | exact Hu | split; [exact Hu|reflexivity]]).
Qed.

Lemma castTokenCreation_records w decision cast imageUrl targetCast :
  imageFor w cast = imageUrl ->
  performs (recordsImage w cast)
    (Agent.castTokenCreation w decision cast imageUrl targetCast).
Proof.
  intros Hi. unfold Agent.castTokenCreation, Agent.reply, Agent.replyToCast.
  apply performs_bind; [apply performs_call; exact I|]. intros a.
  destruct (ImageUtils.asTruthy a) as [creator|]; [|performs_walk fail ltac:(exact I)].
  destruct (ImageUtils.asTruthy imageUrl) as [url|] eqn:Hu;
    [|performs_walk fail ltac:(exact I)].
  apply asTruthy_Some in Hu. rewrite <- Hi in Hu. cbv zeta.
  performs_walk
    ltac:(apply createCoin_only; intros [] Hev; try exact I; contradiction)
    ltac:(first [exact I | exact Hu | split; [exact Hu|reflexivity]]).
Qed.

(** X5: The token shows what was asked for: the metadata that an interaction
    publishes and the ledger row it writes carry the image of the request,
    which is the preview of the target post on the post-mint path and the
    image extracted from the post otherwise; and the row links to the page of
    the token it records, with the platform as referrer. *)
Theorem issuance_records_image (w : World) (cast : FarcasterCast) :
  performs (recordsImage w cast) (Agent.processInteraction w cast).
Proof.
  unfold Agent.processInteraction.
  apply performs_tryCatch;
    [|intros e; unfold Agent.reply, Agent.replyToCast; apply performs_emit; exact I].
  destruct (CastUtils.isRequestToCoinCast (cast_text cast)) eqn:Hreq.
  - unfold Agent.processCastTokenRequest. apply performs_bind_ok.
    + destruct (ImageUtils.asTruthy (cast_parent_hash cast));
        performs_walk fail ltac:(exact I).
    + intros target Ht. apply resolveTarget_targetOf in Ht. subst target.
      apply performs_bind.
      * unfold Agent.analyzeCastForTokenCreation. performs_walk fail ltac:(exact I).
      * intros info. unfold Agent.executeCastTokenCreation.
        destruct (DRY_RUN w);
          [unfold Agent.reply, Agent.replyToCast; apply performs_emit; exact I|].
        apply performs_tryCatch;
          [|intros e; unfold Agent.reply, Agent.replyToCast; apply performs_emit; exact I].
        apply castTokenCreation_records. unfold imageFor. rewrite Hreq. reflexivity.
  - unfold Agent.processRegularTokenRequest, Agent.makeRegularDecision,
      Agent.executeTokenCreation, Agent.storeConversation.
    assert (Hi : imageFor w cast = ImageUtils.extractImageFromCast cast)
      by (unfold imageFor; rewrite Hreq; reflexivity).
    performs_walk
      ltac:(first [apply tokenCreation_records; exact Hi
                  |progress unfold Agent.reply, Agent.replyToCast])
      ltac:(exact I).
Qed.

(* ===================================================================== *)
(** ** The ledger row and the reply of a creation *)
(* ===================================================================== *)

Lemma endsWith_refl s : Js.endsWith s s = true.
Proof. destruct s; cbn [Js.endsWith]; rewrite String.eqb_refl; reflexivity. Qed.

Lemma endsWith_append a s t : Js.endsWith s t = true -> Js.endsWith s (a +:+ t) = true.
Proof.
  intros H. induction a as [|c a IH]; [exact H|].
  change (String c a +:+ t) with (String c (a +:+ t)). cbn [Js.endsWith].
  rewrite IH. apply orb_true_r.
Qed.

Lemma linked_no_rows tr : ledgerRows tr = [] -> linked tr.
Proof.
  intros H pre row post ->. rewrite ledgerRows_app, ledgerRows_cons in H.
  apply app_eq_nil in H. destruct H as [_ H]. discriminate.
Qed.

(** Quiet events before a linked trace. *)
Lemma linked_after tr1 tr2 :
  replies tr1 = [] -> ledgerRows tr1 = [] -> linked tr2 -> linked (tr1 ++ tr2).
Proof.
  intros Hr Hl H pre row post E.
  apply app_eq_app in E. destruct E as [l [[E1 E2]|[E1 E2]]].
  - destruct l as [|x l].
    + rewrite app_nil_r in E1. subst pre. cbn [app] in E2.
      destruct (H [] row post (eq_sym E2)) as (body & Hb & _). discriminate.
    + cbn [app] in E2. injection E2 as <- _.
      rewrite E1, ledgerRows_app, ledgerRows_cons in Hl.
      apply app_eq_nil in Hl. destruct Hl as [_ Hl]. discriminate.
  - destruct (H l row post E2) as (body & Hb & He & Hl' & Hp).
    exists body. rewrite E1, replies_app, ledgerRows_app, Hr, Hl, Hb, Hl'.
    repeat split; try reflexivity; tauto.
Qed.

(** Quiet events after a linked trace. *)
Lemma linked_before tr1 tr2 :
  linked tr1 -> replies tr2 = [] -> ledgerRows tr2 = [] -> linked (tr1 ++ tr2).
Proof.
  intros H Hr Hl pre row post E.
  apply app_eq_app in E. destruct E as [l [[E1 E2]|[E1 E2]]].
  - destruct l as [|x l].
    + cbn [app] in E2. rewrite <- E2, ledgerRows_cons in Hl. discriminate.
    + cbn [app] in E2. injection E2 as <- ->.
      destruct (H pre row l E1) as (body & Hb & He & Hl' & Hp & Hq).
      exists body. rewrite replies_app, ledgerRows_app, Hr, Hl, Hp, Hq.
      repeat split; assumption.
  - rewrite E2, ledgerRows_app, ledgerRows_cons in Hl.
    apply app_eq_nil in Hl. destruct Hl as [_ Hl]. discriminate.
Qed.

(** A reply that ends with the link, followed by the row. *)
Lemma linked_pair parentFid parentHash body row :
  Js.endsWith (zora_url row) body = true ->
  linked [EReply parentFid parentHash body; ELedgerInsert row].
Proof.
  intros He pre row' post E.
  destruct pre as [|x [|y pre]]; cbn [app] in E.
  - discriminate.
  - injection E as <- <- <-. exists body. repeat split. exact He.
  - injection E as _ _ E. destruct pre; discriminate.
Qed.

Lemma linked_prefix {A B : Type} (m : M A) (k : A -> M B) a :
  silent m -> result m = Ok a -> linked (trace (k a)) -> linked (trace (bind m k)).
Proof.
  intros [Hr Hl] Ha H. rewrite trace_bind, Ha. apply linked_after; assumption.
Qed.

Lemma linked_suffix {A B : Type} (m : M A) (k : A -> M B) :
  linked (trace m) -> (forall a, silent (k a)) -> linked (trace (bind m k)).
Proof.
  intros H Hk. rewrite trace_bind.
  destruct (result m) as [a|e]; [|exact H].
  destruct (Hk a) as [Hr Hl]. apply linked_before; assumption.
Qed.

Lemma linked_tryCatch {A : Type} (m : M A) (h : Thrown -> M A) :
  linked (trace m) ->
  (forall e, result m = Throw e -> ledgerRows (trace m) = []) ->
  (forall e, ledgerRows (trace (h e)) = []) ->
  linked (trace (tryCatch m h)).
Proof.
  intros H Hm Hh. rewrite trace_tryCatch.
  destruct (result m) as [a|e]; [exact H|].
  apply linked_no_rows. rewrite ledgerRows_app, (Hm e eq_refl), Hh. reflexivity.
Qed.

Lemma tokenCreation_linked w decision cast imageAnalysis :
  linked (trace (Agent.tokenCreation w decision cast imageAnalysis)).
Proof.
  unfold Agent.tokenCreation, Agent.reply, Agent.replyToCast.
  destruct (getUserEthereumAddress w (fid (cast_author cast))) as [a|e];
    [|apply linked_no_rows; run_steps; reflexivity].
  eapply linked_prefix; [apply silent_call; exact I|apply result_call|].
  destruct (ImageUtils.asTruthy a) as [creator|];
    [|apply linked_no_rows; run_steps; reflexivity].
  destruct (ImageUtils.asTruthy (ImageUtils.extractImageFromCast cast)) as [url|];
    [|apply linked_no_rows; run_steps; reflexivity].
  cbv zeta.
  destruct (buildMetadataUri w _ _ url) as [uri|e];
    [|apply linked_no_rows; run_steps; reflexivity].
  eapply linked_prefix; [apply silent_call; exact I|apply result_call|].
  match goal with
  | |- context [Zora.createCoin w ?params] =>
      destruct (result (Zora.createCoin w params)) as [coin|e] eqn:Ec
  end; [|apply linked_no_rows; run_steps; rewrite ?Ec; run_steps; reflexivity].
  eapply linked_prefix;
    [split; [apply createCoin_replies|apply createCoin_ledgerRows]|exact Ec|].
  run_steps. apply linked_pair. cbn [zora_url].
  repeat apply endsWith_append. apply endsWith_refl.
Qed.

Lemma tokenCreation_throws w decision cast imageAnalysis e :
  result (Agent.tokenCreation w decision cast imageAnalysis) = Throw e ->
  ledgerRows (trace (Agent.tokenCreation w decision cast imageAnalysis)) = [].
Proof.
  unfold Agent.tokenCreation, Agent.reply, Agent.replyToCast.
  destruct (getUserEthereumAddress w (fid (cast_author cast))) as [a|e']; run_steps;
    [|reflexivity].
  destruct (ImageUtils.asTruthy a) as [creator|]; run_steps; [|reflexivity].
  destruct (ImageUtils.asTruthy (ImageUtils.extractImageFromCast cast)) as [url|]; run_steps;
    [|reflexivity].
  destruct (buildMetadataUri w _ _ url) as [uri|e']; run_steps; [|reflexivity].
  destruct (result (Zora.createCoin w _)) as [coin|e']; run_steps;
    [discriminate|reflexivity].
Qed.

Lemma executeTokenCreation_linked w decision cast imageAnalysis :
  linked (trace (Agent.executeTokenCreation w decision cast imageAnalysis)).
Proof.
  unfold Agent.executeTokenCreation.
  destruct (DRY_RUN w); [apply linked_no_rows; reflexivity|].
  apply linked_tryCatch;
    [apply tokenCreation_linked|intros e; apply tokenCreation_throws|reflexivity].
Qed.

Lemma castTokenCreation_linked w decision cast imageUrl targetCast :
  linked (trace (Agent.castTokenCreation w decision cast imageUrl targetCast)).
Proof.
  unfold Agent.castTokenCreation, Agent.reply, Agent.replyToCast.
  destruct (getUserEthereumAddress w (fid (cast_author cast))) as [a|e];
    [|apply linked_no_rows; run_steps; reflexivity].
  eapply linked_prefix; [apply silent_call; exact I|apply result_call|].
  destruct (ImageUtils.asTruthy a) as [creator|];
    [|apply linked_no_rows; run_steps; reflexivity].
  destruct (ImageUtils.asTruthy imageUrl) as [url|];
    [|apply linked_no_rows; run_steps; reflexivity].
  cbv zeta.
  destruct (buildMetadataUri w _ _ url) as [uri|e];
    [|apply linked_no_rows; run_steps; reflexivity].
  eapply linked_prefix; [apply silent_call; exact I|apply result_call|].
  match goal with
  | |- context [Zora.createCoin w ?params] =>
      destruct (result (Zora.createCoin w params)) as [coin|e] eqn:Ec
  end; [|apply linked_no_rows; run_steps; rewrite ?Ec; run_steps; reflexivity].
  eapply linked_prefix;
    [split; [apply createCoin_replies|apply createCoin_ledgerRows]|exact Ec|].
  run_steps. apply linked_pair. cbn [zora_url].
  repeat apply endsWith_append. apply endsWith_refl.
Qed.

Lemma castTokenCreation_throws w decision cast imageUrl targetCast e :
  result (Agent.castTokenCreation w decision cast imageUrl targetCast) = Throw e ->
  ledgerRows (trace (Agent.castTokenCreation w decision cast imageUrl targetCast)) = [].
Proof.
  unfold Agent.castTokenCreation, Agent.reply, Agent.replyToCast.
  destruct (getUserEthereumAddress w (fid (cast_author cast))) as [a|e']; run_steps;
    [|reflexivity].
  destruct (ImageUtils.asTruthy a) as [creator|]; run_steps; [|reflexivity].
  destruct (ImageUtils.asTruthy imageUrl) as [url|]; run_steps; [|reflexivity].
  destruct (buildMetadataUri w _ _ url) as [uri|e']; run_steps; [|reflexivity].
  destruct (result (Zora.createCoin w _)) as [coin|e']; run_steps;
    [discriminate|reflexivity].
Qed.

Lemma executeCastTokenCreation_linked w decision cast imageUrl targetCast :
  linked (trace (Agent.executeCastTokenCreation w decision cast imageUrl targetCast)).
Proof.
  unfold Agent.executeCastTokenCreation.
  destruct (DRY_RUN w); [apply linked_no_rows; reflexivity|].
  apply linked_tryCatch;
    [apply castTokenCreation_linked|intros e; apply castTokenCreation_throws|reflexivity].
Qed.

Lemma processRegularTokenRequest_linked w cast :
  linked (trace (Agent.processRegularTokenRequest w cast)).
Proof.
  destruct (processRegularTokenRequest_answers w cast) as [[[u Hu] _]|[_ [_ Hl]]];
    [|apply linked_no_rows; exact Hl].
  revert Hu. unfold Agent.processRegularTokenRequest.
  set (first := match ImageUtils.asTruthy (ImageUtils.extractImageFromCast cast) with
                | Some imageUrl =>
                    bind (call (EAnalyzeImage imageUrl) (analyzeImage w imageUrl))
                         (fun analysis => ret (Some analysis))
                | None => ret None
                end).
  assert (Hfirst : silent first)
    by (apply silent_of_performs; subst first; destruct (ImageUtils.asTruthy _);
        repeat performs_step).
  intros Hu. rewrite result_bind in Hu.
  destruct (result first) as [imageAnalysis|e] eqn:E1; [|discriminate].
  eapply linked_prefix; [exact Hfirst|exact E1|].
  rewrite result_bind, result_call in Hu.
  destruct (getUserContext w (fid (cast_author cast))) as [userContext|e] eqn:E2;
    [|discriminate].
  eapply linked_prefix; [apply silent_call; exact I|apply result_call|].
  destruct (makeRegularDecision_quiet w cast imageAnalysis userContext) as [Hq [d Hd]].
  eapply linked_prefix; [exact Hq|exact Hd|].
  apply linked_suffix.
  - destruct (String.eqb (action d) "create_token");
      [apply executeTokenCreation_linked|apply linked_no_rows; reflexivity].
  - intros _. apply silent_of_performs. apply performs_emit. exact I.
Qed.

(** X6: The books match the answer: whenever an interaction writes a ledger
    row, exactly one reply has been sent before it, and that reply ends with
    the link to the token page that the row records; nothing is said after
    the row, and it is the only row. *)
Theorem ledger_row_links_reply (w : World) (cast : FarcasterCast) :
  linked (trace (Agent.processInteraction w cast)).
Proof.
  unfold Agent.processInteraction. apply linked_tryCatch.
  - destruct (CastUtils.isRequestToCoinCast (cast_text cast)).
    + unfold Agent.processCastTokenRequest.
      destruct (resolveTarget_quiet w cast) as [Hq [target Ht]].
      eapply linked_prefix; [exact Hq|exact Ht|].
      destruct (analyzeCastForTokenCreation_quiet w target) as [Ha [info Hi]].
      eapply linked_prefix; [exact Ha|exact Hi|].
      apply executeCastTokenCreation_linked.
    + apply processRegularTokenRequest_linked.
  - intros e He.
    destruct (CastUtils.isRequestToCoinCast (cast_text cast)).
    + destruct (processCastTokenRequest_answersOnce w cast) as [[u Hu] _]. congruence.
    + destruct (processRegularTokenRequest_answers w cast) as [[[u Hu] _]|[_ [_ Hl]]];
        [congruence|exact Hl].
  - intros e. reflexivity.
Qed.

(** The reply and the ledger row of a creation in the world [minting]. *)
Lemma ledger_row_links_reply_witness :
  exists pre row post body,
    trace (Agent.processInteraction minting pictureCast) = pre ++ ELedgerInsert row :: post
    /\ replies pre = [body]
    /\ Js.endsWith (zora_url row) body = true
    /\ replies post = [].
Proof.
  assert (Hin : exists row,
             In (ELedgerInsert row) (trace (Agent.processInteraction minting pictureCast)))
    by (vm_compute; eexists; repeat (first [left; reflexivity|right])).
  destruct Hin as [row Hin]. apply in_split in Hin. destruct Hin as (pre & post & Hsplit).
  destruct (ledger_row_links_reply minting pictureCast pre row post Hsplit)
    as (body & Hb & He & _ & Hp & _).
  exists pre, row, post, body. repeat split; assumption.
Defined.

(* ===================================================================== *)
(** ** The conversation memory *)
(* ===================================================================== *)

Lemma conversationRows_app tr1 tr2 :
  conversationRows (tr1 ++ tr2) = conversationRows tr1 ++ conversationRows tr2.
Proof. apply omap_app. Qed.

Lemma conversationRows_cons ev tr :
  conversationRows (ev :: tr) =
  match ev with
  | EConversationInsert row => row :: conversationRows tr
  | _ => conversationRows tr
  end.
Proof. destruct ev; reflexivity. Qed.

Lemma conversationRows_nil : conversationRows [] = [].
Proof. reflexivity. Qed.

#[global] Hint Rewrite conversationRows_app conversationRows_cons conversationRows_nil : run.






(* ===================================================================== *)
(** ** The service in front of the agent *)
(* ===================================================================== *)

Lemma processCast_fresh w (processedCasts : gset string) h :
  h ∉ processedCasts ->
  BotService.processCast w processedCasts h
  = ((BotService.processCast w ∅ h).1, {[h]} ∪ processedCasts).
Proof.
  intros Hn. unfold BotService.processCast.
  rewrite (bool_decide_eq_false_2 _ Hn).
  rewrite (bool_decide_eq_false_2 (h ∈ (∅ : gset string))) by apply not_elem_of_empty.
  reflexivity.
Qed.

Lemma processCast_seen w (processedCasts : gset string) h :
  h ∈ processedCasts -> BotService.processCast w processedCasts h = (ret tt, processedCasts).
Proof.
  intros Hin. unfold BotService.processCast. rewrite bool_decide_eq_true_2 by exact Hin.
  reflexivity.
Qed.

(** The body of [processCast] returns when the cast is fetched. *)
Lemma processCast_body_returns w cast :
  returns
    (if (fid (cast_author cast) =? BOT_FID w)%Z then ret tt
     else if negb (BotService.castMentionsBot w cast) then ret tt
     else bind (BotService.isRecentBotInteraction w cast)
            (fun recent : bool => if recent then ret tt else Agent.processInteraction w cast)).
Proof.
  destruct (fid (cast_author cast) =? BOT_FID w)%Z; [apply returns_ret|].
  destruct (negb (BotService.castMentionsBot w cast)); [apply returns_ret|].
  destruct (isRecentBotInteraction_quiet w cast) as [_ [recent Hr]].
  unfold returns. rewrite result_bind, Hr. destruct recent; [apply returns_ret|].
  apply processInteraction_answersOnce.
Qed.

(** X8: No answer to itself, to bystanders or to the unknown: a delivery whose
    post was already processed by the instance, cannot be fetched, is the
    bot's own, does not mention the bot, or replies to the bot within ten
    seconds, makes [processCast] do nothing but fetch casts: no reply, no
    advisory call, no lookup, no issuance, no row. *)
Theorem processCast_drops (w : World) (processedCasts : gset string) (h : string) :
  h ∈ processedCasts \/ dropped w h ->
  performs onlyFetches (BotService.processCast w processedCasts h).1.
Proof.
  intros [Hin|Hd]; [rewrite (processCast_seen w _ h Hin); apply performs_ret|].
  destruct (decide (h ∈ processedCasts)) as [Hin|Hn];
    [rewrite (processCast_seen w _ h Hin); apply performs_ret|].
  rewrite (processCast_fresh w _ h Hn). cbn [fst].
  unfold BotService.processCast.
  rewrite (bool_decide_eq_false_2 (h ∈ (∅ : gset string))) by apply not_elem_of_empty.
  cbn [fst]. unfold dropped in Hd.
  destruct (getCastByHash w h) as [[cast|]|e] eqn:E.
  - rewrite tryCatch_returns.
    + apply performs_bind_ok; [apply performs_call; exact I|].
      intros a Ha. rewrite result_call in Ha. injection Ha as <-. cbn beta iota.
      destruct (fid (cast_author cast) =? BOT_FID w)%Z eqn:Hbot; [apply performs_ret|].
      destruct (BotService.castMentionsBot w cast) eqn:Hm; [|apply performs_ret].
      destruct Hd as [Hd|[Hd|Hd]];
        [apply Z.eqb_neq in Hbot; contradiction|discriminate|].
      cbn [negb]. apply performs_bind_ok.
      * unfold BotService.isRecentBotInteraction. performs_walk fail ltac:(exact I).
      * intros recent Hr. rewrite Hd in Hr. injection Hr as <-. apply performs_ret.
    + unfold returns. rewrite result_bind, result_call. apply processCast_body_returns.
  - performs_walk fail ltac:(exact I).
  - apply performs_tryCatch; [performs_walk fail ltac:(exact I)|].
    intros e'. apply performs_tryCatch; [|intros; apply performs_ret].
    apply performs_bind_ok; [apply performs_call; exact I|].
    intros a Ha. rewrite result_call in Ha. discriminate.
Qed.

(** A post of the bot itself is dropped. *)
Lemma processCast_drops_witness :
  performs onlyFetches (BotService.processCast (serving ownCast) ∅ "0xE").1.
Proof.
  apply (processCast_drops (serving ownCast) ∅ "0xE").
  right. unfold dropped. left. reflexivity.
Defined.

Lemma difference_cons_seen (h : string) (hs : list string) (seen : gset string) :
  h ∈ seen -> list_to_set (h :: hs) ∖ seen = (list_to_set hs ∖ seen : gset string).
Proof.
  intros Hin. apply set_eq. intros x.
  rewrite !elem_of_difference, !elem_of_list_to_set, elem_of_cons.
  split; [intros [[-> | Hx] Hn]; [contradiction|split; assumption]|].
  intros [Hx Hn]. split; [right; exact Hx|exact Hn].
Qed.

Lemma difference_cons_fresh (h : string) (hs : list string) (seen : gset string) :
  h ∉ seen ->
  list_to_set (h :: hs) ∖ seen
  = ({[h]} ∪ list_to_set hs ∖ ({[h]} ∪ seen) : gset string).
Proof.
  intros Hn. apply set_eq. intros x.
  rewrite elem_of_union, !elem_of_difference, !elem_of_list_to_set, elem_of_cons,
    elem_of_union, elem_of_singleton.
  destruct (decide (x = h)) as [->|Hx].
  - split; [intros _; left; reflexivity|intros _; split; [left; reflexivity|exact Hn]].
  - split.
    + intros [[Heq|Hin] Hs]; [contradiction|].
      right. split; [exact Hin|]. intros [Heq|Hs']; contradiction.
    + intros [Heq|[Hin Hs]]; [contradiction|].
      split; [right; exact Hin|]. intros Hs'. apply Hs. right. exact Hs'.
Qed.

Lemma difference_fresh_disjoint (h : string) (hs : list string) (seen : gset string) :
  ({[h]} : gset string) ## list_to_set hs ∖ ({[h]} ∪ seen).
Proof.
  apply elem_of_disjoint. intros x Hx Hd.
  apply elem_of_difference in Hd. destruct Hd as [_ Hd]. apply Hd.
  apply elem_of_union. left. exact Hx.
Qed.

Lemma difference_empty (hs : list string) :
  list_to_set hs ∖ ∅ = (list_to_set hs : gset string).
Proof.
  apply set_eq. intros x. rewrite elem_of_difference.
  split; [intros [Hx _]; exact Hx|intros Hx; split; [exact Hx|apply not_elem_of_empty]].
Qed.

Lemma deliveries_bound w (processedCasts : gset string) hs :
  (length (replies (deliveries w processedCasts hs))
   <= size (list_to_set hs ∖ processedCasts : gset string))%nat
  /\ (length (ledgerRows (deliveries w processedCasts hs))
      <= size (list_to_set hs ∖ processedCasts : gset string))%nat.
Proof.
  revert processedCasts. induction hs as [|h hs IH]; intros processedCasts.
  - simpl. split; lia.
  - cbn [deliveries]. cbv zeta.
    destruct (decide (h ∈ processedCasts)) as [Hin|Hn].
    + rewrite (processCast_seen w _ h Hin). cbn [fst snd]. rewrite trace_ret. cbn [app].
      rewrite (difference_cons_seen h hs _ Hin). apply IH.
    + rewrite (processCast_fresh w _ h Hn). cbn [fst snd].
      rewrite replies_app, ledgerRows_app, !length_app.
      destruct (processCast_atMostOnce w h) as [_ [Hr Hl]].
      destruct (IH ({[h]} ∪ processedCasts)) as [IHr IHl].
      rewrite (difference_cons_fresh h hs _ Hn).
      rewrite size_union by apply difference_fresh_disjoint.
      rewrite size_singleton. split; lia.
Qed.

(** X9: One instance, one answer per post: over any sequence of deliveries
    handled by one service instance, the replies sent and the ledger rows
    written are at most as many as the distinct post hashes delivered, however
    often each hash is repeated. *)
Theorem deliveries_reply_once_per_post (w : World) (hs : list string) :
  (length (replies (deliveries w ∅ hs)) <= size (list_to_set hs : gset string))%nat
  /\ (length (ledgerRows (deliveries w ∅ hs)) <= size (list_to_set hs : gset string))%nat.
Proof.
  pose proof (deliveries_bound w ∅ hs) as H.
  rewrite difference_empty in H. exact H.
Qed.

(* ===================================================================== *)
(** ** The webhook route *)
(* ===================================================================== *)

(** X10: The route never reports a processing failure: [processCast] catches
    every error, so the branch that answers [processing_failed] and takes
    the post out of the cooldown map is never taken; a delivery that is
    processed answers [completed] and leaves the post in the map with the
    time of the delivery. *)
Theorem POST_never_fails_processing
    (w : World) (now : Z) (event : Webhook.ZoinerWebhookEvent) (cooldown : gmap string Z) :
  (Webhook.POST w now event cooldown).1.1 <> Webhook.processing_failed
  /\ ((Webhook.POST w now event cooldown).1.1 = Webhook.completed ->
      (Webhook.POST w now event cooldown).1.2 !! Webhook.event_hash event = Some now).
Proof.
  unfold Webhook.POST, Webhook.POST_with, Webhook.initializeAIBotService.
  destruct (negb (String.eqb (Webhook.event_type event) "cast.created"));
    [split; [discriminate|discriminate]|].
  destruct (Webhook.inCooldown now cooldown (Webhook.event_hash event));
    [split; [discriminate|discriminate]|].
  destruct (environmentComplete w); [|split; [discriminate|discriminate]].
  destruct (processCast_atMostOnce w (Webhook.event_hash event)) as [[u Hu] _].
  rewrite Hu. cbn [fst snd]. split; [discriminate|]. intros _. apply entered_lookup.
Qed.

(** A processed delivery in the world [minting]. *)
Lemma POST_never_fails_processing_witness :
  (Webhook.POST minting 1000000 (castCreated "0xA") ∅).1.2 !! "0xA" = Some 1000000%Z.
Proof.
  apply (proj2 (POST_never_fails_processing minting 1000000 (castCreated "0xA") ∅)).
  reflexivity.
Defined.

(** X11: The cooldown is all there is: the route builds a new service for every
    delivery, so the set of processed casts never outlives a delivery; once
    the 30 seconds have passed, a second delivery of the same post is
    processed again, and a post that reaches the agent is answered a second
    time. *)
Theorem redelivery_after_cooldown
    (w : World) (cooldown : gmap string Z) (h : string) (t1 t2 : Z) :
  cooldown !! h = None ->
  (Webhook.COOLDOWN_MS <= t2 - t1)%Z ->
  reachesAgent w h ->
  let first := Webhook.POST w t1 (castCreated h) cooldown in
  let second := Webhook.POST w t2 (castCreated h) first.1.2 in
  first.1.1 = Webhook.completed
  /\ second.1.1 = Webhook.completed
  /\ length (replies first.2) = 1%nat
  /\ length (replies second.2) = 1%nat.
Proof.
  intros Hnew Hlate Hreach first second.
  destruct (processCast_answersOnce w h Hreach) as [[u Hu] [Hone _]].
  destruct Hreach as [Henv _].
  assert (Hfirst : first = (Webhook.completed,
                            Webhook.cleanUp t1 (<[h := t1]> cooldown),
                            trace (BotService.processCast w ∅ h).1)).
  { subst first. unfold Webhook.POST, Webhook.POST_with, Webhook.initializeAIBotService.
    cbn [castCreated Webhook.event_type Webhook.event_hash String.eqb negb].
    unfold Webhook.inCooldown. rewrite Hnew, Henv, Hu. reflexivity. }
  assert (Hsecond : second.1.1 = Webhook.completed
                    /\ second.2 = trace (BotService.processCast w ∅ h).1).
  { subst second. rewrite Hfirst. cbn [fst snd].
    unfold Webhook.POST, Webhook.POST_with, Webhook.initializeAIBotService.
    cbn [castCreated Webhook.event_type Webhook.event_hash String.eqb negb].
    unfold Webhook.inCooldown. rewrite entered_lookup.
    replace (t2 - t1 <? Webhook.COOLDOWN_MS)%Z with false
      by (symmetry; apply Z.ltb_ge; exact Hlate).
    rewrite andb_false_r, Henv, Hu. split; reflexivity. }
  destruct Hsecond as [Hs1 Hs2].
  rewrite Hs2, Hfirst. cbn [fst snd].
  split; [reflexivity|]. split; [exact Hs1|]. split; exact Hone.
Qed.

(** Two deliveries of the post 0xA, forty seconds apart. *)
Lemma redelivery_after_cooldown_witness :
  let first := Webhook.POST (serving pictureCast) 1000000 (castCreated "0xA") ∅ in
  let second := Webhook.POST (serving pictureCast) 1040000 (castCreated "0xA") first.1.2 in
  length (replies first.2) = 1%nat /\ length (replies second.2) = 1%nat.
Proof.
  assert (Hreach : reachesAgent (serving pictureCast) "0xA").
  { split; [reflexivity|]. exists pictureCast. repeat split; vm_compute; reflexivity. }
  pose proof (redelivery_after_cooldown (serving pictureCast) ∅ "0xA" 1000000 1040000
                (lookup_empty _) ltac:(vm_compute; discriminate) Hreach) as H.
  cbv zeta in *. destruct H as (_ & _ & H1 & H2). split; [exact H1|exact H2].
Defined.

(* ===================================================================== *)
(** ** What createCoin throws *)
(* ===================================================================== *)

(** X12: Where the errors of [createCoin] come from: in dry-run mode it throws
    nothing and performs nothing, returning the simulated result; outside it,
    every error it throws is either a validation error, prefixed with
    "Invalid metadata: " and thrown before any call of the SDK, or the very
    error that the SDK threw at one of the three attempts. The message
    "Failed to create coin after multiple attempts" is never thrown. *)
Theorem createCoin_error_provenance (w : World) (params : CoinCreationParams) :
  (DRY_RUN w = true ->
   result (Zora.createCoin w params) = Ok Zora.simulated
   /\ trace (Zora.createCoin w params) = [])
  /\ (forall e,
        result (Zora.createCoin w params) = Throw e ->
        (exists m, e = ErrorObj ("Invalid metadata: " +:+ m)
                   /\ issuanceAttempts (trace (Zora.createCoin w params)) = [])
        \/ (exists n, (1 <= n <= 3)%nat /\ sdk_createCoin w n params = Throw e)).
Proof.
  split.
  - intros Hd. unfold Zora.createCoin. rewrite tryCatch_rethrow, Hd. cbn [negb].
    split; reflexivity.
  - intros e He. destruct (DRY_RUN w) eqn:Hd.
    + exfalso. revert He. unfold Zora.createCoin. rewrite tryCatch_rethrow, Hd.
      cbn [negb]. discriminate.
    + destruct (result (Zora.validateMetadataURI w (param_uri params))) as [b|ev] eqn:Hv.
      * right. destruct (createCoin_reaches_loop w params b Hd Hv) as [Hr _].
        rewrite Hr in He. pose proof (attempts_table w params) as Ht. cbv zeta in Ht.
        rewrite He in Ht.
        destruct (sdk_createCoin w 1 params) as [r1|e1] eqn:E1; [discriminate|].
        destruct (isPropagationError e1);
          [|injection Ht as -> _; exists 1%nat; split; [lia|exact E1]].
        destruct (sdk_createCoin w 2 params) as [r2|e2] eqn:E2; [discriminate|].
        destruct (isPropagationError e2);
          [|injection Ht as -> _; exists 2%nat; split; [lia|exact E2]].
        destruct (sdk_createCoin w 3 params) as [r3|e3] eqn:E3; [discriminate|].
        injection Ht as -> _. exists 3%nat. split; [lia|exact E3].
      * left. destruct (createCoin_blocked w params ev Hd Hv) as [Hr Hi].
        rewrite Hr in He. injection He as <-.
        exists (errorMessage ev). split; [reflexivity|exact Hi].
Qed.

(** The error of [createCoin] in the world [rejecting] is the error of the
    SDK. *)
Lemma createCoin_error_provenance_witness :
  exists n, (1 <= n <= 3)%nat
            /\ sdk_createCoin rejecting n (sampleParams ipfsUri)
               = Throw (ErrorObj "insufficient funds for gas").
Proof.
  destruct (proj2 (createCoin_error_provenance rejecting (sampleParams ipfsUri))
              (ErrorObj "insufficient funds for gas") eq_refl) as [[m [Hm _]]|H].
  - exfalso. injection Hm as Hm. revert Hm. vm_compute. discriminate.
  - exact H.
Defined.

(* ===================================================================== *)
(** ** Normal forms of names and symbols *)
(* ===================================================================== *)

Lemma upperChar_idem c : Js.upperChar (Js.upperChar c) = Js.upperChar c.
Proof. destruct c as [[] [] [] [] [] [] [] []]; reflexivity. Qed.

Lemma toUpperCase_idem s : Js.toUpperCase (Js.toUpperCase s) = Js.toUpperCase s.
Proof.
  induction s as [|c s IH]; [reflexivity|].
  cbn [Js.toUpperCase]. rewrite upperChar_idem, IH. reflexivity.
Qed.

Lemma toUpperCase_slice0 n s : Js.toUpperCase (Js.slice0 n s) = Js.slice0 n (Js.toUpperCase s).
Proof.
  revert s. induction n as [|n IH]; intros [|c s]; try reflexivity.
  cbn [Js.slice0 Js.toUpperCase]. rewrite IH. reflexivity.
Qed.

Lemma slice0_le n m s : (n <= m)%nat -> (String.length (Js.slice0 n s) <= m)%nat.
Proof. intros H. pose proof (slice0_length n s). lia. Qed.

(** X13: Names and symbols come out in normal form, on ASCII text: an
    explicit name that [extractExplicitName] returns has no white space
    around it; an explicit symbol that [extractExplicitSymbol] returns is in
    upper case; and the symbol that [generateSymbolFromName] derives from an
    ASCII name is in upper case and has at most ten characters. *)
Theorem explicit_names_are_normalised :
  (forall text name,
     isAscii text -> Extract.extractExplicitName text = Some name -> trimmed name)
  /\ (forall text symbol,
        isAscii text ->
        Extract.extractExplicitSymbol text = Some symbol -> Js.toUpperCase symbol = symbol)
  /\ (forall name,
        isAscii name ->
        Js.toUpperCase (generateSymbolFromName name) = generateSymbolFromName name
        /\ (String.length (generateSymbolFromName name) <= 10)%nat).
Proof.
  split; [|split].
  - intros text name _. apply extractExplicitName_trimmed.
  - intros text symbol _. unfold Extract.extractExplicitSymbol.
    destruct (Extract.firstMatch _ text); [|discriminate].
    intros H. injection H as <-. apply toUpperCase_idem.
  - intros name _. unfold generateSymbolFromName. cbv zeta.
    destruct (1 <? length (Js.split_ws name))%nat.
    + split; [rewrite toUpperCase_slice0, toUpperCase_idem; reflexivity|].
      apply slice0_length.
    + split; [rewrite toUpperCase_slice0, toUpperCase_idem; reflexivity|].
      apply slice0_le. lia.
Qed.

(** The explicit name of the post [namedPost]. *)
Lemma explicit_names_are_normalised_witness :
  isAscii (cast_text namedPost) /\ trimmed "Forest Walk".
Proof.
  split; [reflexivity|].
  apply (proj1 explicit_names_are_normalised (cast_text namedPost) "Forest Walk").
  - reflexivity.
  - vm_compute. reflexivity.
Defined.

(* ===================================================================== *)
(** * The rule-based bot *)
(* ===================================================================== *)

Ltac unfold_legacy :=
  unfold LegacyBot.processCoinCreationRequest, LegacyBot.replyWithUsageInstructions,
    LegacyBot.replyUnlessDryRun, Agent.reply, Agent.replyToCast.

(** X14: A dress rehearsal: in dry-run mode the rule-based bot sends no reply and
    never calls [createCoin]; it only fetches the cast and the address, and
    still publishes the metadata. *)
Theorem legacy_dry_run_is_silent
    (w : World) (processedCasts : gset string) (castHash : string) :
  DRY_RUN w = true ->
  performs rehearsal (LegacyBot.processCast w processedCasts castHash).1.
Proof.
  intros Hd. unfold LegacyBot.processCast.
  destruct (bool_decide (castHash ∈ processedCasts)); cbn [fst]; [apply performs_ret|].
  unfold_legacy. rewrite Hd. cbn [negb].
  performs_walk fail ltac:(exact I).
Qed.

(** The rehearsal of the request [pictureCast]. *)
Lemma legacy_dry_run_is_silent_witness :
  performs rehearsal (LegacyBot.processCast dryRun ∅ "0xA").1.
Proof. apply (legacy_dry_run_is_silent dryRun ∅ "0xA"). reflexivity. Defined.

(** The minting sequence of the rule-based bot, outside dry-run mode: it
    returns, with exactly one reply. *)
Lemma legacy_request_once w cast :
  DRY_RUN w = false ->
  (exists u, result (LegacyBot.processCoinCreationRequest w cast) = Ok u)
  /\ length (replies (trace (LegacyBot.processCoinCreationRequest w cast))) = 1%nat.
Proof.
  intros Hd. unfold_legacy. rewrite Hd. cbn [negb].
  destruct (ImageUtils.asTruthy (ImageUtils.extractImageFromCast cast)) as [imageUrl|];
    run_steps; [|split; [eexists; reflexivity|reflexivity]].
  destruct (getUserEthereumAddress w (fid (cast_author cast))) as [a|e]; run_steps;
    [|split; [eexists; reflexivity|reflexivity]].
  destruct (ImageUtils.asTruthy a) as [creator|]; run_steps;
    [|split; [eexists; reflexivity|reflexivity]].
  destruct (ParserUtils.parseCoinCreationRequest cast imageUrl creator) as [request|];
    run_steps; [|split; [eexists; reflexivity|reflexivity]].
  destruct (buildMetadataUri w _ _ _) as [uri|e]; run_steps;
    [|split; [eexists; reflexivity|reflexivity]].
  destruct (result (Zora.createCoin w _)) as [coin|e]; run_steps;
    split; try (eexists; reflexivity); reflexivity.
Qed.

Lemma legacy_request_quiet w cast :
  DRY_RUN w = true ->
  (exists u, result (LegacyBot.processCoinCreationRequest w cast) = Ok u)
  /\ replies (trace (LegacyBot.processCoinCreationRequest w cast)) = [].
Proof.
  intros Hd. unfold_legacy. rewrite Hd. cbn [negb].
  destruct (ImageUtils.asTruthy (ImageUtils.extractImageFromCast cast)) as [imageUrl|];
    run_steps; [|split; [eexists; reflexivity|reflexivity]].
  destruct (getUserEthereumAddress w (fid (cast_author cast))) as [a|e]; run_steps;
    [|split; [eexists; reflexivity|reflexivity]].
  destruct (ImageUtils.asTruthy a) as [creator|]; run_steps;
    [|split; [eexists; reflexivity|reflexivity]].
  destruct (ParserUtils.parseCoinCreationRequest cast imageUrl creator) as [request|];
    run_steps; [|split; [eexists; reflexivity|reflexivity]].
  destruct (buildMetadataUri w _ _ _) as [uri|e]; run_steps;
    split; try (eexists; reflexivity); reflexivity.
Qed.

(** The body of the legacy [processCast], for a cast that was fetched. *)
Lemma legacy_body_counts w cast :
  let body :=
    if (fid (cast_author cast) =? BOT_FID w)%Z then ret tt
    else if negb (BotService.castMentionsBot w cast) then ret tt
    else if negb (LegacyBot.isCoinCreationRequest (cast_text cast)) then
      (if negb (DRY_RUN w) then LegacyBot.replyWithUsageInstructions w cast else ret tt)
    else LegacyBot.processCoinCreationRequest w cast in
  (exists u, result body = Ok u)
  /\ (length (replies (trace body)) <= 1)%nat
  /\ (DRY_RUN w = false -> fid (cast_author cast) <> BOT_FID w ->
      BotService.castMentionsBot w cast = true -> length (replies (trace body)) = 1%nat).
Proof.
  cbv zeta.
  destruct (fid (cast_author cast) =? BOT_FID w)%Z eqn:Hbot.
  { split; [exists tt; reflexivity|]. split; [simpl; lia|].
    intros _ Hne _. apply Z.eqb_eq in Hbot. contradiction. }
  destruct (BotService.castMentionsBot w cast) eqn:Hm; cbn [negb].
  2:{ split; [exists tt; reflexivity|]. split; [simpl; lia|]. intros _ _ Hf. discriminate. }
  destruct (DRY_RUN w) eqn:Hd; cbn [negb].
  - destruct (LegacyBot.isCoinCreationRequest (cast_text cast)); cbn [negb].
    + destruct (legacy_request_quiet w cast Hd) as [Hr Hq].
      split; [exact Hr|]. rewrite Hq. split; [simpl; lia|]. intros Hf. discriminate.
    + split; [exists tt; reflexivity|]. split; [simpl; lia|]. intros Hf. discriminate.
  - destruct (LegacyBot.isCoinCreationRequest (cast_text cast)); cbn [negb].
    + destruct (legacy_request_once w cast Hd) as [Hr Hq].
      split; [exact Hr|]. rewrite Hq. split; [lia|]. intros _ _ _. reflexivity.
    + unfold LegacyBot.replyWithUsageInstructions, LegacyBot.replyUnlessDryRun,
        Agent.reply, Agent.replyToCast. rewrite Hd. cbn [negb].
      split; [exists tt; reflexivity|]. split; [simpl; lia|]. intros _ _ _. reflexivity.
Qed.

(** X15: The rule-based bot answers once: [processCast] never throws and sends at
    most one reply; it writes no ledger or conversation row and consults no
    model; and outside dry-run mode a post that is fetched, is not the bot's
    own, mentions the bot and was not processed before gets exactly one
    reply. *)
Theorem legacy_bot_answers_once
    (w : World) (processedCasts : gset string) (castHash : string) :
  let run := (LegacyBot.processCast w processedCasts castHash).1 in
  (exists u, result run = Ok u)
  /\ (length (replies (trace run)) <= 1)%nat
  /\ performs noBooks run
  /\ (forall cast,
        DRY_RUN w = false -> castHash ∉ processedCasts -> reachesLegacyBot w castHash cast ->
        length (replies (trace run)) = 1%nat).
Proof.
  cbv zeta. split; [|split; [|split]].
  - unfold LegacyBot.processCast.
    destruct (bool_decide (castHash ∈ processedCasts)); cbn [fst]; [exists tt; reflexivity|].
    apply returns_tryCatch. intros e. apply returns_ret.
  - unfold LegacyBot.processCast.
    destruct (bool_decide (castHash ∈ processedCasts)); cbn [fst]; [simpl; lia|].
    destruct (getCastByHash w castHash) as [[cast|]|e]; run_steps; try (simpl; lia).
    destruct (legacy_body_counts w cast) as [[u Hu] [Hle _]]. cbv zeta in Hu, Hle.
    rewrite Hu. run_steps. exact Hle.
  - unfold LegacyBot.processCast.
    destruct (bool_decide (castHash ∈ processedCasts)); cbn [fst]; [apply performs_ret|].
    unfold_legacy.
    performs_walk
      ltac:(apply createCoin_only; intros [] Hev; try exact I; contradiction)
      ltac:(exact I).
  - intros cast Hd Hn (Hf & Hbot & Hm). unfold LegacyBot.processCast.
    rewrite (bool_decide_eq_false_2 _ Hn). cbn [fst]. rewrite Hf. run_steps.
    destruct (legacy_body_counts w cast) as [[u Hu] [_ Hone]]. cbv zeta in Hu, Hone.
    rewrite Hu. run_steps. apply Hone; assumption.
Qed.

(** The rule-based bot at the request [pictureCast]. *)
Lemma legacy_bot_answers_once_witness :
  length (replies (trace (LegacyBot.processCast (serving pictureCast) ∅ "0xA").1)) = 1%nat.
Proof.
  apply (proj2 (proj2 (proj2 (legacy_bot_answers_once (serving pictureCast) ∅ "0xA")))
           pictureCast).
  - reflexivity.
  - apply not_elem_of_empty.
  - split; [reflexivity|]. split; [vm_compute; discriminate|vm_compute; reflexivity].
Defined.

Lemma parseCoinCreationRequest_passes cast imageUrl creatorAddress request :
  ParserUtils.parseCoinCreationRequest cast imageUrl creatorAddress = Some request ->
  ParserUtils.request_imageUrl request = imageUrl
  /\ ParserUtils.request_creatorAddress request = creatorAddress.
Proof.
  unfold ParserUtils.parseCoinCreationRequest.
  destruct (cast_text cast); [discriminate|].
  destruct imageUrl; [discriminate|]. destruct creatorAddress; [discriminate|].
  cbv zeta. intros H. injection H as <-. split; reflexivity.
Qed.

Lemma parseCoinCreationRequest_none cast imageUrl creatorAddress :
  ParserUtils.parseCoinCreationRequest cast imageUrl creatorAddress = None ->
  cast_text cast = EmptyString \/ imageUrl = EmptyString \/ creatorAddress = EmptyString.
Proof.
  unfold ParserUtils.parseCoinCreationRequest.
  destruct (cast_text cast); [left; reflexivity|].
  destruct imageUrl; [right; left; reflexivity|].
  destruct creatorAddress; [right; right; reflexivity|].
  cbv zeta. discriminate.
Qed.

Lemma asTruthy_nonempty o u : ImageUtils.asTruthy o = Some u -> u <> EmptyString.
Proof.
  destruct o as [[|c s]|]; simpl; intros H; try discriminate.
  injection H as <-. discriminate.
Qed.

(** X16: Clean names only: for a post whose text and author names are
    ASCII, every call of the issuance SDK that the rule-based bot makes
    carries a name of at most 30 characters, name and symbol hold only
    characters of the sanitizer's class, the payout goes to a verified
    address of the author of the post, and the call is made outside dry-run
    mode. *)
Theorem legacy_bot_issues_sanitized (w : World) (cast : FarcasterCast) :
  asciiPost cast ->
  performs (issuesSanitized w cast) (LegacyBot.processCoinCreationRequest w cast).
Proof.
  intros _. unfold_legacy.
  apply performs_tryCatch; [|intros e; performs_walk fail ltac:(exact I)].
  destruct (ImageUtils.asTruthy (ImageUtils.extractImageFromCast cast)) as [imageUrl|];
    [|performs_walk fail ltac:(exact I)].
  apply performs_bind_ok; [apply performs_call; exact I|].
  intros a Ha. rewrite result_call in Ha.
  destruct (ImageUtils.asTruthy a) as [creator|] eqn:Hc;
    [|performs_walk fail ltac:(exact I)].
  destruct (ParserUtils.parseCoinCreationRequest cast imageUrl creator) as [request|] eqn:Hp;
    [|performs_walk fail ltac:(exact I)].
  apply performs_bind; [apply performs_call; exact I|]. intros uri.
  apply performs_bind; [|intros coin; performs_walk fail ltac:(exact I)].
  destruct (DRY_RUN w) eqn:Hd; cbn [negb]; [apply performs_ret|].
  apply createCoin_only. intros [] Hev; try exact I; try contradiction.
  cbn [zoraEvent] in Hev. rewrite Hev.
  cbn [issuesSanitized LegacyBot.coinParams param_name param_symbol payoutRecipient].
  destruct (parseCoinCreationRequest_sanitized _ _ _ _ Hp) as (H1 & H2 & H3).
  destruct (parseCoinCreationRequest_passes _ _ _ _ Hp) as [_ H4].
  split; [exact H1|]. split; [exact H2|]. split; [exact H3|].
  split; [rewrite H4; exists a; split; [exact Ha|exact Hc]|exact Hd].
Qed.

(** The calls that the rule-based bot makes for the post [pictureCast] in
    the world [minting]. *)
Lemma legacy_bot_issues_sanitized_witness :
  asciiPost pictureCast
  /\ performs (issuesSanitized minting pictureCast)
       (LegacyBot.processCoinCreationRequest minting pictureCast).
Proof.
  assert (H : asciiPost pictureCast) by (repeat split; reflexivity).
  split; [exact H|]. apply legacy_bot_issues_sanitized. exact H.
Defined.

(** X17: A reply that is never sent: [processCast] of the rule-based bot never
    answers that it could not parse the request. The parser fails only on an
    empty text, an empty image URL or an empty address, and the minting
    sequence is reached only with a text that asks for a coin, and calls the
    parser only with an image and an address at hand. *)
Theorem legacy_bot_never_fails_to_parse
    (w : World) (processedCasts : gset string) (castHash : string) :
  performs (neverSays LegacyBot.parseErrorMsg)
    (LegacyBot.processCast w processedCasts castHash).1.
Proof.
  unfold LegacyBot.processCast.
  destruct (bool_decide (castHash ∈ processedCasts)); cbn [fst]; [apply performs_ret|].
  apply performs_tryCatch; [|intros e; apply performs_ret].
  apply performs_bind; [apply performs_call; exact I|]. intros [cast|]; [|apply performs_ret].
  destruct (fid (cast_author cast) =? BOT_FID w)%Z; [apply performs_ret|].
  destruct (negb (BotService.castMentionsBot w cast)); [apply performs_ret|].
  destruct (LegacyBot.isCoinCreationRequest (cast_text cast)) eqn:Hreq; cbn [negb].
  2:{ unfold_legacy. destruct (negb (DRY_RUN w)); cbn iota; [|apply performs_ret].
      apply performs_emit. cbn [neverSays]. intros H. vm_compute in H. discriminate. }
  unfold_legacy.
  apply performs_tryCatch.
  2:{ intros e. destruct (negb (DRY_RUN w)); [|apply performs_ret].
      apply performs_emit. cbn [neverSays]. unfold LegacyBot.errorReply.
      intros H. cbn in H. discriminate. }
  destruct (ImageUtils.asTruthy (ImageUtils.extractImageFromCast cast)) as [imageUrl|] eqn:Hi.
  2:{ destruct (negb (DRY_RUN w)); [|apply performs_ret].
      apply performs_emit. cbn [neverSays]. intros H. vm_compute in H. discriminate. }
  apply performs_bind; [apply performs_call; exact I|]. intros a.
  destruct (ImageUtils.asTruthy a) as [creator|] eqn:Hc.
  2:{ destruct (negb (DRY_RUN w)); [|apply performs_ret].
      apply performs_emit. cbn [neverSays]. intros H. vm_compute in H. discriminate. }
  destruct (ParserUtils.parseCoinCreationRequest cast imageUrl creator) as [request|] eqn:Hp.
  - apply performs_bind; [apply performs_call; exact I|]. intros uri.
    apply performs_bind.
    + destruct (negb (DRY_RUN w)); [|apply performs_ret].
      apply createCoin_only. intros [] Hev; try exact I; contradiction.
    + intros coin. destruct (negb (DRY_RUN w)); [|apply performs_ret].
      apply performs_emit. cbn [neverSays]. unfold LegacyBot.successMessage.
      intros H. cbn in H. discriminate.
  - exfalso. destruct (parseCoinCreationRequest_none _ _ _ Hp) as [Ht|[Hu|Ha]].
    + rewrite Ht in Hreq. vm_compute in Hreq. discriminate.
    + exact (asTruthy_nonempty _ _ Hi Hu).
    + exact (asTruthy_nonempty _ _ Hc Ha).
Qed.

(** X18: The rule-based bot tells what went wrong: outside dry-run mode, when the
    minting sequence fails, the one reply carries the message of the error
    that was thrown, be it of the address lookup, of the publisher or of
    [createCoin]. *)
Theorem legacy_bot_reports_error (w : World) (cast : FarcasterCast) (e : Thrown) :
  DRY_RUN w = false ->
  legacyFailure w cast e ->
  replies (trace (LegacyBot.processCoinCreationRequest w cast)) = [LegacyBot.errorReply e].
Proof.
  intros Hd (imageUrl & Hi & H). unfold_legacy. rewrite Hd, Hi. cbn [negb].
  destruct H as [Ha|(a & creator & request & Ha & Hc & Hp & H)].
  - rewrite Ha. run_steps. reflexivity.
  - rewrite Ha. run_steps. rewrite Hc, Hp. run_steps.
    destruct H as [Hb|(uri & Hb & Hr)].
    + rewrite Hb. run_steps. reflexivity.
    + rewrite Hb. run_steps. rewrite Hr. run_steps. reflexivity.
Qed.

(** The reply to a request that the SDK rejects carries the reason. *)
Lemma legacy_bot_reports_error_witness :
  replies (trace (LegacyBot.processCoinCreationRequest rejecting pictureCast))
  = [LegacyBot.errorReply (ErrorObj "insufficient funds for gas")].
Proof.
  apply (legacy_bot_reports_error rejecting pictureCast); [reflexivity|].
  exists "https://x/y.png". split; [reflexivity|]. right.
  eexists. exists "0xabc". eexists. split; [reflexivity|]. split; [reflexivity|].
  split; [vm_compute; reflexivity|]. right. eexists. split; [reflexivity|].
  vm_compute. reflexivity.
Defined.

(* ===================================================================== *)
(** ** Substrings, and the texts that ask for a coin *)
(* ===================================================================== *)

Lemma append_assoc_s (a b c : string) : (a +:+ b) +:+ c = a +:+ (b +:+ c).
Proof.
  induction a as [|x a IH]; [reflexivity|].
  change (String x ((a +:+ b) +:+ c) = String x (a +:+ (b +:+ c))).
  f_equal. exact IH.
Qed.

Lemma prefix_append p b : String.prefix p (p +:+ b) = true.
Proof.
  induction p as [|x p IH]; [destruct b; reflexivity|].
  change (String x p +:+ b) with (String x (p +:+ b)). cbn [String.prefix].
  destruct (ascii_dec x x) as [_|Hne]; [exact IH|contradiction].
Qed.

Lemma prefix_inv p s : String.prefix p s = true -> exists b, s = p +:+ b.
Proof.
  revert s. induction p as [|x p IH]; intros s H; [exists s; reflexivity|].
  destruct s as [|y s]; [discriminate|]. cbn [String.prefix] in H.
  destruct (ascii_dec x y) as [->|Hne]; [|discriminate].
  destruct (IH s H) as [b ->]. exists b. reflexivity.
Qed.

Lemma includes_spec p s :
  Js.includes p s = true <-> exists a b, s = a +:+ (p +:+ b).
Proof.
  split.
  - induction s as [|c s IH]; cbn [Js.includes]; intros H.
    + rewrite orb_false_r in H. destruct (prefix_inv _ _ H) as [b Hb].
      exists EmptyString, b. exact Hb.
    + apply orb_true_iff in H. destruct H as [H|H].
      * destruct (prefix_inv _ _ H) as [b Hb]. exists EmptyString, b. exact Hb.
      * destruct (IH H) as (a & b & ->). exists (String c a), b. reflexivity.
  - intros (a & b & ->). induction a as [|c a IH].
    + change (EmptyString +:+ (p +:+ b)) with (p +:+ b).
      destruct (p +:+ b) eqn:E; cbn [Js.includes]; rewrite <- ?E, prefix_append; reflexivity.
    + change (String c a +:+ (p +:+ b)) with (String c (a +:+ (p +:+ b))).
      cbn [Js.includes]. rewrite IH. apply orb_true_r.
Qed.

(** A text that includes [p] includes what [p] includes. *)
Lemma includes_trans q p s :
  Js.includes q p = true -> Js.includes p s = true -> Js.includes q s = true.
Proof.
  intros H1 H2. apply includes_spec in H1. apply includes_spec in H2.
  destruct H1 as (a & b & ->). destruct H2 as (a' & b' & ->).
  apply includes_spec. exists (a' +:+ a), (b +:+ b').
  rewrite !append_assoc_s. reflexivity.
Qed.

(** X19: Which ASCII texts ask the rule-based bot for a coin:
    [isCoinCreationRequest] looks at the lower-cased text alone; three of its
    seven patterns add nothing, being extensions of others, so that it
    accepts exactly the texts that contain "coin this", "create a coin" or
    "create coin", or contain "coin" together with "name:" or "ticker:";
    every text it accepts mentions "coin", and no empty text is accepted. *)
Theorem isCoinCreationRequest_patterns (text : string) :
  isAscii text ->
  let lowerText := Js.toLowerCase text in
  LegacyBot.isCoinCreationRequest text
  = (Js.includes "coin this" lowerText
     || Js.includes "create a coin" lowerText
     || Js.includes "create coin" lowerText
     || Js.includes "coin" lowerText
        && (Js.includes "name:" lowerText || Js.includes "ticker:" lowerText))
  /\ (LegacyBot.isCoinCreationRequest text = true ->
      Js.includes "coin" lowerText = true /\ text <> EmptyString).
Proof.
  intros _. cbv zeta. unfold LegacyBot.isCoinCreationRequest. cbv zeta. cbn [existsb].
  set (l := Js.toLowerCase text).
  assert (H1 : Js.includes "coin this content" l = true -> Js.includes "coin this" l = true)
    by (apply includes_trans; reflexivity).
  assert (H2 : Js.includes "create a coin:" l = true -> Js.includes "create a coin" l = true)
    by (apply includes_trans; reflexivity).
  assert (H3 : Js.includes "create coin:" l = true -> Js.includes "create coin" l = true)
    by (apply includes_trans; reflexivity).
  assert (H4 : Js.includes "coin this" l = true -> Js.includes "coin" l = true)
    by (apply includes_trans; reflexivity).
  assert (H5 : Js.includes "create a coin" l = true -> Js.includes "coin" l = true)
    by (apply includes_trans; reflexivity).
  assert (H6 : Js.includes "create coin" l = true -> Js.includes "coin" l = true)
    by (apply includes_trans; reflexivity).
  assert (H7 : Js.includes "coin" l = true -> text <> EmptyString)
    by (intros H ->; subst l; discriminate).
  destruct (Js.includes "coin this" l), (Js.includes "coin this content" l),
    (Js.includes "create a coin" l), (Js.includes "create coin" l),
    (Js.includes "create a coin:" l), (Js.includes "create coin:" l),
    (Js.includes "coin" l), (Js.includes "name:" l), (Js.includes "ticker:" l);
    cbn [orb andb];
    try (discriminate (H1 eq_refl)); try (discriminate (H2 eq_refl));
    try (discriminate (H3 eq_refl)); try (discriminate (H4 eq_refl));
    try (discriminate (H5 eq_refl)); try (discriminate (H6 eq_refl));
    (split; [reflexivity|intros H; first [discriminate H | split; [reflexivity|auto]]]).
Qed.

(** The request [pictureCast] mentions "coin". *)
Lemma isCoinCreationRequest_patterns_witness :
  Js.includes "coin" (Js.toLowerCase (cast_text pictureCast)) = true
  /\ cast_text pictureCast <> EmptyString.
Proof.
  apply (proj2 (isCoinCreationRequest_patterns (cast_text pictureCast) eq_refl)). reflexivity.
Defined.

(* ===================================================================== *)
(** * The publisher of the metadata and the metadata route *)
(* ===================================================================== *)

Section QueryStrings.

Import UrlSearchParams.

Lemma allChars_app p a b : allChars p (a +:+ b) = allChars p a && allChars p b.
Proof.
  induction a as [|c a IH]; [reflexivity|].
  change (String c a +:+ b) with (String c (a +:+ b)). cbn [allChars].
  rewrite IH. apply andb_assoc.
Qed.

(** One byte, serialized and decoded again. *)
Lemma decode_byte c rest :
  decode ((if Ascii.eqb c " " then "+"
           else if isUnreserved c then String c EmptyString
           else percentEncode c) +:+ rest)
  = String c (decode rest).
Proof. destruct c as [[] [] [] [] [] [] [] []]; reflexivity. Qed.

Lemma safe_byte c :
  allChars isQuerySafe (if Ascii.eqb c " " then "+"
                        else if isUnreserved c then String c EmptyString
                        else percentEncode c) = true.
Proof. destruct c as [[] [] [] [] [] [] [] []]; reflexivity. Qed.

Lemma decode_serializeBytes s : decode (serializeBytes s) = s.
Proof.
  induction s as [|c s IH]; [reflexivity|].
  cbn [serializeBytes]. rewrite decode_byte, IH. reflexivity.
Qed.

Lemma serializeBytes_safe s : allChars isQuerySafe (serializeBytes s) = true.
Proof.
  induction s as [|c s IH]; [reflexivity|].
  cbn [serializeBytes]. rewrite allChars_app, safe_byte, IH. reflexivity.
Qed.

Lemma allChars_weaken (p q : ascii -> bool) s :
  (forall c, p c = true -> q c = true) -> allChars p s = true -> allChars q s = true.
Proof.
  intros H. induction s as [|c s IH]; [reflexivity|].
  cbn [allChars]. intros Hs. apply andb_true_iff in Hs. destruct Hs as [Hc Hs].
  rewrite (H c Hc), (IH Hs). reflexivity.
Qed.

Lemma splitOn_plain d a : allChars (isNot d) a = true -> splitOn d a = [a].
Proof.
  induction a as [|c a IH]; [reflexivity|].
  cbn [allChars splitOn]. intros H. apply andb_true_iff in H. destruct H as [Hc Ha].
  unfold isNot in Hc. apply negb_true_iff in Hc. rewrite Hc, (IH Ha). reflexivity.
Qed.

Lemma splitOn_cut d a rest :
  allChars (isNot d) a = true -> splitOn d (a +:+ String d rest) = a :: splitOn d rest.
Proof.
  induction a as [|c a IH].
  - intros _. change (EmptyString +:+ String d rest) with (String d rest).
    cbn [splitOn]. rewrite Ascii.eqb_refl. reflexivity.
  - cbn [allChars]. intros H. apply andb_true_iff in H. destruct H as [Hc Ha].
    change (String c a +:+ String d rest) with (String c (a +:+ String d rest)).
    cbn [splitOn]. unfold isNot in Hc. apply negb_true_iff in Hc.
    rewrite Hc, (IH Ha). reflexivity.
Qed.

Lemma splitFirst_plain d a : allChars (isNot d) a = true -> splitFirst d a = (a, EmptyString).
Proof.
  induction a as [|c a IH]; [reflexivity|].
  cbn [allChars splitFirst]. intros H. apply andb_true_iff in H. destruct H as [Hc Ha].
  unfold isNot in Hc. apply negb_true_iff in Hc. rewrite Hc, (IH Ha). reflexivity.
Qed.

Lemma splitFirst_cut d a rest :
  allChars (isNot d) a = true -> splitFirst d (a +:+ String d rest) = (a, rest).
Proof.
  induction a as [|c a IH].
  - intros _. change (EmptyString +:+ String d rest) with (String d rest).
    cbn [splitFirst]. rewrite Ascii.eqb_refl. reflexivity.
  - cbn [allChars]. intros H. apply andb_true_iff in H. destruct H as [Hc Ha].
    change (String c a +:+ String d rest) with (String c (a +:+ String d rest)).
    cbn [splitFirst]. unfold isNot in Hc. apply negb_true_iff in Hc.
    rewrite Hc, (IH Ha). reflexivity.
Qed.

Lemma isQuerySafe_isNot d :
  In d ["&"; "="; "#"; "?"]%char -> forall c, isQuerySafe c = true -> isNot d c = true.
Proof.
  unfold isQuerySafe. intros Hd c Hc.
  apply andb_true_iff in Hc. destruct Hc as [Hc H4].
  apply andb_true_iff in Hc. destruct Hc as [Hc H3].
  apply andb_true_iff in Hc. destruct Hc as [H1 H2].
  destruct Hd as [<-|[<-|[<-|[<-|[]]]]]; assumption.
Qed.

Lemma pairText_safe d p :
  In d ["&"; "#"; "?"]%char -> allChars (isNot d) (pairText p) = true.
Proof.
  intros Hd. unfold pairText. rewrite !allChars_app.
  assert (Hin : In d ["&"; "="; "#"; "?"]%char)
    by (destruct Hd as [<-|[<-|[<-|[]]]]; simpl; auto).
  rewrite !(allChars_weaken _ _ _ (isQuerySafe_isNot d Hin) (serializeBytes_safe _)).
  destruct Hd as [<-|[<-|[<-|[]]]]; reflexivity.
Qed.

Lemma pairText_parsed p :
  match pairText p with
  | EmptyString => None
  | _ => Some (decode (splitFirst "=" (pairText p)).1, decode (splitFirst "=" (pairText p)).2)
  end = Some p.
Proof.
  assert (Hs : splitFirst "=" (pairText p) = (serializeBytes p.1, serializeBytes p.2)).
  { unfold pairText. apply (splitFirst_cut "=").
    apply (allChars_weaken isQuerySafe); [|apply serializeBytes_safe].
    apply isQuerySafe_isNot. simpl. auto. }
  rewrite Hs. cbn [fst snd]. rewrite !decode_serializeBytes.
  destruct (pairText p) eqn:E.
  - exfalso. unfold pairText in E.
    destruct (serializeBytes p.1); discriminate.
  - destruct p. reflexivity.
Qed.

Lemma toString_cons p q ps :
  toString (p :: q :: ps) = pairText p +:+ String "&" (toString (q :: ps)).
Proof. reflexivity. Qed.

Lemma toString_safe d ps :
  In d ["#"; "?"]%char -> allChars (isNot d) (toString ps) = true.
Proof.
  intros Hd.
  assert (Hin : In d ["&"; "#"; "?"]%char)
    by (destruct Hd as [<-|[<-|[]]]; simpl; auto).
  induction ps as [|p ps IH]; [reflexivity|].
  destruct ps as [|q ps]; [apply (pairText_safe d p Hin)|].
  rewrite toString_cons, allChars_app, (pairText_safe d p Hin).
  cbn [allChars andb]. rewrite IH.
  destruct Hd as [<-|[<-|[]]]; reflexivity.
Qed.

(** What is written is what is read: the parser recovers every list of
    pairs from its serialization. *)
Lemma parse_toString ps : parse (toString ps) = ps.
Proof.
  induction ps as [|p ps IH]; [reflexivity|].
  destruct ps as [|q ps].
  - unfold parse. change (toString [p]) with (pairText p).
    rewrite (splitOn_plain "&") by (apply pairText_safe; simpl; auto).
    cbn [omap list_omap]. rewrite pairText_parsed. reflexivity.
  - rewrite toString_cons. unfold parse.
    rewrite (splitOn_cut "&") by (apply pairText_safe; simpl; auto).
    cbn [omap list_omap]. rewrite pairText_parsed.
    f_equal. exact IH.
Qed.

Lemma includes_char_false d s :
  Js.includes (String d EmptyString) s = false -> allChars (isNot d) s = true.
Proof.
  induction s as [|c s IH]; [reflexivity|].
  cbn [Js.includes String.prefix allChars]. intros H.
  apply orb_false_iff in H. destruct H as [Hp Hs].
  rewrite (IH Hs), andb_true_r. unfold isNot.
  destruct (ascii_dec d c) as [->|Hne].
  - destruct s; discriminate.
  - apply negb_true_iff, Ascii.eqb_neq. congruence.
Qed.

(** The query of the URL of the metadata endpoint is the serialized
    record. *)
Lemma queryOf_metadataUrl env name symbol image :
  plainPath (IpfsUtils.apiEndpoint env) ->
  queryOf (IpfsUtils.metadataUrl env name symbol image)
  = toString [("name", name); ("symbol", symbol); ("image", image)].
Proof.
  intros [Hq Hh]. unfold queryOf, IpfsUtils.metadataUrl.
  set (q := toString _).
  rewrite (splitFirst_plain "#").
  2:{ rewrite !allChars_app, (includes_char_false "#" _ Hh).
      subst q. rewrite (toString_safe "#") by (simpl; auto). reflexivity. }
  cbn [fst].
  change (IpfsUtils.apiEndpoint env +:+ "/api/zoiner/metadata?" +:+ q)
    with (IpfsUtils.apiEndpoint env +:+ ("/api/zoiner/metadata" +:+ String "?" q)).
  rewrite <- append_assoc_s. rewrite (splitFirst_cut "?"); [reflexivity|].
  rewrite allChars_app, (includes_char_false "?" _ Hq). reflexivity.
Qed.

End QueryStrings.

Lemma prefix_mono p e x : String.prefix p e = true -> String.prefix p (e +:+ x) = true.
Proof.
  intros H. destruct (prefix_inv _ _ H) as [b ->].
  rewrite append_assoc_s. apply prefix_append.
Qed.

Lemma isHttp_schemes e x :
  isHttp e ->
  Js.startsWith "ipfs://" (e +:+ x) = false
  /\ (Js.startsWith "http://" (e +:+ x) = true \/ Js.startsWith "https://" (e +:+ x) = true).
Proof.
  unfold isHttp, Js.startsWith. intros [H|H].
  - split; [|left; apply prefix_mono, H].
    destruct (prefix_inv _ _ H) as [b ->]. reflexivity.
  - split; [|right; apply prefix_mono, H].
    destruct (prefix_inv _ _ H) as [b ->]. reflexivity.
Qed.



Lemma metadata_route_round_trip_lemma env name symbol image :
  plainPath (IpfsUtils.apiEndpoint env) ->
  MetadataRoute.metadata (IpfsUtils.metadataUrl env name symbol image)
  = {| MetadataRoute.doc_name := Some name;
       MetadataRoute.doc_description := name +:+ " - Created with @zoiner on Farcaster";
       MetadataRoute.doc_symbol := Some symbol;
       MetadataRoute.doc_image := Some image;
       MetadataRoute.doc_category := "social" |}.
Proof.
  intros Hp. unfold MetadataRoute.metadata. cbv zeta.
  rewrite (queryOf_metadataUrl env name symbol image Hp), parse_toString.
  reflexivity.
Qed.

(** X21: The endpoint gives back what the publisher put into the URL: for an
    ASCII name, symbol and image, whatever characters of ASCII they hold,
    the metadata route answers the URL of the publisher, when the URL
    constructor accepts it, with a document that carries that name, that
    symbol and that image, and the description that [generateZoraMetadata]
    writes by default, provided the URL of the application has no question
    mark and no number sign; when the constructor rejects the URL, the
    route answers with the error of status 500. *)
Theorem metadata_route_round_trip
    (validUrl : string -> bool) (env : IpfsUtils.Publisher) (name symbol image : string) :
  plainPath (IpfsUtils.apiEndpoint env) ->
  isAscii name -> isAscii symbol -> isAscii image ->
  MetadataRoute.GET validUrl (IpfsUtils.metadataUrl env name symbol image)
  = if validUrl (IpfsUtils.metadataUrl env name symbol image)
    then MetadataRoute.Json
           {| MetadataRoute.doc_name := Some name;
              MetadataRoute.doc_description :=
                IpfsUtils.zm_description
                  (IpfsUtils.generateZoraMetadata name symbol image None);
              MetadataRoute.doc_symbol := Some symbol;
              MetadataRoute.doc_image := Some image;
              MetadataRoute.doc_category := "social" |}
    else MetadataRoute.ServerError.
Proof.
  intros Hp _ _ _. unfold MetadataRoute.GET.
  rewrite (metadata_route_round_trip_lemma env name symbol image Hp). reflexivity.
Qed.

(** The round trip of a name with a space and of a URL, through a
    constructor that accepts the URL. *)
Lemma metadata_route_round_trip_witness :
  MetadataRoute.GET (fun _ => true)
    (IpfsUtils.metadataUrl pinataDown "Wave Rider" "WAVE" "https://x/y.png")
  = MetadataRoute.Json
      {| MetadataRoute.doc_name := Some "Wave Rider";
         MetadataRoute.doc_description := "Wave Rider - Created with @zoiner on Farcaster";
         MetadataRoute.doc_symbol := Some "WAVE";
         MetadataRoute.doc_image := Some "https://x/y.png";
         MetadataRoute.doc_category := "social" |}.
Proof.
  rewrite (metadata_route_round_trip (fun _ => true) pinataDown "Wave Rider" "WAVE"
             "https://x/y.png")
    by first [split; reflexivity|reflexivity].
  reflexivity.
Defined.

Lemma issuanceAttempts_none {A : Type} (m : M A) :
  performs fetchOrLog m -> issuanceAttempts (trace m) = [].
Proof.
  apply (performs_omap fetchOrLog). intros [] H; try reflexivity; destruct H.
Qed.

(** X22: The application vouches for itself: when the publisher falls back to the
    metadata endpoint of the application, at an http or https URL, and the
    endpoint is reachable, the URL passes the validation of [createCoin]
    exactly when the name and the image are not empty; then, outside dry-run
    mode, [createCoin] goes on to call the issuance SDK. *)
Theorem fallback_metadata_validates
    (w : World) (env : IpfsUtils.Publisher) (name symbol image : string) :
  let url := IpfsUtils.metadataUrl env name symbol image in
  isHttp (IpfsUtils.apiEndpoint env) ->
  plainPath (IpfsUtils.apiEndpoint env) ->
  axios_get w url = Ok (MetadataRoute.served (MetadataRoute.metadata url)) ->
  (result (Zora.validateMetadataURI w url) = Ok true
   <-> name <> EmptyString /\ image <> EmptyString)
  /\ (name <> EmptyString -> image <> EmptyString -> DRY_RUN w = false ->
      forall params, param_uri params = url ->
        head (issuanceAttempts (trace (Zora.createCoin w params))) = Some 1%nat).
Proof.
  intros url Hh Hp Hget.
  assert (Hv : result (Zora.validateMetadataURI w url)
               = match name, image with
                 | String _ _, String _ _ => Ok true
                 | EmptyString, _ =>
                     Throw (ErrorObj "Failed to fetch metadata: Metadata must include a name")
                 | _, EmptyString =>
                     Throw (ErrorObj "Failed to fetch metadata: Metadata must include an image")
                 end).
  { unfold Zora.validateMetadataURI.
    destruct (isHttp_schemes _ ("/api/zoiner/metadata?" +:+
                UrlSearchParams.toString [("name", name); ("symbol", symbol); ("image", image)])
                Hh) as [Hi Hs].
    fold (IpfsUtils.metadataUrl env name symbol image) in Hi, Hs. fold url in Hi, Hs.
    rewrite Hi. cbn [negb andb].
    replace (negb (Js.startsWith "http://" url) && negb (Js.startsWith "https://" url))
      with false by (destruct Hs as [-> | ->]; [reflexivity|apply eq_sym, andb_false_r]).
    rewrite result_tryCatch, result_bind, result_call, Hget.
    unfold url at 1. rewrite (metadata_route_round_trip_lemma env name symbol image Hp).
    cbn [MetadataRoute.served data MetadataRoute.doc_name MetadataRoute.doc_description
           MetadataRoute.doc_image].
    unfold Zora.missingField. cbn [md_name md_description md_image].
    destruct name as [|c n]; [reflexivity|].
    destruct image as [|c' i]; reflexivity. }
  split.
  - rewrite Hv. destruct name as [|c n]; [split; [discriminate|intros [H _]; contradiction]|].
    destruct image as [|c' i]; [split; [discriminate|intros [_ H]; contradiction]|].
    split; [intros _; split; discriminate|reflexivity].
  - intros Hn Hi Hd params Hu.
    destruct name as [|c n]; [contradiction|]. destruct image as [|c' i]; [contradiction|].
    rewrite <- Hu in Hv.
    destruct (createCoin_reaches_loop w params true Hd Hv) as [_ Ht].
    rewrite Ht. unfold issuanceAttempts. rewrite omap_app.
    fold (issuanceAttempts (trace (Zora.validateMetadataURI w (param_uri params)))).
    rewrite (issuanceAttempts_none _ (validateMetadataURI_performs w _)).
    unfold Zora.maxRetries. cbn [Zora.attempts app].
    rewrite trace_bind, result_emit, trace_emit. reflexivity.
Qed.

(** The network serves the metadata route. *)
Lemma fallback_metadata_validates_witness :
  result (Zora.validateMetadataURI selfServing
            (IpfsUtils.metadataUrl pinataDown "Wave Rider" "WAVE" "https://x/y.png"))
  = Ok true.
Proof.
  apply (proj1 (fallback_metadata_validates selfServing pinataDown "Wave Rider" "WAVE"
                  "https://x/y.png" ltac:(right; reflexivity) ltac:(split; reflexivity)
                  eq_refl)).
  split; discriminate.
Defined.

(* ===================================================================== *)
(** * Names on the post-mint path *)
(* ===================================================================== *)

Lemma orElse_nonempty a b : b <> EmptyString -> Js.orElse a b <> EmptyString.
Proof. destruct a as [[|c s]|]; simpl; intros H; try exact H. discriminate. Qed.

(** X23: No token without a name on the post-mint path: every publication of
    metadata, every call of the issuance SDK and every ledger row of
    [processCastTokenRequest] carries a name and a symbol that are not empty,
    whatever the advisory model answers and whatever the post says: where the
    naming gives nothing, the sequence falls back to the author of the post
    and to the symbol CAST. *)
Theorem post_mint_tokens_are_named (w : World) (cast : FarcasterCast) :
  performs namedToken (Agent.processCastTokenRequest w cast).
Proof.
  unfold Agent.processCastTokenRequest.
  apply performs_bind;
    [destruct (ImageUtils.asTruthy (cast_parent_hash cast)); performs_walk fail ltac:(exact I)|].
  intros target. apply performs_bind;
    [unfold Agent.analyzeCastForTokenCreation; performs_walk fail ltac:(exact I)|].
  intros info. unfold Agent.executeCastTokenCreation, Agent.castTokenCreation, Agent.reply,
    Agent.replyToCast. cbv zeta.
  assert (Hn : forall a u, Js.orElse a ("Cast by " +:+ u) <> EmptyString)
    by (intros a u; apply orElse_nonempty; discriminate).
  assert (Hs : forall a, Js.orElse a "CAST" <> EmptyString)
    by (intros a; apply orElse_nonempty; discriminate).
  performs_walk
    ltac:(apply createCoin_only; intros [] Hev; try exact I; try contradiction;
          cbn [zoraEvent] in Hev; rewrite Hev; cbn [namedToken param_name param_symbol];
          split; [apply Hn|apply Hs])
    ltac:(first [exact I | cbn [namedToken token_name token_symbol]; split; [apply Hn|apply Hs]]).
Qed.

(* ===================================================================== *)
(** * The parser of the rule-based bot *)
(* ===================================================================== *)

Lemma removeUnsafe_safe s :
  allChars ParserUtils.isSafeChar s = true -> ParserUtils.removeUnsafe s = s.
Proof.
  induction s as [|c s IH]; [reflexivity|].
  cbn [allChars ParserUtils.removeUnsafe]. intros H.
  apply andb_true_iff in H. destruct H as [Hc Hs]. rewrite Hc, (IH Hs). reflexivity.
Qed.

Lemma slice0_all n s : (String.length s <= n)%nat -> Js.slice0 n s = s.
Proof.
  revert s. induction n as [|n IH]; intros [|c s] H; try reflexivity.
  - simpl in H. lia.
  - cbn [Js.slice0]. rewrite IH; [reflexivity|]. simpl in H. lia.
Qed.

Lemma trimEnd_length s : (String.length (Js.trimEnd s) <= String.length s)%nat.
Proof.
  induction s as [|c s IH]; [simpl; lia|].
  rewrite (trimEnd_cons c s). destruct (Js.trimEnd s) as [|c' t].
  - destruct (Js.isWhiteSpace c); simpl; lia.
  - simpl in *. lia.
Qed.

Lemma headSpace_slice0 n s : headSpace (Js.slice0 (S n) s) = headSpace s.
Proof. destruct s; reflexivity. Qed.

(** X24: The sanitizers, applied again to an ASCII text: [sanitizeSymbol] is
    idempotent, and [sanitizeName] is the first 30 characters of
    [sanitizeSymbol]; as it cuts after it trims, a sanitized name can end in
    white space, and a second pass only removes that: it is [trimEnd] of the
    first, and a third pass changes nothing. *)
Theorem sanitizers_stable (s : string) :
  isAscii s ->
  ParserUtils.sanitizeSymbol (ParserUtils.sanitizeSymbol s) = ParserUtils.sanitizeSymbol s
  /\ ParserUtils.sanitizeName s = Js.slice0 30 (ParserUtils.sanitizeSymbol s)
  /\ ParserUtils.sanitizeName (ParserUtils.sanitizeName s)
     = Js.trimEnd (ParserUtils.sanitizeName s)
  /\ ParserUtils.sanitizeName (ParserUtils.sanitizeName (ParserUtils.sanitizeName s))
     = ParserUtils.sanitizeName (ParserUtils.sanitizeName s).
Proof.
  intros _.
  assert (Hsym : forall x, ParserUtils.sanitizeSymbol (ParserUtils.sanitizeSymbol x)
                           = ParserUtils.sanitizeSymbol x).
  { intros x. unfold ParserUtils.sanitizeSymbol. cbv zeta.
    rewrite removeUnsafe_safe; [apply trim_idem|].
    apply allChars_trimEnd, allChars_trimStart, allChars_removeUnsafe. }
  assert (Hname : forall x, ParserUtils.sanitizeName (ParserUtils.sanitizeName x)
                            = Js.trimEnd (ParserUtils.sanitizeName x)).
  { intros x. unfold ParserUtils.sanitizeName at 1. cbv zeta.
    rewrite removeUnsafe_safe by apply sanitizers_spec.
    unfold Js.trim. rewrite trimStart_solid.
    - apply slice0_all. pose proof (trimEnd_length (ParserUtils.sanitizeName x)).
      pose proof (proj1 (proj2 (sanitizers_spec x))). lia.
    - unfold ParserUtils.sanitizeName. cbv zeta.
      rewrite headSpace_slice0. apply headSpace_trim. }
  split; [apply Hsym|]. split; [reflexivity|]. split; [apply Hname|].
  rewrite (Hname (ParserUtils.sanitizeName s)), Hname. apply trimEnd_idem.
Qed.

(** A name of 29 letters, a space and a letter: the first pass cuts after
    the space, the second removes it. *)
Lemma sanitizers_stable_witness :
  ParserUtils.sanitizeName "abcdefghijklmnopqrstuvwxyzabc d" = "abcdefghijklmnopqrstuvwxyzabc "
  /\ ParserUtils.sanitizeName (ParserUtils.sanitizeName "abcdefghijklmnopqrstuvwxyzabc d")
     = "abcdefghijklmnopqrstuvwxyzabc".
Proof.
  split; [reflexivity|].
  rewrite (proj1 (proj2 (proj2 (sanitizers_stable "abcdefghijklmnopqrstuvwxyzabc d" eq_refl)))).
  reflexivity.
Defined.

(** X25: What the parser returns: it fails exactly when the text, the image URL
    or the address is empty; the request it returns carries the image URL
    and the address unchanged and, for a post whose text and author names
    are ASCII, a name of at most 30 characters and a symbol, both within the
    class of the sanitizer; and when the text states no ticker, the name is
    the first 30 characters of the symbol. *)
Theorem parseCoinCreationRequest_spec
    (cast : FarcasterCast) (imageUrl creatorAddress : string) :
  (ParserUtils.parseCoinCreationRequest cast imageUrl creatorAddress = None
   <-> cast_text cast = EmptyString \/ imageUrl = EmptyString
       \/ creatorAddress = EmptyString)
  /\ (forall request,
        asciiPost cast ->
        ParserUtils.parseCoinCreationRequest cast imageUrl creatorAddress = Some request ->
        ParserUtils.request_imageUrl request = imageUrl
        /\ ParserUtils.request_creatorAddress request = creatorAddress
        /\ allChars ParserUtils.isSafeChar (ParserUtils.request_name request) = true
        /\ (String.length (ParserUtils.request_name request) <= 30)%nat
        /\ allChars ParserUtils.isSafeChar (ParserUtils.request_symbol request) = true
        /\ (Extract.firstMatch ParserUtils.tickerRegexPatterns (Js.trim (cast_text cast)) = None ->
            ParserUtils.request_name request
            = Js.slice0 30 (ParserUtils.request_symbol request))).
Proof.
  split.
  - split; [apply parseCoinCreationRequest_none|].
    unfold ParserUtils.parseCoinCreationRequest.
    intros [H|[H|H]]; rewrite H; [reflexivity| |].
    + destruct (cast_text cast); reflexivity.
    + destruct (cast_text cast); [reflexivity|]. destruct imageUrl; reflexivity.
  - intros request _ Hp.
    destruct (parseCoinCreationRequest_passes _ _ _ _ Hp) as [H1 H2].
    destruct (parseCoinCreationRequest_sanitized _ _ _ _ Hp) as (H3 & H4 & H5).
    split; [exact H1|]. split; [exact H2|]. split; [exact H3|]. split; [exact H4|].
    split; [exact H5|].
    intros Ht. revert Hp. unfold ParserUtils.parseCoinCreationRequest.
    destruct (cast_text cast) as [|c t]; [discriminate|].
    destruct imageUrl; [discriminate|]. destruct creatorAddress; [discriminate|].
    cbv zeta. rewrite Ht. intros Hp. injection Hp as <-.
    cbn [ParserUtils.request_name ParserUtils.request_symbol Js.orElse]. reflexivity.
Qed.

(** The request parsed from [pictureCast]. *)
Lemma parseCoinCreationRequest_spec_witness :
  exists request,
    ParserUtils.parseCoinCreationRequest pictureCast "https://x/y.png" "0xabc" = Some request
    /\ ParserUtils.request_name request = Js.slice0 30 (ParserUtils.request_symbol request).
Proof.
  destruct (ParserUtils.parseCoinCreationRequest pictureCast "https://x/y.png" "0xabc")
    as [request|] eqn:Hp; [|revert Hp; vm_compute; discriminate].
  exists request. split; [reflexivity|].
  apply (proj2 (parseCoinCreationRequest_spec pictureCast "https://x/y.png" "0xabc")
           request); [repeat split; reflexivity|exact Hp|].
  vm_compute. reflexivity.
Defined.

(* ===================================================================== *)
(** * The upload of an image *)
(* ===================================================================== *)

(** X26: An image always comes back: [prepareImageForZora] never throws; it
    returns the URL it was given, unchanged, in dry-run mode and whenever the
    download or the pinning fails, and otherwise the URI under which the
    pinning service stored the downloaded bytes, filed under the last segment
    of the URL (under image.jpg when the URL ends in a slash). *)
Theorem prepareImageForZora_never_throws (env : ImageUpload.Uploader) (imageUrl : string) :
  result (ImageUpload.prepareImageForZora env imageUrl)
  = Ok (if ImageUpload.UPLOAD_DRY_RUN env then imageUrl
        else match ImageUpload.download env imageUrl with
             | Ok buffer =>
                 match ImageUpload.pinBufferToIPFS env buffer
                         (ImageUpload.defaultName imageUrl) with
                 | Ok uri => uri
                 | Throw _ => imageUrl
                 end
             | Throw _ => imageUrl
             end)
  /\ (Js.endsWith "/" imageUrl = true -> ImageUpload.defaultName imageUrl = "image.jpg").
Proof.
  split.
  - unfold ImageUpload.prepareImageForZora, ImageUpload.uploadImageToIPFS,
      ImageUpload.uploadImageUrlToIPFS, IpfsUtils.await.
    destruct (ImageUpload.UPLOAD_DRY_RUN env); [reflexivity|].
    cbn [Js.orElse].
    destruct (ImageUpload.download env imageUrl) as [buffer|e]; run_steps;
      cbn [result]; [|reflexivity].
    destruct (ImageUpload.pinBufferToIPFS env buffer _) as [uri|e']; run_steps;
      cbn [result]; reflexivity.
  - unfold ImageUpload.defaultName.
    assert (H : forall s, Js.endsWith "/" s = true ->
                          exists x l, UrlSearchParams.splitOn "/" s = x :: l ++ [EmptyString]).
    { induction s as [|c s IH]; [discriminate|].
      cbn [Js.endsWith UrlSearchParams.splitOn]. intros H.
      apply orb_true_iff in H. destruct H as [H|H].
      - apply String.eqb_eq in H. injection H as -> ->.
        exists EmptyString, []. reflexivity.
      - destruct (IH H) as (x & l & ->).
        destruct (Ascii.eqb c "/").
        + exists EmptyString, (x :: l). reflexivity.
        + exists (String c x), l. reflexivity. }
    intros He. destruct (H _ He) as (x & l & ->).
    rewrite app_comm_cons, last_snoc. reflexivity.
Qed.

(** The file name of a URL that ends in a slash. *)
Lemma prepareImageForZora_never_throws_witness :
  ImageUpload.defaultName "https://x/pictures/" = "image.jpg".
Proof.
  apply (proj2 (prepareImageForZora_never_throws
                  {| ImageUpload.UPLOAD_DRY_RUN := true;
                     ImageUpload.download := fun _ => Ok EmptyString;
                     ImageUpload.pinBufferToIPFS := fun _ _ => Ok EmptyString |}
                  "https://x/pictures/")).
  reflexivity.
Defined.

(* ===================================================================== *)
(** * The embeds of a reply *)
(* ===================================================================== *)

Section Embeds.

Import Regex NeynarBot.

Lemma run_exact {A : Type} lit st (k : state -> option A) :
  run (exact lit) st k
  = match stripPrefix lit (rest st) with
    | Some r => k (mkState (prevAfter lit (prev st)) r (cap st))
    | None => None
    end.
Proof.
  revert st. induction lit as [|c lit IH]; intros st.
  - destruct st. reflexivity.
  - cbn [exact run stripPrefix prevAfter].
    destruct (rest st) as [|x s']; [reflexivity|].
    destruct (Ascii.eqb c x) eqn:E; [|reflexivity].
    apply Ascii.eqb_eq in E. subst x. rewrite IH. reflexivity.
Qed.

Lemma star_loop {A : Type} q (k : state -> option A) :
  (forall x, k x <> None) ->
  forall n st, (String.length (rest st) < n)%nat ->
  (fix loop (n : nat) (st : state) {struct n} : option A :=
     match n with
     | O => k st
     | S n' =>
         match run (Cls q) st (fun st' =>
                 if (String.length (rest st') <? String.length (rest st))%nat
                 then loop n' st' else None) with
         | Some a => Some a
         | None => k st
         end
     end) n st = k (spanState q st).
Proof.
  intros Hk. induction n as [|n IH]; intros [p s c0] Hlt; [cbn [rest] in Hlt; lia|].
  cbn [rest] in Hlt. unfold spanState. cbn [prev rest cap].
  destruct s as [|c s'].
  - cbn [run rest skipWhile fst snd]. reflexivity.
  - cbn [run rest prev cap skipWhile]. destruct (q c) eqn:Hq.
    + replace (String.length s' <? String.length (String c s'))%nat with true
        by (symmetry; apply Nat.ltb_lt; simpl; lia).
      rewrite IH by (cbn [rest]; simpl in Hlt; lia).
      unfold spanState. cbn [prev rest cap].
      destruct (k _) eqn:E; [reflexivity|]. exfalso. exact (Hk _ E).
    + cbn [fst snd]. reflexivity.
Qed.

Lemma run_star_cls {A : Type} q (k : state -> option A) st :
  (forall x, k x <> None) -> run (Star (Cls q)) st k = k (spanState q st).
Proof.
  intros Hk.
  exact (star_loop q k Hk (S (String.length (rest st))) st (Nat.lt_succ_diag_r _)).
Qed.

Lemma run_plus_cls {A : Type} q (k : state -> option A) st :
  (forall x, k x <> None) ->
  run (Plus (Cls q)) st k
  = match rest st with
    | String c s' => if q c then k (spanState q (mkState (Some c) s' (cap st))) else None
    | EmptyString => None
    end.
Proof.
  intros Hk. unfold Plus. cbn [run].
  destruct (rest st) as [|c s']; [reflexivity|].
  destruct (q c); [|reflexivity].
  exact (run_star_cls q k _ Hk).
Qed.

Lemma run_Seq {A : Type} r1 r2 st (k : state -> option A) :
  run (Seq r1 r2) st k = run r1 st (fun st' => run r2 st' k).
Proof. reflexivity. Qed.

Lemma run_Opt {A : Type} r1 st (k : state -> option A) :
  run (Opt r1) st k
  = match run r1 st k with Some a => Some a | None => k st end.
Proof. reflexivity. Qed.

Lemma run_Group {A : Type} r1 st (k : state -> option A) :
  run (Group r1) st k
  = run r1 st (fun st' =>
      k (mkState (prev st') (rest st')
           (Some (Js.slice0 (String.length (rest st) - String.length (rest st')) (rest st))))).
Proof. reflexivity. Qed.

Lemma skipWhile_afterSolid p s : (skipWhile notSpace p s).2 = afterSolid s.
Proof.
  revert p. induction s as [|c s IH]; intros p; cbn [skipWhile afterSolid]; [reflexivity|].
  unfold notSpace at 1. destruct (Js.isWhiteSpace c); cbn [negb]; [reflexivity|apply IH].
Qed.

Lemma run_tail {A : Type} (k : state -> option A) st :
  (forall x, k x <> None) ->
  run (Seq (exact "://") (Plus (Cls notSpace))) st k
  = match stripPrefix "://" (rest st) with
    | Some (String c t) =>
        if Js.isWhiteSpace c then None
        else k (spanState notSpace (mkState (Some c) t (cap st)))
    | _ => None
    end.
Proof.
  intros Hk. rewrite run_Seq, run_exact.
  destruct (stripPrefix "://" (rest st)) as [[|c t]|]; try reflexivity.
  rewrite run_plus_cls by exact Hk. cbn [rest cap].
  unfold notSpace at 1. destruct (Js.isWhiteSpace c); reflexivity.
Qed.

Lemma run_urlPattern p s :
  match afterUrl s with
  | Some r =>
      exists p', run urlPattern (mkState p s None) (fun st => Some st)
                 = Some (mkState p' r (Some (Js.slice0 (String.length s - String.length r) s)))
  | None => run urlPattern (mkState p s None) (fun st => Some st) = None
  end.
Proof.
  unfold urlPattern, afterUrl.
  rewrite run_Group, run_Seq, run_exact. cbn [rest].
  destruct (stripPrefix "http" s) as [r1|]; [|reflexivity].
  rewrite run_Seq, run_Opt, run_exact. cbn [rest].
  destruct (stripPrefix "s" r1) as [r2|];
    rewrite ?run_tail by (intros ?; discriminate);
    cbn [rest cap prev]; unfold spanState; cbn [rest cap prev];
    rewrite ?skipWhile_afterSolid;
    repeat match goal with
           | |- context [stripPrefix "://" ?b] =>
               destruct (stripPrefix "://" b) as [[|? ?]|]
           | |- context [Js.isWhiteSpace ?c] => destruct (Js.isWhiteSpace c)
           end;
    try reflexivity; rewrite ?skipWhile_afterSolid; eexists; reflexivity.
Qed.

Lemma stripPrefix_spec p s r : stripPrefix p s = Some r -> s = p +:+ r.
Proof.
  revert s. induction p as [|c p IH]; intros s H; cbn [stripPrefix] in H.
  - injection H as ->. reflexivity.
  - destruct s as [|x s]; [discriminate|].
    destruct (Ascii.eqb c x) eqn:E; [|discriminate].
    apply Ascii.eqb_eq in E. subst x. rewrite (IH _ H). reflexivity.
Qed.

Lemma afterSolid_split t : exists u, t = u +:+ afterSolid t /\ solid u.
Proof.
  induction t as [|c t IH]; [exists EmptyString; split; reflexivity|].
  cbn [afterSolid]. destruct (Js.isWhiteSpace c) eqn:E.
  - exists EmptyString. split; reflexivity.
  - destruct IH as (u & Hu & Hs). exists (String c u). split.
    + change (String c t = String c (u +:+ afterSolid t)). f_equal. exact Hu.
    + unfold solid. cbn [allChars]. unfold notSpace at 1. rewrite E. exact Hs.
Qed.

Lemma length_app_s (a b : string) :
  String.length (a +:+ b) = (String.length a + String.length b)%nat.
Proof.
  induction a as [|x a IH]; [reflexivity|].
  change (S (String.length (a +:+ b)) = S (String.length a + String.length b)).
  f_equal. exact IH.
Qed.

Lemma slice0_app (u r : string) :
  Js.slice0 (String.length (u +:+ r) - String.length r) (u +:+ r) = u.
Proof.
  rewrite length_app_s.
  replace (String.length u + String.length r - String.length r)%nat
    with (String.length u) by lia.
  induction u as [|x u IH]; [destruct r; reflexivity|].
  change (String x (Js.slice0 (String.length u) (u +:+ r)) = String x u).
  f_equal. exact IH.
Qed.

(** What [afterUrl] cuts off the head of a text is a URL: it starts with
    [http://] or [https://] and has no white space. *)
Lemma afterUrl_spec s r :
  afterUrl s = Some r ->
  exists u, s = u +:+ r /\ solid u /\ isHttp u /\ u <> EmptyString.
Proof.
  assert (Htail : forall r0,
    match stripPrefix "://" r0 with
    | Some (String c t) => if Js.isWhiteSpace c then None else Some (afterSolid t)
    | _ => None
    end = Some r ->
    exists v, r0 = "://" +:+ (v +:+ r) /\ solid v).
  { intros r0 H. destruct (stripPrefix "://" r0) as [[|c t]|] eqn:E; try discriminate.
    apply stripPrefix_spec in E. subst r0.
    destruct (Js.isWhiteSpace c) eqn:Hc; [discriminate|]. injection H as <-.
    destruct (afterSolid_split t) as (u & Hu & Hs). exists (String c u). split.
    - rewrite Hu at 1. reflexivity.
    - unfold solid. cbn [allChars]. unfold notSpace at 1. rewrite Hc. exact Hs. }
  unfold afterUrl. intros H.
  destruct (stripPrefix "http" s) as [r1|] eqn:E1; [|discriminate].
  apply stripPrefix_spec in E1. subst s.
  destruct (match stripPrefix "s" r1 with Some r2 => _ | None => None end) as [r'|] eqn:E2.
  - injection H as ->.
    destruct (stripPrefix "s" r1) as [r2|] eqn:E3; [|discriminate].
    apply stripPrefix_spec in E3. subst r1.
    destruct (Htail _ E2) as (v & -> & Hs).
    exists ("https://" +:+ v). repeat split.
    + unfold solid. rewrite allChars_app. exact Hs.
    + right. apply prefix_append.
    + discriminate.
  - destruct (Htail _ H) as (v & -> & Hs).
    exists ("http://" +:+ v). repeat split.
    + unfold solid. rewrite allChars_app. exact Hs.
    + left. apply prefix_append.
    + discriminate.
Qed.

Lemma exec_eq r p s :
  exec r p s
  = match run r (mkState p s None) (fun st => Some st) with
    | Some st => Some st
    | None =>
        match s with
        | String c s' => exec r (Some c) s'
        | EmptyString => None
        end
    end.
Proof. destruct s; reflexivity. Qed.

Lemma exec_sound p s st :
  exec urlPattern p s = Some st ->
  exists a u, s = a +:+ (u +:+ rest st) /\ cap st = Some u
              /\ solid u /\ isHttp u /\ u <> EmptyString.
Proof.
  revert p. induction s as [|c s IH]; intros p H; rewrite exec_eq in H;
    match type of H with context [run urlPattern ?x _] =>
      pose proof (run_urlPattern p (rest x)) as Hr; cbn [rest] in Hr end.
  - destruct (afterUrl EmptyString) as [r|] eqn:E; [|rewrite Hr in H; discriminate].
    discriminate E.
  - destruct (afterUrl (String c s)) as [r|] eqn:E.
    + destruct Hr as [p' Hr]. rewrite Hr in H. injection H as <-.
      destruct (afterUrl_spec _ _ E) as (u & Hu & Hs & Hh & Hn).
      exists EmptyString, u. cbn [rest cap]. split; [exact Hu|].
      split; [rewrite <- (slice0_app u r), <- Hu; reflexivity|auto].
    + rewrite Hr in H. destruct (IH _ H) as (a & u & Hu & Hrest).
      exists (String c a), u. split; [|exact Hrest].
      rewrite Hu at 1. reflexivity.
Qed.

Lemma matchAll_sound n p s u :
  In u (matchAll n urlPattern p s) ->
  solid u /\ isHttp u /\ Js.includes u s = true.
Proof.
  revert p s. induction n as [|n IH]; intros p s H; [destruct H|].
  cbn [matchAll] in H. destruct (exec urlPattern p s) as [st|] eqn:E; [|destruct H].
  destruct (exec_sound _ _ _ E) as (a & v & Hs & Hc & Hsolid & Hh & _).
  destruct H as [H|H].
  - rewrite Hc in H. cbn in H. subst v. repeat split; try assumption.
    apply includes_spec. exists a, (rest st). exact Hs.
  - destruct (IH _ _ H) as (H1 & H2 & H3). repeat split; try assumption.
    apply includes_trans with (p := rest st); [exact H3|].
    apply includes_spec. exists (a +:+ v), EmptyString.
    rewrite Hs, !append_assoc_s. f_equal. f_equal.
    clear. induction (rest st) as [|x t IHt]; [reflexivity|].
    change (String x t = String x (t +:+ EmptyString)). f_equal. exact IHt.
Qed.

Lemma existsb_eqb x seen : existsb (String.eqb x) seen = true <-> In x seen.
Proof.
  rewrite existsb_exists. split.
  - intros (y & Hy & E). apply String.eqb_eq in E. subst y. exact Hy.
  - intros H. exists x. split; [exact H|apply String.eqb_refl].
Qed.

Lemma unique_sound seen l u : In u (unique seen l) -> In u l /\ ~ In u seen.
Proof.
  revert seen. induction l as [|x l IH]; intros seen H; [destruct H|].
  cbn [unique] in H. destruct (existsb (String.eqb x) seen) eqn:E.
  - destruct (IH _ H) as [H1 H2]. split; [right; exact H1|exact H2].
  - destruct H as [<-|H].
    + split; [left; reflexivity|]. intros Hin. apply existsb_eqb in Hin. congruence.
    + destruct (IH _ H) as [H1 H2]. split; [right; exact H1|].
      intros Hin. apply H2. right. exact Hin.
Qed.

Lemma unique_NoDup seen l : NoDup (unique seen l).
Proof.
  revert seen. induction l as [|x l IH]; intros seen; cbn [unique]; [constructor|].
  destruct (existsb (String.eqb x) seen); [apply IH|].
  constructor; [|apply IH]. intros H. apply list_elem_of_In, unique_sound in H.
  apply (proj2 H). left. reflexivity.
Qed.

Lemma unique_complete seen l u : In u l -> ~ In u seen -> In u (unique seen l).
Proof.
  revert seen. induction l as [|x l IH]; intros seen H Hn; [destruct H|].
  cbn [unique]. destruct (existsb (String.eqb x) seen) eqn:E.
  - apply existsb_eqb in E. destruct H as [<-|H]; [contradiction|]. apply IH; assumption.
  - destruct (String.eqb x u) eqn:Ex.
    + apply String.eqb_eq in Ex. left. exact Ex.
    + right. destruct H as [->|H]; [rewrite String.eqb_refl in Ex; discriminate|].
      apply IH; [exact H|]. intros [->|Hin]; [|contradiction].
      rewrite String.eqb_refl in Ex. discriminate.
Qed.

(** X27: The embeds of a reply are the URLs of its text: each one starts with
    [http://] or [https://], has no white space and is a part of the text;
    and no URL is embedded twice. *)
Theorem embedUrls_sound (text : string) :
  NoDup (embedUrls text)
  /\ forall u, In u (embedUrls text) ->
       isHttp u /\ solid u /\ Js.includes u text = true.
Proof.
  split; [apply unique_NoDup|]. intros u H.
  apply unique_sound in H. destruct H as [H _].
  destruct (matchAll_sound _ _ _ _ H) as (H1 & H2 & H3). auto.
Qed.

(** The fuel of [matchGlobal] is never used up: every match takes at least
    one character, so more fuel than the text is long gives the same
    matches. *)
Lemma matchAll_fuel n m p s :
  (String.length s < n)%nat -> (String.length s < m)%nat ->
  matchAll n urlPattern p s = matchAll m urlPattern p s.
Proof.
  revert m p s. induction n as [|n IH]; intros m p s Hn Hm; [lia|].
  destruct m as [|m]; [lia|]. cbn [matchAll].
  destruct (exec urlPattern p s) as [st|] eqn:E; [|reflexivity].
  destruct (exec_sound _ _ _ E) as (a & u & Hs & _ & _ & _ & Hne).
  assert (String.length (rest st) < String.length s)%nat as Hlt.
  { apply (f_equal String.length) in Hs. rewrite !length_app_s in Hs.
    destruct u; [contradiction|]. simpl in Hs. lia. }
  f_equal. apply IH; lia.
Qed.

Lemma solid_cut u r pre c url :
  solid u -> Js.isWhiteSpace c = true ->
  u +:+ r = pre +:+ String c url ->
  exists r', pre = u +:+ r' /\ r = r' +:+ String c url.
Proof.
  intros Hs Hc. revert pre. induction u as [|x u IH]; intros pre H.
  - exists pre. split; [reflexivity|exact H].
  - unfold solid in Hs. cbn [allChars] in Hs. apply andb_prop in Hs.
    destruct Hs as [Hx Hs]. destruct pre as [|y pre].
    + change (String x (u +:+ r) = String c url) in H. injection H as -> _.
      unfold notSpace in Hx. rewrite Hc in Hx. discriminate.
    + change (String x (u +:+ r) = String y (pre +:+ String c url)) in H.
      injection H as -> H. destruct (IH Hs _ H) as (r' & -> & ->).
      exists r'. split; reflexivity.
Qed.

Lemma afterUrl_space c t : Js.isWhiteSpace c = true -> afterUrl (String c t) = None.
Proof.
  intros Hc. unfold afterUrl. cbn [stripPrefix].
  destruct (Ascii.eqb "h" c) eqn:E; [|reflexivity].
  apply Ascii.eqb_eq in E. subst c. discriminate.
Qed.

Lemma afterSolid_solid t : solid t -> afterSolid t = EmptyString.
Proof.
  unfold solid. induction t as [|c t IH]; [reflexivity|].
  cbn [allChars afterSolid]. unfold notSpace at 1. intros H.
  apply andb_prop in H. destruct H as [Hc Ht].
  destruct (Js.isWhiteSpace c); [discriminate|]. apply IH, Ht.
Qed.

(** The search from any place left of a white space that is followed by a
    URL ends at that URL or left of the white space. *)
Lemma exec_next c url :
  Js.isWhiteSpace c = true -> afterUrl url = Some EmptyString ->
  forall pre p, exists st,
    exec urlPattern p (pre +:+ String c url) = Some st
    /\ (cap st = Some url
        \/ exists r', rest st = r' +:+ String c url
                      /\ (String.length r' < String.length pre)%nat).
Proof.
  intros Hc Hurl. induction pre as [|x pre IH]; intros p.
  - change (EmptyString +:+ String c url) with (String c url).
    rewrite exec_eq. pose proof (run_urlPattern p (String c url)) as Hr.
    rewrite (afterUrl_space _ _ Hc) in Hr. rewrite Hr.
    rewrite exec_eq. pose proof (run_urlPattern (Some c) url) as Hr'.
    rewrite Hurl in Hr'. destruct Hr' as [p' Hr']. rewrite Hr'.
    eexists. split; [reflexivity|]. left. cbn [cap]. f_equal.
    apply slice0_all. simpl. lia.
  - change (String x pre +:+ String c url) with (String x (pre +:+ String c url)).
    rewrite exec_eq.
    pose proof (run_urlPattern p (String x (pre +:+ String c url))) as Hr.
    destruct (afterUrl (String x (pre +:+ String c url))) as [r|] eqn:E.
    + destruct Hr as [p' Hr]. rewrite Hr. eexists. split; [reflexivity|].
      right. cbn [rest].
      destruct (afterUrl_spec _ _ E) as (u & Hu & Hs & _ & Hne).
      destruct (solid_cut u r (String x pre) c url Hs Hc) as (r' & Hpre & ->);
        [symmetry; exact Hu|].
      exists r'. split; [reflexivity|]. rewrite Hpre, length_app_s.
      destruct u; [contradiction|]. simpl. lia.
    + rewrite Hr. destruct (IH (Some x)) as (st & Hst & Hcase).
      exists st. split; [exact Hst|].
      destruct Hcase as [Hcap|(r' & Hr' & Hlt)]; [left; exact Hcap|].
      right. exists r'. split; [exact Hr'|]. simpl. lia.
Qed.

Lemma matchAll_reaches c url :
  Js.isWhiteSpace c = true -> afterUrl url = Some EmptyString ->
  forall n pre p, (String.length pre < n)%nat ->
    In url (matchAll n urlPattern p (pre +:+ String c url)).
Proof.
  intros Hc Hurl. induction n as [|n IH]; intros pre p Hn; [lia|].
  cbn [matchAll]. destruct (exec_next c url Hc Hurl pre p) as (st & -> & Hcase).
  destruct Hcase as [->|(r' & -> & Hlt)]; [left; reflexivity|].
  right. apply IH. lia.
Qed.

(** A URL that ends a text and has white space left of it is embedded. *)
Lemma embedUrls_final pre c url :
  Js.isWhiteSpace c = true -> afterUrl url = Some EmptyString ->
  In url (embedUrls (pre +:+ String c url)).
Proof.
  intros Hc Hurl. apply unique_complete; [|intros []].
  apply matchAll_reaches; [exact Hc|exact Hurl|].
  rewrite length_app_s. lia.
Qed.

Lemma afterUrl_zora addr ref :
  solid addr -> solid ref ->
  afterUrl (Zora.generateZoraUrl addr ref) = Some EmptyString.
Proof.
  intros Ha Hr. unfold Zora.generateZoraUrl.
  assert (forall t, solid t ->
            afterUrl ("https://zora.co/coin/base:" +:+ t) = Some EmptyString) as H.
  { intros t Ht. unfold afterUrl. cbn. f_equal. apply afterSolid_solid.
    change (solid ("ora.co/coin/base:" +:+ t)).
    unfold solid. rewrite allChars_app. exact Ht. }
  destruct ref as [|x ref]; [apply H, Ha|].
  rewrite append_assoc_s. apply H. unfold solid. rewrite !allChars_app.
  unfold solid in Ha, Hr. rewrite Ha, Hr. reflexivity.
Qed.

(** X28: The reply that announces a token embeds its page: the Zora URL that
    ends the success message of [executeTokenCreation], of
    [executeCastTokenCreation] and of the first bot is among the embeds of
    the reply, whatever the text before it, when the address of the token
    and the referrer have no white space. *)
Theorem success_reply_embeds_coin_page (m username addr ref : string) :
  solid addr -> solid ref ->
  In (Zora.generateZoraUrl addr ref)
     (embedUrls (m +:+ Agent.nl +:+ Agent.nl +:+ "your creation is zoined! 🎨→🪙"
                 +:+ Agent.nl +:+ Agent.nl +:+ Zora.generateZoraUrl addr ref))
  /\ In (Zora.generateZoraUrl addr ref)
        (embedUrls (m +:+ Agent.nl +:+ Agent.nl +:+ "your creation is zoined! 🎨→🪙"
                    +:+ Agent.nl +:+ Agent.nl +:+ "tokenized cast by @" +:+ username
                    +:+ Agent.nl +:+ Agent.nl +:+ Zora.generateZoraUrl addr ref))
  /\ In (Zora.generateZoraUrl addr ref)
        (embedUrls (LegacyBot.successMessage (Zora.generateZoraUrl addr ref))).
Proof.
  intros Ha Hr. pose proof (afterUrl_zora addr ref Ha Hr) as Hurl.
  unfold LegacyBot.successMessage.
  repeat split; rewrite <- !append_assoc_s;
    match goal with
    | |- In ?u (embedUrls ((?x +:+ Agent.nl) +:+ ?u)) =>
        rewrite (append_assoc_s x Agent.nl u);
        exact (embedUrls_final x Extract.LF u eq_refl Hurl)
    end.
Qed.

Lemma success_reply_embeds_coin_page_witness :
  In "https://zora.co/coin/base:0xabc?referrer=0xdef"
     (embedUrls (LegacyBot.successMessage
                   "https://zora.co/coin/base:0xabc?referrer=0xdef")).
Proof.
  exact (proj2 (proj2 (success_reply_embeds_coin_page
                         "made it" "alice" "0xabc" "0xdef" eq_refl eq_refl))).
Defined.

End Embeds.
